(** * ReadMatic: a shallow embedding of the README generator

    The development follows the TypeScript sources:
    [FileSystemAnalyzer] (tree scanner, language detector, manifest
    detector, project analyzer), [ContentGenerator] (section generators and
    tree renderer), [MarkdownFormatter] (assembler) and
    [ConfigurationLoader] (defaults, exclusion, override).

    Conventions.
    - A JavaScript string is its sequence of UTF-16 code units, [list N].
    - Values that reach the code through [JSON.parse] have the static type
      [any]; they are modelled by [value].
    - Objects used as string-keyed maps are [gmap]s of their own
      properties, and an assignment [o[k] = v] to such an object treats the
      key [__proto__] as the language does; the one object whose
      enumeration order is observed ([extensionCounts]) is an association
      list in insertion order.
    - The file system and the builtins of Node ([path.basename],
      [path.join], [path.extname], [JSON.parse], ...) are parameters. *)

From Stdlib Require Import ZArith NArith Lia Ascii String List DecimalString.
From Stdlib Require Import Floats.SpecFloat.
From stdpp Require Import base option list gmap.

Set Warnings "-register-all".
Local Open Scope N_scope.

(** ** JavaScript strings *)

Module JS.

Abbreviation jsstring := (list N).

(** Reader for the string literals of the sources: every character stands
    for its code unit and the escape [\n] for a line feed. *)
Fixpoint lit (s : string) : jsstring :=
  match s with
  | EmptyString => []
  | String "\"%char (String "n"%char r) => 10 :: lit r
  | String a r => N_of_ascii a :: lit r
  end.

(** [WhiteSpace] and [LineTerminator] code points of ECMAScript: what
    [String.prototype.trim] strips and what [\s] matches. *)
Definition is_white (c : N) : bool :=
  (9 <=? c) && (c <=? 13)
  || (c =? 32) || (c =? 160) || (c =? 5760)
  || (8192 <=? c) && (c <=? 8202)
  || (c =? 8232) || (c =? 8233) || (c =? 8239) || (c =? 8287)
  || (c =? 12288) || (c =? 65279).

Fixpoint trimStart (s : jsstring) : jsstring :=
  match s with
  | [] => []
  | c :: r => if is_white c then trimStart r else s
  end.

Definition trimEnd (s : jsstring) : jsstring := rev (trimStart (rev s)).

(** [s.trim()] *)
Definition trim (s : jsstring) : jsstring := trimEnd (trimStart s).

(** [s.startsWith(p)] *)
Fixpoint startsWith (p s : jsstring) : bool :=
  match p, s with
  | [], _ => true
  | _ :: _, [] => false
  | a :: p', b :: s' => (a =? b) && startsWith p' s'
  end.

(** [s.repeat(n)] *)
Fixpoint repeat (s : jsstring) (n : nat) : jsstring :=
  match n with
  | O => []
  | S k => s ++ repeat s k
  end.

(** [s.split('\n')] *)
Fixpoint split_lines (s : jsstring) : list jsstring :=
  match s with
  | [] => [[]]
  | c :: r =>
      if c =? 10 then [] :: split_lines r
      else match split_lines r with
           | h :: t => (c :: h) :: t
           | [] => [[c]]
           end
  end.

(** [hay] contains [needle] as a substring. *)
Definition contains (needle hay : jsstring) : Prop :=
  ∃ pre post, hay = pre ++ needle ++ post.

(** ** Values of type [any] *)

Inductive value : Type :=
  | VUndefined
  | VNull
  | VBool (b : bool)
  | VNum (x : spec_float)
  | VStr (s : jsstring)
  | VArr (items : list value)
  | VObj (props : list (jsstring * value)).

(** [ToBoolean] *)
Definition truthy (v : value) : bool :=
  match v with
  | VUndefined | VNull => false
  | VBool b => b
  | VNum (S754_zero _) | VNum S754_nan => false
  | VNum _ => true
  | VStr s => negb (bool_decide (s = []))
  | VArr _ | VObj _ => true
  end.

(** [a || b] *)
Definition or_else (a b : value) : value := if truthy a then a else b.

(** [a ?? b] *)
Definition nullish_else (a b : value) : value :=
  match a with
  | VUndefined | VNull => b
  | _ => a
  end.

Fixpoint assoc (k : jsstring) (props : list (jsstring * value)) : option value :=
  match props with
  | [] => None
  | (k', v) :: r => if bool_decide (k' = k) then Some v else assoc k r
  end.

(** [v.k] for the property names the sources read ([name], [description],
    [dependencies], [scripts], [main], [bin], [excludeSections],
    [customContent], [maxDepth], [includeHiddenFiles]): none of them is
    defined on a prototype, so only own properties of an object answer.
    [None] is the [TypeError] raised on [null] and [undefined]. *)
Definition get (v : value) (k : jsstring) : option value :=
  match v with
  | VUndefined | VNull => None
  | VObj props => Some (default VUndefined (assoc k props))
  | _ => Some VUndefined
  end.

(** The property key of an array index. *)
Definition index_key (i : nat) : jsstring :=
  lit (NilEmpty.string_of_uint (Nat.to_uint i)).

(** [Object.keys(v)]; the properties of a [VObj] are kept in enumeration
    order. [None]: the [TypeError] on [null] and [undefined]. *)
Definition Object_keys (v : value) : option (list jsstring) :=
  match v with
  | VUndefined | VNull => None
  | VObj props => Some (map fst props)
  | VArr items => Some (map index_key (seq 0 (length items)))
  | VStr s => Some (map index_key (seq 0 (length s)))
  | VBool _ | VNum _ => Some []
  end.

(** [content.match(re)] for the patterns of the cargo probe: the key, [\s*],
    an equals sign, [\s*], and between two double quotes a non-empty run of
    characters other than the double quote, which is group 1. The result is
    group 1 of the leftmost match; [match_here] tries the pattern at the
    start of [s]. Each greedy run is followed by a character outside its
    class, so there is one way to match at a given position. *)
Definition quote : N := 34.

Fixpoint unquoted (s : jsstring) : jsstring * jsstring :=
  match s with
  | [] => ([], [])
  | c :: r => if c =? quote then ([], s)
              else let '(run, rest) := unquoted r in (c :: run, rest)
  end.

Definition match_here (key s : jsstring) : option jsstring :=
  if startsWith key s then
    match trimStart (drop (length key) s) with
    | c :: s =>
        if c =? 61 then
          match trimStart s with
          | c :: s =>
              if c =? quote then
                match unquoted s with
                | (c :: run, c' :: _) => if c' =? quote then Some (c :: run) else None
                | _ => None
                end
              else None
          | [] => None
          end
        else None
    | [] => None
    end
  else None.

Fixpoint match_assignment (key s : jsstring) : option jsstring :=
  match match_here key s with
  | Some group => Some group
  | None => match s with
            | [] => None
            | _ :: r => match_assignment key r
            end
  end.

(** [parts.join(sep)] on strings. *)
Fixpoint joinWith (sep : jsstring) (parts : list jsstring) : jsstring :=
  match parts with
  | [] => []
  | [part] => part
  | part :: rest => part ++ sep ++ joinWith sep rest
  end.

(** [Object.entries(v)], in the order of [Object_keys]. *)
Definition Object_entries (v : value) : option (list (jsstring * value)) :=
  match v with
  | VUndefined | VNull => None
  | VObj props => Some props
  | VArr items => Some (zip (map index_key (seq 0 (length items))) items)
  | VStr s => Some (zip (map index_key (seq 0 (length s))) (map (fun c => VStr [c]) s))
  | VBool _ | VNum _ => Some []
  end.

(** [ToString(v)], as a template literal or a concatenation with a string
    applies it to a value that came out of [JSON.parse]. The text of a
    number is left to [Number_toString]. An array joins the texts of its
    items with commas, [null] items giving the empty text. A plain object
    gives [[object Object]], unless an own property [toString] shadows the
    inherited method: that property is not callable and the conversion
    raises a [TypeError] ([None]). *)
Section Conversion.
Variable Number_toString : spec_float → jsstring.

Fixpoint toString (v : value) : option jsstring :=
  match v with
  | VUndefined => Some (lit "undefined")
  | VNull => Some (lit "null")
  | VBool b => Some (if b then lit "true" else lit "false")
  | VNum x => Some (Number_toString x)
  | VStr s => Some s
  | VArr items =>
      (fix join_items (items : list value) : option jsstring :=
         let text item :=
           match item with
           | VUndefined | VNull => Some []
           | _ => toString item
           end in
         match items with
         | [] => Some []
         | [item] => text item
         | item :: rest =>
             first ← text item;
             others ← join_items rest;
             Some (first ++ lit "," ++ others)
         end) items
  | VObj props =>
      match assoc (lit "toString") props with
      | None => Some (lit "[object Object]")
      | Some _ => None
      end
  end.

End Conversion.

End JS.

Import JS.

(** ** Data model ([types/index.ts]) *)

Inductive NodeType : Type := file | directory.

Module DirectoryNode.
Inductive t : Type :=
    Node (name : jsstring) (type : NodeType) (children : list t) (path : jsstring).
Definition name (n : t) : jsstring := let 'Node x _ _ _ := n in x.
Definition type (n : t) : NodeType := let 'Node _ x _ _ := n in x.
Definition children (n : t) : list t := let 'Node _ _ x _ := n in x.
Definition path (n : t) : jsstring := let 'Node _ _ _ x := n in x.
End DirectoryNode.
Import DirectoryNode (Node).

Inductive ManifestType : Type := npm | pip | cargo | other.

(** [projectName] and [description] are declared [string]; for an npm
    manifest they come unchecked out of [JSON.parse], hence [value]. *)
Module DependencyManifest.
Record t : Type := Build {
    type : ManifestType;
    filePath : jsstring;
    projectName : value;
    description : value;
    dependencies : list jsstring
  }.
End DependencyManifest.

Module ProjectMetadata.
Record t : Type := Build {
    name : value;
    description : value;
    language : jsstring;
    entryPoint : value;
    scripts : value;
    dependencies : list DependencyManifest.t;
    structure : DirectoryNode.t
  }.
End ProjectMetadata.

(** The fields are what [mergeWithDefaults] stores: user-supplied values of
    type [any], or the defaults. *)
Module GeneratorConfig.
Record t : Type := Build {
    excludeSections : value;
    customContent : value;
    maxDepth : value;
    includeHiddenFiles : value
  }.
End GeneratorConfig.

(** The result of [classifyDirectories]. *)
Module Classification.
Record t : Type := Build {
  source : list jsstring;
  test : list jsstring;
  config : list jsstring
}.
End Classification.

Global Instance NodeType_eq_dec : EqDecision NodeType.
Proof. solve_decision. Defined.
Global Instance ManifestType_eq_dec : EqDecision ManifestType.
Proof. solve_decision. Defined.

(** ** ContentGenerator *)

Module ContentGenerator.

Definition generateInstallation (manifests : list DependencyManifest.t) : jsstring :=
  if bool_decide (length manifests = 0%nat) then []
  else
    let content := lit "\n## Installation\n\n" in
    fold_left (fun content manifest =>
      match DependencyManifest.type manifest with
      | npm =>
          let content := content ++ lit "```bash\nnpm install\n```\n\n" in
          let content := content ++ lit "or\n\n" in
          content ++ lit "```bash\nyarn install\n```\n\n"
      | pip => content ++ lit "```bash\npip install -r requirements.txt\n```\n\n"
      | cargo => content ++ lit "```bash\ncargo build\n```\n\n"
      | other => content
      end) manifests content.

(** The private renderer. [depth] starts at 0 in [generateStructure] and
    only grows, hence [nat]; [maxDepth] is any integer. *)
Fixpoint formatTree (node : DirectoryNode.t) (depth : nat) (maxDepth : Z) : jsstring :=
  let 'Node name type children _ := node in
  if (Z.of_nat depth >? maxDepth)%Z then []
  else
    let indent := repeat (lit "  ") depth in
    let result := [] in
    let result :=
      if (0 <? depth)%nat then
        let result := result ++ (indent ++ name) in
        let result := if bool_decide (type = directory) then result ++ lit "/" else result in
        result ++ lit "\n"
      else result in
    if bool_decide (type = directory) then
      fold_left (fun result child => result ++ formatTree child (S depth) maxDepth)
                children result
    else result.

Definition generateStructure (tree : DirectoryNode.t) (maxDepth : Z) : jsstring :=
  let content := lit "\n## Project Structure\n\n```\n" in
  let content := content ++ formatTree tree 0 maxDepth in
  content ++ lit "```\n\n".

(** The remaining generators read fields of type [any]; [None] is an
    exception raised while a field is converted or enumerated. *)
Section Generators.
Variable Number_toString : spec_float → jsstring.

Definition generateTitle (metadata : ProjectMetadata.t) : option jsstring :=
  name ← toString Number_toString (ProjectMetadata.name metadata);
  Some (lit "# " ++ name).

Definition generateDescription (metadata : ProjectMetadata.t) : option jsstring :=
  if negb (truthy (ProjectMetadata.description metadata)) then Some []
  else
    description ← toString Number_toString (ProjectMetadata.description metadata);
    Some (lit "\n" ++ description ++ lit "\n").

Definition generateUsage (metadata : ProjectMetadata.t) : option jsstring :=
  let content := lit "\n## Usage\n\n" in
  keys ← Object_keys (ProjectMetadata.scripts metadata);
  content ←
    (if (0 <? length keys)%nat then
       let content := content ++ lit "Available scripts:\n\n" in
       entries ← Object_entries (ProjectMetadata.scripts metadata);
       content ←
         fold_left (fun content '(name, command) =>
                      content ← content;
                      command ← toString Number_toString command;
                      Some (content ++ (lit "- `npm run " ++ name ++ lit "`: "
                                        ++ command ++ lit "\n")))
                   entries (Some content);
       Some (content ++ lit "\n")
     else Some content);
  if truthy (ProjectMetadata.entryPoint metadata) then
    entryPoint ← toString Number_toString (ProjectMetadata.entryPoint metadata);
    let content := content ++ lit "Run the application:\n\n" in
    Some (content ++ (lit "```bash\nnode " ++ entryPoint ++ lit "\n```\n\n"))
  else Some content.

End Generators.

End ContentGenerator.

(** ** MarkdownFormatter *)

Module MarkdownFormatter.

Definition order : list jsstring :=
  [lit "title"; lit "description"; lit "installation"; lit "usage";
   lit "structure"; lit "license"].

(** [sections] has the declared type [{ [key: string]: string }]. *)
Definition assembleSections (sections : gmap jsstring jsstring) : jsstring :=
  let result :=
    fold_left (fun result key =>
      match sections !! key with
      | Some text => if bool_decide (text = []) then result else result ++ text
      | None => result
      end) order [] in
  trim result ++ lit "\n".

(** [None]: the [RangeError] of [repeat] on a negative count. *)
Definition formatHeading (text : jsstring) (level : Z) : option jsstring :=
  if (level <? 0)%Z then None
  else
    let hashes := repeat (lit "#") (Z.to_nat level) in
    Some (hashes ++ lit " " ++ text ++ lit "\n").

Definition formatCodeBlock (code language : jsstring) : jsstring :=
  lit "```" ++ language ++ lit "\n" ++ code ++ lit "\n```\n".

Definition formatList (items : list jsstring) : jsstring :=
  joinWith (lit "\n") (map (fun item => lit "- " ++ item) items) ++ lit "\n".

(** The renderer of the formatter: no depth bound. [indent] starts at 0 and
    grows by one per level. *)
Fixpoint formatTree (node : DirectoryNode.t) (indent : nat) : jsstring :=
  let 'Node name type children _ := node in
  let prefix := repeat (lit "  ") indent in
  let result := [] in
  let result :=
    if (0 <? indent)%nat then
      let result := result ++ (prefix ++ name) in
      let result := if bool_decide (type = directory) then result ++ lit "/" else result in
      result ++ lit "\n"
    else result in
  if bool_decide (type = directory) then
    fold_left (fun result child => result ++ formatTree child (S indent)) children result
  else result.

End MarkdownFormatter.

(** ** The host: file system and Node builtins *)

Module Stats.
Record t : Type := Build { isFile : bool }.
End Stats.

(** A snapshot of the file system as the [fs] calls of the sources see it.
    [None] stands for a raised exception. *)
Record FileSystem : Type := {
  statSync : jsstring → option Stats.t;
  readdirSync : jsstring → option (list jsstring);
  existsSync : jsstring → bool;
  readFileSync : jsstring → option jsstring
}.

(** [path.*], [String.prototype.toLowerCase] and [JSON.parse]
    ([None]: [SyntaxError]). An object returned by [JSON_parse] lists its
    own properties in enumeration order, each key once. *)
Record Host : Type := {
  basename : jsstring → jsstring;
  join : jsstring → jsstring → jsstring;
  extname : jsstring → jsstring;
  toLowerCase : jsstring → jsstring;
  JSON_parse : jsstring → option value
}.

(** Outcome of a call: a value, a raised exception, or recursion cut by the
    fuel of the embedding. *)
Inductive outcome (A : Type) : Type :=
  | Ok (a : A)
  | Throw
  | OutOfFuel.
Arguments Ok {A} a.
Arguments Throw {A}.
Arguments OutOfFuel {A}.

(** ** ConfigurationLoader *)

Module ConfigurationLoader.

(** The number 3. *)
Definition three : spec_float := S754_finite false 3 0.

(** [None]: the [TypeError] of a property read on [null]. *)
Definition mergeWithDefaults (config : value) : option GeneratorConfig.t :=
  excludeSections ← get config (lit "excludeSections");
  customContent ← get config (lit "customContent");
  maxDepth ← get config (lit "maxDepth");
  includeHiddenFiles ← get config (lit "includeHiddenFiles");
  Some {|
    GeneratorConfig.excludeSections := or_else excludeSections (VArr []);
    GeneratorConfig.customContent := or_else customContent (VObj []);
    GeneratorConfig.maxDepth := nullish_else maxDepth (VNum three);
    GeneratorConfig.includeHiddenFiles := nullish_else includeHiddenFiles (VBool false)
  |}.

(** The [try] block of [loadConfig]. *)
Definition readUserConfig (host : Host) (fs : FileSystem) (configPath : jsstring)
    : option GeneratorConfig.t :=
  content ← readFileSync fs configPath;
  userConfig ← JSON_parse host content;
  mergeWithDefaults userConfig.

(** [None]: an exception leaves [loadConfig]. *)
Definition loadConfig (host : Host) (fs : FileSystem) (rootPath : jsstring)
    : option GeneratorConfig.t :=
  let configPath := join host rootPath (lit ".readmerc.json") in
  if existsSync fs configPath then
    match readUserConfig host fs configPath with
    | Some config => Some config
    | None => mergeWithDefaults (VObj [])
    end
  else mergeWithDefaults (VObj []).

(** [Array.prototype.includes] on a [string[]] *)
Definition includes (l : list jsstring) (key : jsstring) : bool :=
  bool_decide (key ∈ l).

(** [result[key] = value] on a plain object whose values are strings. A
    key the object holds as its own property is overwritten. A key it does
    not hold is added, except [__proto__]: that assignment reaches the
    setter inherited from [Object.prototype], which ignores a value that
    is neither an object nor [null], so the object is left as it was. *)
Definition assign (key value : jsstring) (result : gmap jsstring jsstring)
    : gmap jsstring jsstring :=
  match result !! key with
  | Some _ => <[key := value]> result
  | None => if bool_decide (key = lit "__proto__") then result
            else <[key := value]> result
  end.

Definition applySectionExclusion (sections : gmap jsstring jsstring)
    (excludeSections : list jsstring) : gmap jsstring jsstring :=
  map_fold (fun key value result =>
              if negb (includes excludeSections key) then assign key value result
              else result)
           ∅ sections.

(** The spread [{ ...sections }] copies every own property, [__proto__]
    included, as an own property of the copy. *)
Definition applyCustomContent (sections : gmap jsstring jsstring)
    (customContent : gmap jsstring jsstring) : gmap jsstring jsstring :=
  let result := sections in
  map_fold (fun key value result =>
              if negb (bool_decide (value = [])) then assign key value result
              else result)
           result customContent.

(** The two steps of [main] (lines 132-133): exclusion, then override. *)
Definition configureSections (sections : gmap jsstring jsstring)
    (excludeSections : list jsstring) (customContent : gmap jsstring jsstring)
    : gmap jsstring jsstring :=
  let sections := applySectionExclusion sections excludeSections in
  applyCustomContent sections customContent.

End ConfigurationLoader.

(** ** FileSystemAnalyzer *)

Module FileSystemAnalyzer.

Section Analyzer.
Context (host : Host) (fs : FileSystem).

(** *** Tree scanner *)

(** The two [continue] tests and the third of the loop body. *)
Definition skipped (entry : jsstring) : bool :=
  (startsWith (lit ".") entry && negb (bool_decide (entry = lit ".gitignore")))
  || bool_decide (entry = lit "node_modules")
  || bool_decide (entry = lit "dist").

(** [scanDirectoryStructure] with the depth of the recursion bounded by
    [fuel]; [maxDepth] and [currentDepth] range over the integers. *)
Fixpoint scan (fuel : nat) (rootPath : jsstring) (maxDepth currentDepth : Z)
    : outcome DirectoryNode.t :=
  match fuel with
  | O => OutOfFuel
  | S fuel =>
      match statSync fs rootPath with
      | None => Throw
      | Some stats =>
          let name := basename host rootPath in
          if Stats.isFile stats then Ok (Node name file [] rootPath)
          else
            let node := Node name directory [] rootPath in
            if (currentDepth >=? maxDepth)%Z then Ok node
            else
              match readdirSync fs rootPath with
              | None => Ok node
              | Some entries =>
                  let children :=
                    fold_left (fun children entry =>
                      match children with
                      | Ok children =>
                          if skipped entry then Ok children
                          else
                            let fullPath := join host rootPath entry in
                            match scan fuel fullPath maxDepth (currentDepth + 1) with
                            | Ok childNode => Ok (children ++ [childNode])
                            | Throw => Ok children
                            | OutOfFuel => OutOfFuel
                            end
                      | _ => children
                      end) entries (Ok []) in
                  match children with
                  | Ok children => Ok (Node name directory children rootPath)
                  | Throw => Throw
                  | OutOfFuel => OutOfFuel
                  end
              end
      end
  end.

(** Fuel that the recursion cannot exhaust: every call below the first
    raises [currentDepth] and stops once it reaches [maxDepth]. *)
Definition scanDirectoryStructure (rootPath : jsstring) (maxDepth currentDepth : Z)
    : outcome DirectoryNode.t :=
  scan (S (Z.to_nat (maxDepth - currentDepth))) rootPath maxDepth currentDepth.

(** *** Language detector *)

(** [extensionCounts]: own properties in insertion order. Its keys are
    truthy results of [path.extname], which start with a dot, so none is an
    array index (enumerated first) or a name found on [Object.prototype]. *)
Fixpoint obj_get (k : jsstring) (o : list (jsstring * nat)) : option nat :=
  match o with
  | [] => None
  | (k', v) :: r => if bool_decide (k' = k) then Some v else obj_get k r
  end.

Fixpoint obj_set (k : jsstring) (v : nat) (o : list (jsstring * nat))
    : list (jsstring * nat) :=
  match o with
  | [] => [(k, v)]
  | (k', v') :: r =>
      if bool_decide (k' = k) then (k', v) :: r else (k', v') :: obj_set k v r
  end.

Definition tally (files : list jsstring) : list (jsstring * nat) :=
  fold_left (fun extensionCounts file =>
    let ext := toLowerCase host (extname host file) in
    if negb (bool_decide (ext = [])) then
      let old := match obj_get ext extensionCounts with
                 | Some c => if (c =? 0)%nat then 0%nat else c
                 | None => 0%nat
                 end in
      obj_set ext (old + 1)%nat extensionCounts
    else extensionCounts) files [].

Definition languageMap : list (jsstring * jsstring) :=
  [(lit ".ts", lit "TypeScript"); (lit ".js", lit "JavaScript");
   (lit ".py", lit "Python"); (lit ".rs", lit "Rust"); (lit ".go", lit "Go");
   (lit ".java", lit "Java"); (lit ".cpp", lit "C++"); (lit ".c", lit "C");
   (lit ".rb", lit "Ruby"); (lit ".php", lit "PHP")].

Fixpoint languageMap_get (k : jsstring) (m : list (jsstring * jsstring))
    : option jsstring :=
  match m with
  | [] => None
  | (k', v) :: r => if bool_decide (k' = k) then Some v else languageMap_get k r
  end.

(** The second loop: [(maxCount, primaryExt)] after the entries. *)
Definition primary (entries : list (jsstring * nat)) : nat * jsstring :=
  fold_left (fun '(maxCount, primaryExt) '(ext, count) =>
               if (maxCount <? count)%nat then (count, ext)
               else (maxCount, primaryExt))
            entries (0%nat, []).

Definition detectLanguage (files : list jsstring) : jsstring :=
  let extensionCounts := tally files in
  let '(maxCount, primaryExt) := primary extensionCounts in
  match languageMap_get primaryExt languageMap with
  | Some label => if bool_decide (label = []) then lit "Unknown" else label
  | None => lit "Unknown"
  end.


(** *** Manifest detector *)

(** The [try] block of the npm probe. *)
Definition readPackageJson (rootPath packageJsonPath : jsstring)
    : option DependencyManifest.t :=
  raw ← readFileSync fs packageJsonPath;
  content ← JSON_parse host raw;
  name ← get content (lit "name");
  description ← get content (lit "description");
  dependencies ← get content (lit "dependencies");
  keys ← Object_keys (or_else dependencies (VObj []));
  Some {|
    DependencyManifest.type := npm;
    DependencyManifest.filePath := packageJsonPath;
    DependencyManifest.projectName := or_else name (VStr (basename host rootPath));
    DependencyManifest.description := or_else description (VStr []);
    DependencyManifest.dependencies := keys
  |}.

(** The [try] block of the pip probe. *)
Definition readRequirements (rootPath requirementsPath : jsstring)
    : option DependencyManifest.t :=
  content ← readFileSync fs requirementsPath;
  let deps :=
    List.filter (fun line => negb (bool_decide (trim line = []))
                             && negb (startsWith (lit "#") line))
                (split_lines content) in
  Some {|
    DependencyManifest.type := pip;
    DependencyManifest.filePath := requirementsPath;
    DependencyManifest.projectName := VStr (basename host rootPath);
    DependencyManifest.description := VStr [];
    DependencyManifest.dependencies := deps
  |}.

(** The [try] block of the cargo probe. *)
Definition readCargo (rootPath cargoPath : jsstring) : option DependencyManifest.t :=
  content ← readFileSync fs cargoPath;
  let nameMatch := match_assignment (lit "name") content in
  let descMatch := match_assignment (lit "description") content in
  Some {|
    DependencyManifest.type := cargo;
    DependencyManifest.filePath := cargoPath;
    DependencyManifest.projectName :=
      match nameMatch with
      | Some group => VStr group
      | None => VStr (basename host rootPath)
      end;
    DependencyManifest.description :=
      match descMatch with
      | Some group => VStr group
      | None => VStr []
      end;
    DependencyManifest.dependencies := []
  |}.

(** One probe: [if (fs.existsSync(p)) { try { push } catch {} }]. *)
Definition probe (p : jsstring) (read : jsstring → option DependencyManifest.t)
    (manifests : list DependencyManifest.t) : list DependencyManifest.t :=
  if existsSync fs p then
    match read p with
    | Some manifest => manifests ++ [manifest]
    | None => manifests
    end
  else manifests.

Definition findDependencyManifests (rootPath : jsstring) : list DependencyManifest.t :=
  let manifests := [] in
  let packageJsonPath := join host rootPath (lit "package.json") in
  let manifests := probe packageJsonPath (readPackageJson rootPath) manifests in
  let requirementsPath := join host rootPath (lit "requirements.txt") in
  let manifests := probe requirementsPath (readRequirements rootPath) manifests in
  let cargoPath := join host rootPath (lit "Cargo.toml") in
  let manifests := probe cargoPath (readCargo rootPath) manifests in
  manifests.

(** *** Project analyzer *)

Fixpoint collectFiles (node : DirectoryNode.t) : list jsstring :=
  let 'Node _ type children path := node in
  let files := [] in
  if bool_decide (type = file) then files ++ [path]
  else fold_left (fun files child => files ++ collectFiles child) children files.

(** [JSON.parse(fs.readFileSync(p, 'utf-8'))] followed by one expression
    over the parsed content, inside a [try] with an empty [catch]. *)
Definition reread (p : jsstring) (expr : value → option value) (otherwise : value)
    : value :=
  match (raw ← readFileSync fs p; content ← JSON_parse host raw; expr content) with
  | Some v => v
  | None => otherwise
  end.

Definition analyzeProject (rootPath : jsstring) : outcome ProjectMetadata.t :=
  match scanDirectoryStructure rootPath 3 0 with
  | Ok structure =>
      let files := collectFiles structure in
      let language := detectLanguage files in
      let dependencies := findDependencyManifests rootPath in
      let primaryManifest := head dependencies in
      let name :=
        or_else (from_option DependencyManifest.projectName VUndefined primaryManifest)
                (VStr (basename host rootPath)) in
      let description :=
        or_else (from_option DependencyManifest.description VUndefined primaryManifest)
                (VStr []) in
      let scripts := VObj [] in
      let npmManifest :=
        List.find (fun d => bool_decide (DependencyManifest.type d = npm)) dependencies in
      let scripts :=
        match npmManifest with
        | Some m =>
            reread (DependencyManifest.filePath m)
                   (fun content =>
                      scripts ← get content (lit "scripts");
                      Some (or_else scripts (VObj [])))
                   scripts
        | None => scripts
        end in
      let entryPoint := VNull in
      let entryPoint :=
        match npmManifest with
        | Some m =>
            reread (DependencyManifest.filePath m)
                   (fun content =>
                      main ← get content (lit "main");
                      if truthy main then Some main
                      else bin ← get content (lit "bin");
                           Some (or_else bin VNull))
                   entryPoint
        | None => entryPoint
        end in
      Ok {|
        ProjectMetadata.name := name;
        ProjectMetadata.description := description;
        ProjectMetadata.language := language;
        ProjectMetadata.entryPoint := entryPoint;
        ProjectMetadata.scripts := scripts;
        ProjectMetadata.dependencies := dependencies;
        ProjectMetadata.structure := structure
      |}
  | Throw => Throw
  | OutOfFuel => OutOfFuel
  end.

(** *** Directory classifier *)

Definition sourcePatterns : list jsstring :=
  [lit "src"; lit "lib"; lit "source"; lit "app"].
Definition testPatterns : list jsstring :=
  [lit "test"; lit "tests"; lit "__tests__"; lit "spec"; lit "specs"].
Definition configPatterns : list jsstring :=
  [lit "config"; lit "configuration"; lit ".config"].

(** The inner function [classify]; the object [result] it pushes to is
    threaded through. *)
Fixpoint classify (n : DirectoryNode.t) (result : Classification.t) : Classification.t :=
  let 'Node name type children path := n in
  if bool_decide (type = directory) then
    let lowerName := toLowerCase host name in
    let result :=
      if bool_decide (lowerName ∈ sourcePatterns) then
        Classification.Build (Classification.source result ++ [path])
                             (Classification.test result)
                             (Classification.config result)
      else if bool_decide (lowerName ∈ testPatterns) then
        Classification.Build (Classification.source result)
                             (Classification.test result ++ [path])
                             (Classification.config result)
      else if bool_decide (lowerName ∈ configPatterns) then
        Classification.Build (Classification.source result)
                             (Classification.test result)
                             (Classification.config result ++ [path])
      else result in
    fold_left (fun result child => classify child result) children result
  else result.

Definition classifyDirectories (node : DirectoryNode.t) : Classification.t :=
  classify node (Classification.Build [] [] []).

End Analyzer.

End FileSystemAnalyzer.

(** ** Vocabulary of the statements *)

Module Spec.

(** The commands [generateInstallation] emits for one manifest. *)
Definition install_block (m : DependencyManifest.t) : jsstring :=
  match DependencyManifest.type m with
  | npm => lit "```bash\nnpm install\n```\n\n" ++ lit "or\n\n"
           ++ lit "```bash\nyarn install\n```\n\n"
  | pip => lit "```bash\npip install -r requirements.txt\n```\n\n"
  | cargo => lit "```bash\ncargo build\n```\n\n"
  | other => []
  end.

(** Every node reachable through directories, in pre-order, with its depth
    below the node the enumeration starts from (which has depth [depth]). *)
Fixpoint nodes_with_depth (node : DirectoryNode.t) (depth : nat)
    : list (nat * DirectoryNode.t) :=
  let 'Node _ type children _ := node in
  (depth, node) ::
  (if bool_decide (type = directory)
   then flat_map (fun child => nodes_with_depth child (S depth)) children
   else []).

(** The line of a node at depth [d]: one two-space unit per level, the
    name, a slash after a directory, a line feed. *)
Definition render_line (entry : nat * DirectoryNode.t) : jsstring :=
  let '(d, node) := entry in
  repeat (lit "  ") d ++ DirectoryNode.name node
  ++ (if bool_decide (DirectoryNode.type node = directory) then lit "/" else [])
  ++ lit "\n".

(** Below the root and not deeper than [maxDepth]. *)
Definition visible (maxDepth : Z) (entry : nat * DirectoryNode.t) : bool :=
  (0 <? entry.1)%nat && (Z.of_nat entry.1 <=? maxDepth)%Z.

(** A chain of directories [root/a/b/c/d/e]: a tree of depth 5. *)
Definition dir (name : string) (children : list DirectoryNode.t) : DirectoryNode.t :=
  Node (lit name) directory children (lit name).

Definition chain5 : DirectoryNode.t :=
  dir "root" [dir "a" [dir "b" [dir "c" [dir "d" [dir "e" []]]]]].

(** The extensions [detectLanguage] counts: the lower-cased extension of
    each file name, in input order, without the empty ones. *)
Definition extensions (host : Host) (files : list jsstring) : list jsstring :=
  List.filter (fun ext => negb (bool_decide (ext = [])))
              (map (fun file => toLowerCase host (extname host file)) files).

(** How often [ext] occurs among [exts]. *)
Definition occurrences (ext : jsstring) (exts : list jsstring) : nat :=
  length (List.filter (fun e => bool_decide (e = ext)) exts).

(** The label of an extension: its entry in the table, [Unknown] when it
    has none. *)
Definition label_of (ext : jsstring) : jsstring :=
  default (lit "Unknown")
          (FileSystemAnalyzer.languageMap_get ext FileSystemAnalyzer.languageMap).

(** The distinct elements of a list in order of first occurrence. *)
Definition add_first (seen : list jsstring) (x : jsstring) : list jsstring :=
  if bool_decide (x ∈ seen) then seen else seen ++ [x].

Definition firsts (l : list jsstring) : list jsstring := fold_left add_first l [].

(** The body of the first loop for a non-empty extension. *)
Definition bump (extensionCounts : list (jsstring * nat)) (ext : jsstring)
    : list (jsstring * nat) :=
  let old := match FileSystemAnalyzer.obj_get ext extensionCounts with
             | Some c => if (c =? 0)%nat then 0%nat else c
             | None => 0%nat
             end in
  FileSystemAnalyzer.obj_set ext (old + 1)%nat extensionCounts.

(** One probe of the manifest detector: the record read at [p] when the
    file exists and its [try] block completes. *)
Definition found (fs : FileSystem) (p : jsstring)
    (read : jsstring → option DependencyManifest.t) : option DependencyManifest.t :=
  if existsSync fs p then read p else None.

(** The first of three optional manifests. *)
Definition first_found (a b c : option DependencyManifest.t)
    : option DependencyManifest.t :=
  match a, b, c with
  | Some m, _, _ => Some m
  | None, Some m, _ => Some m
  | None, None, c => c
  end.

(** [lines.join('\n')] *)
Fixpoint join_lines (lines : list jsstring) : jsstring :=
  match lines with
  | [] => []
  | [line] => line
  | line :: rest => line ++ 10 :: join_lines rest
  end.

(** A line with a character that is not white space. *)
Definition non_blank (line : jsstring) : bool :=
  existsb (fun c => negb (is_white c)) line.

(** The dependencies of a requirements file as the specification words
    them: the non-blank, non-comment lines, each trimmed. *)
Definition trimmed_requirements (content : jsstring) : list jsstring :=
  map trim (List.filter (fun line => non_blank line && negb (startsWith (lit "#") line))
                        (split_lines content)).

(** A field holds a value: neither [undefined] nor [null]. *)
Definition defined (v : value) : Prop := v ≠ VUndefined ∧ v ≠ VNull.

(** No field of a configuration is left without a value. *)
Definition complete (config : GeneratorConfig.t) : Prop :=
  truthy (GeneratorConfig.excludeSections config) = true
  ∧ truthy (GeneratorConfig.customContent config) = true
  ∧ defined (GeneratorConfig.maxDepth config)
  ∧ defined (GeneratorConfig.includeHiddenFiles config).

(** The children the scanner keeps among [entries], given the outcome
    [child] of scanning each entry: skipped entries and entries whose scan
    raised are left out, the others appear in listing order. *)
Definition kept_children (child : jsstring → outcome DirectoryNode.t)
    (entries : list jsstring) : list DirectoryNode.t :=
  omap (fun entry =>
          if FileSystemAnalyzer.skipped entry then None
          else match child entry with
               | Ok node => Some node
               | Throw | OutOfFuel => None
               end) entries.

(** Every node of a tree, in pre-order. *)
Fixpoint all_nodes (node : DirectoryNode.t) : list DirectoryNode.t :=
  let 'Node _ _ children _ := node in
  node :: flat_map all_nodes children.

(** The number of levels below a node. *)
Fixpoint height (node : DirectoryNode.t) : nat :=
  let 'Node _ _ children _ := node in
  fold_right (fun child h => Nat.max (S (height child)) h) 0%nat children.

(** The number of leading characters of [s] equal to [c]. *)
Fixpoint leading (c : N) (s : jsstring) : nat :=
  match s with
  | [] => 0
  | a :: r => if a =? c then S (leading c r) else 0
  end.

(** A node records what [statSync] reported for its path. *)
Definition agrees_with_stat (host : Host) (fs : FileSystem) (n : DirectoryNode.t) : Prop :=
  DirectoryNode.name n = basename host (DirectoryNode.path n)
  ∧ ∃ stats, statSync fs (DirectoryNode.path n) = Some stats
             ∧ (DirectoryNode.type n = file ↔ Stats.isFile stats = true).

(** Every child of a node stands for an entry that the listing of the
    node's path holds and that the scanner does not skip. *)
Definition children_listed (host : Host) (fs : FileSystem) (n : DirectoryNode.t) : Prop :=
  Forall (fun child =>
            ∃ entries entry,
              readdirSync fs (DirectoryNode.path n) = Some entries
              ∧ entry ∈ entries
              ∧ FileSystemAnalyzer.skipped entry = false
              ∧ DirectoryNode.path child = join host (DirectoryNode.path n) entry)
         (DirectoryNode.children n).

(** The nodes a walk meets that starts at [node] and descends through
    directories only, in pre-order. *)
Definition reachable (node : DirectoryNode.t) : list DirectoryNode.t :=
  map snd (nodes_with_depth node 0).

(** A directory whose lower-cased name is one of [patterns]. *)
Definition named_in (host : Host) (patterns : list jsstring) (n : DirectoryNode.t) : bool :=
  bool_decide (DirectoryNode.type n = directory)
  && bool_decide (toLowerCase host (DirectoryNode.name n) ∈ patterns).

(** The line of the usage section for one script. *)
Definition usage_line (script : jsstring * jsstring) : jsstring :=
  lit "- `npm run " ++ script.1 ++ lit "`: " ++ script.2 ++ lit "\n".

(** The part of the usage section that lists the scripts. *)
Definition scripts_part (scripts : list (jsstring * jsstring)) : jsstring :=
  match scripts with
  | [] => []
  | _ => lit "Available scripts:\n\n" ++ concat (map usage_line scripts) ++ lit "\n"
  end.

(** The part of the usage section that runs the entry point. *)
Definition entry_part (entryPoint : jsstring) : jsstring :=
  match entryPoint with
  | [] => []
  | _ => lit "Run the application:\n\n" ++ lit "```bash\nnode " ++ entryPoint
         ++ lit "\n```\n\n"
  end.

(** A scripts object whose commands are strings. *)
Definition scripts_object (scripts : list (jsstring * jsstring)) : value :=
  VObj (map (fun script => (script.1, VStr script.2)) scripts).

End Spec.

(** ** A small project for the examples *)

Module Sample.

Fixpoint table {A} (rows : list (jsstring * A)) (p : jsstring) : option A :=
  match rows with
  | [] => None
  | (k, a) :: r => if bool_decide (k = p) then Some a else table r p
  end.

(** The part after the last slash. *)
Fixpoint last_segment (p : jsstring) : jsstring :=
  match p with
  | [] => []
  | c :: r => if bool_decide (47 ∈ r) then last_segment r
              else if c =? 47 then r else p
  end.

(** The part from the last dot on, when that dot is not the first
    character. *)
Fixpoint from_last_dot (s : jsstring) : jsstring :=
  match s with
  | [] => []
  | c :: r => if bool_decide (46 ∈ r) then from_last_dot r
              else if c =? 46 then s else []
  end.

Definition lower (c : N) : N :=
  if (65 <=? c) && (c <=? 90) then c + 32 else c.

(** The builtins on the inputs of the examples: normalised absolute POSIX
    paths, ASCII names, and one JSON text. *)
Definition package_text : jsstring :=
  lit "{" ++ [quote] ++ lit "name" ++ [quote] ++ lit ":" ++ [quote] ++ lit "demo"
  ++ [quote] ++ lit "}".

Definition host : Host := {|
  basename := last_segment;
  join := fun a b => a ++ lit "/" ++ b;
  extname := fun p => match last_segment p with
                      | [] => []
                      | c :: r => from_last_dot r
                      end;
  toLowerCase := map lower;
  JSON_parse := fun s =>
    if bool_decide (s = package_text)
    then Some (VObj [(lit "name", VStr (lit "demo"))])
    else None
|}.

Definition a_file : Stats.t := Stats.Build true.
Definition a_directory : Stats.t := Stats.Build false.

(** [/p] holds a requirements file, a source directory, entries the scanner
    skips, and [ghost], a link whose target is gone. *)
Definition requirements_text : jsstring :=
  lit "  flask  \n# pinned\n\nrequests==2.0\n".

Definition fs : FileSystem := {|
  statSync := table
    [(lit "/p", a_directory); (lit "/p/.git", a_directory);
     (lit "/p/.gitignore", a_file); (lit "/p/node_modules", a_directory);
     (lit "/p/dist", a_directory); (lit "/p/src", a_directory);
     (lit "/p/src/a.ts", a_file); (lit "/p/src/b.ts", a_file);
     (lit "/p/src/c.py", a_file); (lit "/p/requirements.txt", a_file)];
  readdirSync := table
    [(lit "/p", [lit ".git"; lit ".gitignore"; lit "dist"; lit "ghost";
                 lit "node_modules"; lit "requirements.txt"; lit "src"]);
     (lit "/p/.git", [lit "HEAD"]); (lit "/p/node_modules", []);
     (lit "/p/dist", []); (lit "/p/src", [lit "a.ts"; lit "b.ts"; lit "c.py"])];
  existsSync := fun p =>
    bool_decide (p ∈ [lit "/p"; lit "/p/.git"; lit "/p/.gitignore";
                      lit "/p/node_modules"; lit "/p/dist"; lit "/p/src";
                      lit "/p/src/a.ts"; lit "/p/src/b.ts"; lit "/p/src/c.py";
                      lit "/p/requirements.txt"]);
  readFileSync := table
    [(lit "/p/.gitignore", lit "dist\n");
     (lit "/p/requirements.txt", requirements_text)]
|}.

(** [/q] holds only a [package.json]. *)
Definition npm_fs : FileSystem := {|
  statSync := table [(lit "/q", a_directory); (lit "/q/package.json", a_file)];
  readdirSync := table [(lit "/q", [lit "package.json"])];
  existsSync := fun p => bool_decide (p ∈ [lit "/q"; lit "/q/package.json"]);
  readFileSync := table [(lit "/q/package.json", package_text)]
|}.

Definition a_cargo_manifest : DependencyManifest.t :=
  DependencyManifest.Build cargo (lit "/p/Cargo.toml") (VStr (lit "p")) (VStr []) [].

(** [/r] holds a directory that can be inspected but not listed. *)
Definition locked_fs : FileSystem := {|
  statSync := table [(lit "/r", a_directory); (lit "/r/locked", a_directory);
                     (lit "/r/a.ts", a_file)];
  readdirSync := table [(lit "/r", [lit "a.ts"; lit "locked"])];
  existsSync := fun p => bool_decide (p ∈ [lit "/r"; lit "/r/locked"; lit "/r/a.ts"]);
  readFileSync := table [(lit "/r/a.ts", lit "export {}\n")]
|}.

(** The tree of [/p] as the scanner returns it at depth 3. *)
Definition p_tree : DirectoryNode.t :=
  Node (lit "p") directory
    [Node (lit ".gitignore") file [] (lit "/p/.gitignore");
     Node (lit "requirements.txt") file [] (lit "/p/requirements.txt");
     Node (lit "src") directory
       [Node (lit "a.ts") file [] (lit "/p/src/a.ts");
        Node (lit "b.ts") file [] (lit "/p/src/b.ts");
        Node (lit "c.py") file [] (lit "/p/src/c.py")]
       (lit "/p/src")]
    (lit "/p").

(** A [Cargo.toml] for the examples. *)
Definition cargo_text : jsstring :=
  lit "[package]\nname = " ++ [quote] ++ lit "demo" ++ [quote]
  ++ lit "\nversion = " ++ [quote] ++ lit "0.1.0" ++ [quote] ++ lit "\n".

(** [/c] holds only a [Cargo.toml]. *)
Definition cargo_fs : FileSystem := {|
  statSync := table [(lit "/c", a_directory); (lit "/c/Cargo.toml", a_file)];
  readdirSync := table [(lit "/c", [lit "Cargo.toml"])];
  existsSync := fun p => bool_decide (p ∈ [lit "/c"; lit "/c/Cargo.toml"]);
  readFileSync := table [(lit "/c/Cargo.toml", cargo_text)]
|}.

(** A configuration file, the object it parses to, and a host that parses
    it and the text [null]. *)
Definition config_text : jsstring :=
  lit "{" ++ [quote] ++ lit "maxDepth" ++ [quote] ++ lit ":0," ++ [quote]
  ++ lit "includeHiddenFiles" ++ [quote] ++ lit ":false}".

Definition config_value : value :=
  VObj [(lit "maxDepth", VNum (S754_zero false));
        (lit "includeHiddenFiles", VBool false)].

Definition config_host : Host := {|
  basename := basename host;
  join := join host;
  extname := extname host;
  toLowerCase := toLowerCase host;
  JSON_parse := fun s =>
    if bool_decide (s = config_text) then Some config_value
    else if bool_decide (s = lit "null") then Some VNull
    else None
|}.

Definition config_fs : FileSystem := {|
  statSync := table [(lit "/k", a_directory); (lit "/k/.readmerc.json", a_file)];
  readdirSync := table [(lit "/k", [lit ".readmerc.json"])];
  existsSync := fun p => bool_decide (p ∈ [lit "/k"; lit "/k/.readmerc.json"]);
  readFileSync := table [(lit "/k/.readmerc.json", config_text)]
|}.

Definition null_fs : FileSystem := {|
  statSync := table [(lit "/k", a_directory); (lit "/k/.readmerc.json", a_file)];
  readdirSync := table [(lit "/k", [lit ".readmerc.json"])];
  existsSync := fun p => bool_decide (p ∈ [lit "/k"; lit "/k/.readmerc.json"]);
  readFileSync := table [(lit "/k/.readmerc.json", lit "null")]
|}.

(** Metadata with two scripts and an entry point. *)
Definition metadata : ProjectMetadata.t :=
  ProjectMetadata.Build (VStr (lit "demo")) (VStr (lit "A test")) (lit "TypeScript")
    (VStr (lit "dist/index.js"))
    (VObj [(lit "build", VStr (lit "tsc")); (lit "test", VStr (lit "vitest"))])
    [] p_tree.

(** A rendering of numbers for the examples, which convert none. *)
Definition no_numbers (x : spec_float) : jsstring := lit "NaN".

End Sample.

(** * Properties *)

(** ** Strings *)

Section StringFacts.
Import Spec.

Lemma trimStart_head (s : jsstring) (c : N) (r : jsstring) :
  trimStart s = c :: r → is_white c = false.
Proof.
  induction s as [|a s IH]; simpl; [discriminate|].
  destruct (is_white a) eqn:Ha; [exact IH|].
  intros [= <- _]. exact Ha.
Qed.

Lemma trimEnd_last (s body : jsstring) (c : N) :
  trimEnd s = body ++ [c] → is_white c = false.
Proof.
  unfold trimEnd. intros H.
  apply (f_equal (@rev N)) in H.
  rewrite rev_involutive, rev_app_distr in H. simpl in H.
  eapply trimStart_head, H.
Qed.

Lemma trim_last (s body : jsstring) (c : N) :
  trim s = body ++ [c] → is_white c = false.
Proof. apply trimEnd_last. Qed.

Lemma trimStart_split (s : jsstring) :
  ∃ white, s = white ++ trimStart s ∧ forallb is_white white = true.
Proof.
  induction s as [|c s (white & Hs & Hw)]; cbn [trimStart].
  - now exists [].
  - destruct (is_white c) eqn:Hc.
    + exists (c :: white). cbn [app forallb]. rewrite Hc, Hw. now rewrite <- Hs.
    + now exists [].
Qed.

(** [trim] removes a run of white space at each end and leaves a string
    that neither starts nor ends with white space. *)
Lemma trim_split (s : jsstring) :
  ∃ before after,
    s = before ++ trim s ++ after
    ∧ forallb is_white before = true ∧ forallb is_white after = true
    ∧ (∀ c r, trim s = c :: r → is_white c = false)
    ∧ (∀ r c, trim s = r ++ [c] → is_white c = false).
Proof.
  destruct (trimStart_split s) as (before & Hs & Hb).
  destruct (trimStart_split (rev (trimStart s))) as (after & Hr & Ha).
  exists before, (rev after). unfold trim, trimEnd.
  split; [|split; [exact Hb|split; [|split]]].
  - rewrite <- rev_app_distr, <- Hr, rev_involutive. exact Hs.
  - rewrite <- Ha. clear. induction after as [|c l IH]; [reflexivity|].
    cbn [rev forallb]. rewrite forallb_app, IH. cbn [forallb].
    rewrite andb_true_r. apply andb_comm.
  - intros c r Hc.
    destruct (trimStart s) as [|c0 s0] eqn:Hts; [discriminate|].
    pose proof (trimStart_head _ _ _ Hts) as Hc0.
    assert (Hkeep : ∃ r', rev (trimStart (rev (c0 :: s0))) = c0 :: r').
    { clear -Hc0. cbn [rev].
      assert (H : ∀ l, ∃ l', trimStart (l ++ [c0]) = l' ++ [c0]).
      { induction l as [|a l [l' IH]]; cbn [app trimStart].
        - rewrite Hc0. now exists [].
        - destruct (is_white a); [now exists l'|]. now exists (a :: l). }
      destruct (H (rev s0)) as [l' ->]. rewrite rev_app_distr. cbn. eauto. }
    destruct Hkeep as [r' Hkeep]. rewrite Hkeep in Hc. now injection Hc as <- _.
  - intros r c. apply trimEnd_last.
Qed.

Lemma split_lines_nonempty (s : jsstring) : split_lines s ≠ [].
Proof.
  destruct s as [|c s]; cbn [split_lines]; [discriminate|].
  destruct (c =? 10); [discriminate|]. destruct (split_lines s); discriminate.
Qed.

Lemma split_lines_join (s : jsstring) :
  join_lines (split_lines s) = s ∧ Forall (fun line => 10 ∉ line) (split_lines s).
Proof.
  induction s as [|c s [IHj IHf]]; cbn [split_lines].
  - split; [reflexivity|]. constructor; [apply not_elem_of_nil | constructor].
  - pose proof (split_lines_nonempty s) as Hne.
    destruct (N.eqb_spec c 10) as [->|Hc].
    + split.
      * cbn [join_lines]. destruct (split_lines s); [congruence|].
        cbn [app]. now rewrite IHj.
      * constructor; [apply not_elem_of_nil | exact IHf].
    + destruct (split_lines s) as [|h t]; [congruence|]. split.
      * destruct t; cbn [join_lines app] in *; now rewrite IHj.
      * apply Forall_cons in IHf as [Hh Ht]. constructor; [|exact Ht].
        rewrite not_elem_of_cons. auto.
Qed.

Lemma contains_intro (pre needle post hay : jsstring) :
  hay = pre ++ needle ++ post → contains needle hay.
Proof. intros ->. exists pre, post. reflexivity. Qed.

End StringFacts.

(** ** ContentGenerator *)

Section ContentGeneratorFacts.
Import ContentGenerator Spec.

Lemma installation_loop (manifests : list DependencyManifest.t) (content : jsstring) :
  fold_left (fun content manifest =>
      match DependencyManifest.type manifest with
      | npm =>
          let content := content ++ lit "```bash\nnpm install\n```\n\n" in
          let content := content ++ lit "or\n\n" in
          content ++ lit "```bash\nyarn install\n```\n\n"
      | pip => content ++ lit "```bash\npip install -r requirements.txt\n```\n\n"
      | cargo => content ++ lit "```bash\ncargo build\n```\n\n"
      | other => content
      end) manifests content
  = content ++ concat (map install_block manifests).
Proof.
  revert content. induction manifests as [|m ms IH]; intros content.
  - simpl. now rewrite app_nil_r.
  - cbn [fold_left map concat]. rewrite IH. unfold install_block.
    destruct (DependencyManifest.type m); cbv zeta;
      rewrite <- ?app_assoc; try reflexivity.
Qed.

(** C9. [generateInstallation] of no manifest is the empty string; of a
    non-empty sequence it is the heading [## Installation] (between line
    feeds) followed by the command block of each manifest in sequence
    order: [npm install] then [yarn install] for npm,
    [pip install -r requirements.txt] for pip, [cargo build] for cargo, and
    nothing for a manifest of type [other]. For a single cargo manifest the
    result contains [cargo build] and [## Installation]. *)
Theorem generateInstallation_spec (manifests : list DependencyManifest.t) :
  generateInstallation [] = []
  ∧ (manifests ≠ [] →
       generateInstallation manifests
       = lit "\n## Installation\n\n" ++ concat (map install_block manifests)
       ∧ contains (lit "## Installation") (generateInstallation manifests))
  ∧ (∀ m, manifests = [m] → DependencyManifest.type m = cargo →
       contains (lit "cargo build") (generateInstallation manifests)
       ∧ contains (lit "```bash\ncargo build\n```") (generateInstallation manifests)).
Proof.
  assert (Hne : manifests ≠ [] →
    generateInstallation manifests
    = lit "\n## Installation\n\n" ++ concat (map install_block manifests)).
  { intros Hm. unfold generateInstallation.
    rewrite bool_decide_false by (destruct manifests; [congruence | simpl; lia]).
    apply installation_loop. }
  split; [reflexivity|]. split.
  - intros Hm. split; [auto|]. rewrite Hne by exact Hm.
    apply (contains_intro [10] _ ([10; 10] ++ concat (map install_block manifests))).
    reflexivity.
  - intros m -> Hc. rewrite Hne by discriminate.
    cbn [map concat]. unfold install_block. rewrite Hc. split.
    + apply (contains_intro (lit "\n## Installation\n\n```bash\n") _ (lit "\n```\n\n")).
      reflexivity.
    + apply (contains_intro (lit "\n## Installation\n\n") _ (lit "\n\n")).
      reflexivity.
Qed.

Lemma generateInstallation_spec_witness :
  generateInstallation [Sample.a_cargo_manifest]
  = lit "\n## Installation\n\n```bash\ncargo build\n```\n\n"
  ∧ contains (lit "cargo build") (generateInstallation [Sample.a_cargo_manifest]).
Proof.
  split.
  - apply (proj1 (proj2 (generateInstallation_spec [Sample.a_cargo_manifest]))).
    discriminate.
  - apply (proj2 (proj2 (generateInstallation_spec [Sample.a_cargo_manifest]))
             Sample.a_cargo_manifest); reflexivity.
Defined.

End ContentGeneratorFacts.

(** ** Tree renderer *)

Section TreeFacts.
Import ContentGenerator Spec.

Lemma DirectoryNode_ind' (P : DirectoryNode.t → Prop) :
  (∀ name type children path, Forall P children → P (Node name type children path)) →
  ∀ node, P node.
Proof.
  intros step. fix self 1. intros [name type children path].
  apply step. induction children as [|c cs IH]; constructor; [apply self | exact IH].
Qed.

Lemma nodes_with_depth_ge (node : DirectoryNode.t) :
  ∀ depth, Forall (fun entry => (depth ≤ entry.1)%nat) (nodes_with_depth node depth).
Proof.
  induction node as [name type children path IH] using DirectoryNode_ind'.
  intros depth. cbn [nodes_with_depth]. constructor; [simpl; lia|].
  case_bool_decide; [|constructor].
  induction IH as [|c cs Hc _ IHcs]; [constructor|].
  cbn [flat_map]. apply Forall_app. split; [|exact IHcs].
  eapply Forall_impl; [apply (Hc (S depth))|]. simpl. intros; lia.
Qed.

Lemma render_loop (maxDepth : Z) (depth : nat) (children : list DirectoryNode.t)
    (result : jsstring) :
  fold_left (fun result child => result ++ formatTree child depth maxDepth)
            children result
  = result ++ concat (map (fun child => formatTree child depth maxDepth) children).
Proof.
  revert result. induction children as [|c cs IH]; intros result; simpl.
  - now rewrite app_nil_r.
  - rewrite IH. now rewrite <- app_assoc.
Qed.

Lemma filter_none {A} (p : A → bool) (l : list A) :
  Forall (fun a => p a = false) l → List.filter p l = [].
Proof.
  induction 1 as [|a l Ha _ IH]; simpl; [reflexivity|]. now rewrite Ha.
Qed.

Lemma filter_flat_map {A B} (p : B → bool) (f : A → list B) (l : list A) :
  List.filter p (flat_map f l) = flat_map (fun a => List.filter p (f a)) l.
Proof.
  induction l as [|a l IH]; simpl; [reflexivity|].
  now rewrite List.filter_app, IH.
Qed.

Lemma concat_map_flat_map {A B} (g : B → jsstring) (f : A → list B) (l : list A) :
  concat (map g (flat_map f l)) = concat (map (fun a => concat (map g (f a))) l).
Proof.
  induction l as [|a l IH]; simpl; [reflexivity|].
  now rewrite map_app, concat_app, IH.
Qed.

Lemma formatTree_lines (maxDepth : Z) (node : DirectoryNode.t) :
  ∀ depth,
    formatTree node depth maxDepth
    = concat (map render_line
                (List.filter (visible maxDepth) (nodes_with_depth node depth))).
Proof.
  induction node as [name type children path IH] using DirectoryNode_ind'.
  intros depth. cbn [formatTree].
  destruct (Z.of_nat depth >? maxDepth)%Z eqn:Hcut.
  - rewrite filter_none; [reflexivity|].
    eapply Forall_impl; [apply nodes_with_depth_ge|].
    intros [d n] Hd. unfold visible. simpl in *.
    apply andb_false_intro2. apply Z.leb_gt. lia.
  - cbn [nodes_with_depth List.filter]. unfold visible at 1. cbn [fst].
    replace (Z.of_nat depth <=? maxDepth)%Z with true by (symmetry; apply Z.leb_le; lia).
    rewrite andb_true_r.
    assert (Hkids :
      concat (map (fun child => formatTree child (S depth) maxDepth) children)
      = concat (map render_line
                  (List.filter (visible maxDepth)
                     (flat_map (fun child => nodes_with_depth child (S depth)) children)))).
    { rewrite filter_flat_map, concat_map_flat_map. f_equal.
      apply map_ext_Forall. eapply Forall_impl; [exact IH|].
      intros c Hc. apply Hc. }
    destruct (0 <? depth)%nat; case_bool_decide as Hdir; cbn [app];
      rewrite ?render_loop, ?Hkids; cbn [map concat render_line];
      cbn [DirectoryNode.name DirectoryNode.type];
      rewrite ?bool_decide_true, ?bool_decide_false by assumption;
      cbn [List.filter map concat]; rewrite <- ?app_assoc, ?app_nil_r; reflexivity.
Qed.

(** C8. Rendering from the root at depth 0 yields, in pre-order, exactly
    the lines of the nodes at depth 1 to [maxDepth]: the root has no line,
    deeper nodes are dropped, a line is one two-space unit per level, the
    name, a slash for a directory, and a line feed. For the depth-5 chain
    and [maxDepth = 2] only the nodes at depth 1 and 2 are rendered. *)
Theorem formatTree_spec (node : DirectoryNode.t) (maxDepth : Z) :
  let shown := List.filter (visible maxDepth) (nodes_with_depth node 0) in
  formatTree node 0 maxDepth = concat (map render_line shown)
  ∧ Forall (fun entry => (1 ≤ entry.1)%nat ∧ (Z.of_nat entry.1 ≤ maxDepth)%Z) shown
  ∧ (∀ name type children path d,
       render_line (d, Node name type children path)
       = repeat (lit "  ") d ++ name
         ++ (if bool_decide (type = directory) then lit "/" else []) ++ lit "\n")
  ∧ formatTree chain5 0 2 = lit "  a/\n    b/\n".
Proof.
  cbv zeta. split; [apply formatTree_lines|]. split; [|split].
  - apply Forall_forall. intros [d n] Hin.
    apply list_elem_of_In, List.filter_In in Hin as [_ Hv]. unfold visible in Hv. simpl in *.
    apply andb_true_iff in Hv as [H0 H1].
    apply Nat.ltb_lt in H0. apply Z.leb_le in H1. lia.
  - reflexivity.
  - vm_compute. reflexivity.
Qed.

End TreeFacts.

(** ** Assembler *)

Section AssemblerFacts.
Import MarkdownFormatter.

Lemma assemble_loop (sections : gmap jsstring jsstring) (keys : list jsstring)
    (result : jsstring) :
  fold_left (fun result key =>
      match sections !! key with
      | Some text => if bool_decide (text = []) then result else result ++ text
      | None => result
      end) keys result
  = result ++ concat (List.filter (fun text => negb (bool_decide (text = [])))
                        (omap (fun key => sections !! key) keys)).
Proof.
  revert result. induction keys as [|key keys IH]; intros result.
  - simpl. now rewrite app_nil_r.
  - cbn [fold_left]. rewrite IH. cbn [omap list_omap].
    destruct (sections !! key) as [text|]; [|reflexivity].
    cbn [List.filter]. case_bool_decide; cbn [negb concat]; [reflexivity|].
    now rewrite <- app_assoc.
Qed.

(** C2. [assembleSections] concatenates, in the order title, description,
    installation, usage, structure, license, the values that are present
    under these keys and non-empty; the result is that concatenation
    trimmed, followed by one line feed, and what precedes this line feed
    does not itself end in a line feed. *)
Theorem assembleSections_spec (sections : gmap jsstring jsstring) :
  let present :=
    List.filter (fun text => negb (bool_decide (text = [])))
      (omap (fun key => sections !! key)
         [lit "title"; lit "description"; lit "installation"; lit "usage";
          lit "structure"; lit "license"]) in
  assembleSections sections = trim (concat present) ++ lit "\n"
  ∧ ∀ body, assembleSections sections = body ++ lit "\n" →
      body = trim (concat present) ∧ ¬ ∃ shorter, body = shorter ++ lit "\n".
Proof.
  cbv zeta. unfold assembleSections. rewrite assemble_loop. cbn [app].
  split; [reflexivity|].
  intros body Hbody. apply app_inj_tail in Hbody as [<- _].
  split; [reflexivity|]. intros [shorter Hs].
  apply trim_last in Hs. discriminate.
Qed.

End AssemblerFacts.

Lemma assembleSections_spec_witness :
  MarkdownFormatter.assembleSections
    (<[lit "usage" := lit "\n## Usage\n\n"]>
       (<[lit "title" := lit "# demo"]> (<[lit "license" := []]> ∅)))
  = lit "# demo\n## Usage\n".
Proof.
  rewrite (proj1 (assembleSections_spec _)). vm_compute. reflexivity.
Defined.

(** ** Configuration *)

Section ConfigurationFacts.
Import ConfigurationLoader.

Lemma assign_lookup (key value : jsstring) (result : gmap jsstring jsstring)
    (k : jsstring) :
  assign key value result !! k
  = if bool_decide (k = key)
    then (if bool_decide (key = lit "__proto__") then (fun _ => value) <$> result !! key
          else Some value)
    else result !! k.
Proof.
  unfold assign. destruct (decide (k = key)) as [->|Hne].
  - rewrite (bool_decide_true (key = key)) by reflexivity.
    destruct (result !! key) as [old|] eqn:Hold.
    + rewrite lookup_insert_eq. now destruct (bool_decide (key = lit "__proto__")).
    + destruct (bool_decide (key = lit "__proto__")); [exact Hold|].
      now rewrite lookup_insert_eq.
  - rewrite (bool_decide_false _ Hne).
    destruct (result !! key) as [old|].
    + now rewrite lookup_insert_ne.
    + destruct (bool_decide (key = lit "__proto__")); [reflexivity|].
      now rewrite lookup_insert_ne.
Qed.

Lemma applySectionExclusion_lookup (sections : gmap jsstring jsstring)
    (excludeSections : list jsstring) (key : jsstring) :
  applySectionExclusion sections excludeSections !! key
  = if bool_decide (key ∈ excludeSections) then None
    else if bool_decide (key = lit "__proto__") then None
    else sections !! key.
Proof.
  unfold applySectionExclusion. revert key.
  apply (map_fold_weak_ind (fun result m => ∀ key,
           result !! key = if bool_decide (key ∈ excludeSections) then None
                           else if bool_decide (key = lit "__proto__") then None
                           else m !! key)).
  - intros key. rewrite lookup_empty. now repeat case_bool_decide.
  - intros k text m result Hk IH key. unfold includes.
    assert (Hresult : result !! k = None).
    { rewrite IH, Hk. now repeat case_bool_decide. }
    destruct (decide (key = k)) as [->|Hne].
    + rewrite lookup_insert_eq.
      destruct (decide (k ∈ excludeSections)) as [Hin|Hin].
      * rewrite !(bool_decide_true _ Hin). cbn [negb]. exact Hresult.
      * rewrite !(bool_decide_false _ Hin). cbn [negb].
        rewrite assign_lookup, (bool_decide_true (k = k)) by reflexivity.
        rewrite Hresult. now destruct (bool_decide (k = lit "__proto__")).
    + rewrite (lookup_insert_ne m) by congruence.
      destruct (bool_decide (k ∈ excludeSections)); cbn [negb]; [apply IH|].
      rewrite assign_lookup, (bool_decide_false _ Hne). apply IH.
Qed.

Lemma applyCustomContent_lookup (sections customContent : gmap jsstring jsstring)
    (key : jsstring) :
  applyCustomContent sections customContent !! key
  = match customContent !! key with
    | Some text =>
        if bool_decide (text = []) then sections !! key
        else if bool_decide (key = lit "__proto__") then (fun _ => text) <$> sections !! key
        else Some text
    | None => sections !! key
    end.
Proof.
  unfold applyCustomContent. cbv zeta. revert key.
  apply (map_fold_weak_ind (fun result m => ∀ key,
           result !! key
           = match m !! key with
             | Some text =>
                 if bool_decide (text = []) then sections !! key
                 else if bool_decide (key = lit "__proto__") then (fun _ => text) <$> sections !! key
                 else Some text
             | None => sections !! key
             end)).
  - intros key. now rewrite lookup_empty.
  - intros k text m result Hk IH key.
    assert (Hresult : result !! k = sections !! k).
    { now rewrite IH, Hk. }
    destruct (decide (key = k)) as [->|Hne].
    + rewrite lookup_insert_eq.
      destruct (bool_decide (text = [])); cbn [negb]; [exact Hresult|].
      rewrite assign_lookup, (bool_decide_true (k = k)) by reflexivity.
      now rewrite Hresult.
    + rewrite (lookup_insert_ne m) by congruence.
      destruct (bool_decide (text = [])); cbn [negb]; [apply IH|].
      rewrite assign_lookup, (bool_decide_false _ Hne). apply IH.
Qed.

Lemma configureSections_lookup (sections : gmap jsstring jsstring)
    (excludeSections : list jsstring) (customContent : gmap jsstring jsstring)
    (key : jsstring) :
  configureSections sections excludeSections customContent !! key
  = if bool_decide (key = lit "__proto__") then None
    else match customContent !! key with
         | Some text =>
             if bool_decide (text = [])
             then applySectionExclusion sections excludeSections !! key
             else Some text
         | None => applySectionExclusion sections excludeSections !! key
         end.
Proof.
  unfold configureSections. rewrite applyCustomContent_lookup.
  destruct (decide (key = lit "__proto__")) as [->|Hne].
  - rewrite (bool_decide_true (lit "__proto__" = lit "__proto__")) by reflexivity.
    assert (Hproto : applySectionExclusion sections excludeSections !! lit "__proto__"
                     = None).
    { rewrite applySectionExclusion_lookup.
      destruct (bool_decide (lit "__proto__" ∈ excludeSections)); [reflexivity|].
      now rewrite (bool_decide_true (lit "__proto__" = lit "__proto__")). }
    rewrite Hproto. destruct (customContent !! lit "__proto__") as [text|]; [|reflexivity].
    now destruct (bool_decide (text = [])).
  - rewrite !(bool_decide_false _ Hne). reflexivity.
Qed.

(** C3. Exclusion followed by override, as [main] applies them. On the
    scenario [{title: T, description: D}], exclude [description], custom
    [{description: X}], the result is [{title: T, description: X}]. In
    general, for every key other than [__proto__]: a key for which
    [customContent] has a non-empty value carries that value in the result
    even when exclusion removed it, and every other key is as exclusion
    left it, absent when excluded and unchanged otherwise. *)
Theorem configureSections_spec (sections : gmap jsstring jsstring)
    (excludeSections : list jsstring) (customContent : gmap jsstring jsstring) :
  configureSections
    (<[lit "title" := lit "T"]> (<[lit "description" := lit "D"]> ∅))
    [lit "description"]
    (<[lit "description" := lit "X"]> ∅)
  = <[lit "title" := lit "T"]> (<[lit "description" := lit "X"]> ∅)
  ∧ (∀ key text, key ≠ lit "__proto__" →
       customContent !! key = Some text → text ≠ [] →
       configureSections sections excludeSections customContent !! key = Some text)
  ∧ (∀ key, customContent !! key = None ∨ customContent !! key = Some [] →
       configureSections sections excludeSections customContent !! key
       = applySectionExclusion sections excludeSections !! key)
  ∧ (∀ key, key ≠ lit "__proto__" →
       applySectionExclusion sections excludeSections !! key
       = if bool_decide (key ∈ excludeSections) then None else sections !! key).
Proof.
  split; [|split; [|split]].
  - apply map_eq. intros key.
    rewrite configureSections_lookup, applySectionExclusion_lookup.
    destruct (decide (key = lit "description")) as [->|Hd].
    + rewrite (bool_decide_false (lit "description" = lit "__proto__")) by discriminate.
      rewrite lookup_insert_eq. rewrite lookup_insert_ne by discriminate.
      rewrite lookup_insert_eq. reflexivity.
    + rewrite (lookup_insert_ne _ (lit "description")) by congruence.
      rewrite lookup_empty.
      rewrite (bool_decide_false (key ∈ _))
        by (rewrite list_elem_of_singleton; exact Hd).
      destruct (decide (key = lit "title")) as [->|Ht].
      * rewrite !(bool_decide_false (lit "title" = lit "__proto__")) by discriminate.
        now rewrite !lookup_insert_eq.
      * rewrite !(lookup_insert_ne _ (lit "title")) by congruence.
        rewrite !(lookup_insert_ne _ (lit "description")) by congruence.
        rewrite lookup_empty. now destruct (bool_decide (key = lit "__proto__")).
  - intros key text Hkey Hc Hne.
    rewrite configureSections_lookup, Hc, (bool_decide_false _ Hkey).
    now rewrite (bool_decide_false (text = [])).
  - intros key Hc. rewrite configureSections_lookup.
    destruct (decide (key = lit "__proto__")) as [->|Hkey].
    + rewrite (bool_decide_true (lit "__proto__" = lit "__proto__")) by reflexivity.
      rewrite applySectionExclusion_lookup.
      destruct (bool_decide (lit "__proto__" ∈ excludeSections)); [reflexivity|].
      now rewrite (bool_decide_true (lit "__proto__" = lit "__proto__")).
    + rewrite (bool_decide_false _ Hkey). now destruct Hc as [-> | ->].
  - intros key Hkey. rewrite applySectionExclusion_lookup.
    now rewrite (bool_decide_false _ Hkey).
Qed.

Lemma configureSections_spec_witness :
  configureSections (<[lit "license" := lit "MIT"]> ∅) [lit "license"]
                    (<[lit "license" := lit "BSD"]> ∅) !! lit "license"
  = Some (lit "BSD").
Proof.
  apply (proj1 (proj2 (configureSections_spec
                         (<[lit "license" := lit "MIT"]> ∅) [lit "license"]
                         (<[lit "license" := lit "BSD"]> ∅)))).
  - discriminate.
  - apply lookup_insert_eq.
  - discriminate.
Defined.

(** C3, as the specification words it, fails at the key [__proto__]: the
    mapping holds it, exclusion removes it, [customContent] supplies the
    non-empty text [X] for it, and the result does not hold the key. *)
Lemma override_cannot_reinstate_proto :
  let sections : gmap jsstring jsstring := <[lit "__proto__" := lit "P"]> ∅ in
  let excludeSections := [lit "__proto__"] in
  let customContent : gmap jsstring jsstring := <[lit "__proto__" := lit "X"]> ∅ in
  lit "__proto__" ∈ excludeSections
  ∧ customContent !! lit "__proto__" = Some (lit "X")
  ∧ lit "X" ≠ []
  ∧ configureSections sections excludeSections customContent !! lit "__proto__" = None
  ∧ configureSections sections excludeSections customContent = ∅.
Proof.
  cbv zeta. split; [apply elem_of_cons; now left|].
  split; [apply lookup_insert_eq|]. split; [discriminate|].
  split; [now rewrite configureSections_lookup, bool_decide_true|].
  apply map_eq. intros key.
  rewrite configureSections_lookup, applySectionExclusion_lookup, lookup_empty.
  destruct (decide (key = lit "__proto__")) as [->|Hne].
  - now rewrite (bool_decide_true (lit "__proto__" = lit "__proto__")).
  - rewrite !(bool_decide_false _ Hne).
    rewrite !lookup_insert_ne, !lookup_empty by congruence.
    now destruct (bool_decide (key ∈ [lit "__proto__"])).
Qed.

End ConfigurationFacts.

(** ** Configuration loading *)

Section LoadConfigFacts.
Import ConfigurationLoader Spec.
Context (host : Host) (fs : FileSystem).

Lemma or_else_truthy (a b : value) : truthy b = true → truthy (or_else a b) = true.
Proof. unfold or_else. destruct (truthy a) eqn:Ha; auto. Qed.

Lemma nullish_else_defined (a b : value) : defined b → defined (nullish_else a b).
Proof. unfold defined. destruct a; simpl; intuition congruence. Qed.

Lemma truthy_defined (v : value) : truthy v = true → defined v.
Proof. unfold defined. destruct v; simpl; intuition congruence. Qed.

Lemma mergeWithDefaults_complete (userConfig : value) (config : GeneratorConfig.t) :
  mergeWithDefaults userConfig = Some config → complete config.
Proof.
  unfold mergeWithDefaults. intros H.
  destruct (get userConfig (lit "excludeSections")) as [e|]; [|discriminate].
  destruct (get userConfig (lit "customContent")) as [c|]; [|discriminate].
  destruct (get userConfig (lit "maxDepth")) as [d|]; [|discriminate].
  destruct (get userConfig (lit "includeHiddenFiles")) as [h|]; [|discriminate].
  cbn in H. injection H as <-. unfold complete. cbn.
  repeat split; try (apply or_else_truthy; reflexivity);
    try (apply nullish_else_defined; split; discriminate).
Qed.

(** C10. [loadConfig] always returns a configuration, and each of its four
    fields holds a value (the two collections are truthy, [maxDepth] and
    [includeHiddenFiles] are neither [undefined] nor [null]). When the
    file [.readmerc.json] is absent, cannot be read, or does not parse, the
    result is the default configuration: no excluded section, no custom
    content, [maxDepth] 3, [includeHiddenFiles] false. *)
Theorem loadConfig_spec (rootPath : jsstring) :
  let configPath := join host rootPath (lit ".readmerc.json") in
  let defaults :=
    GeneratorConfig.Build (VArr []) (VObj []) (VNum (S754_finite false 3 0))
                          (VBool false) in
  (existsSync fs configPath = false
   ∨ readFileSync fs configPath = None
   ∨ (∃ content, readFileSync fs configPath = Some content
                 ∧ JSON_parse host content = None) →
   loadConfig host fs rootPath = Some defaults)
  ∧ ∃ config, loadConfig host fs rootPath = Some config ∧ complete config.
Proof.
  cbv zeta. unfold loadConfig. split.
  - intros [Habsent | [Hread | (content & Hread & Hparse)]].
    + rewrite Habsent. reflexivity.
    + unfold readUserConfig. rewrite Hread. cbn.
      destruct (existsSync fs _); reflexivity.
    + unfold readUserConfig. rewrite Hread. cbn. rewrite Hparse. cbn.
      destruct (existsSync fs _); reflexivity.
  - assert (Hdef : ∃ config, mergeWithDefaults (VObj []) = Some config ∧ complete config).
    { eexists. split; [reflexivity|].
      apply (mergeWithDefaults_complete (VObj [])). reflexivity. }
    destruct (existsSync fs _); [|exact Hdef].
    unfold readUserConfig.
    destruct (readFileSync fs _) as [content|]; cbn; [|exact Hdef].
    destruct (JSON_parse host content) as [userConfig|]; cbn; [|exact Hdef].
    destruct (mergeWithDefaults userConfig) as [config|] eqn:Hmerge; [|exact Hdef].
    exists config. split; [reflexivity|]. eapply mergeWithDefaults_complete, Hmerge.
Qed.

End LoadConfigFacts.

Lemma loadConfig_spec_witness :
  ConfigurationLoader.loadConfig Sample.host Sample.fs (lit "/p")
  = Some (GeneratorConfig.Build (VArr []) (VObj []) (VNum (S754_finite false 3 0))
                                (VBool false)).
Proof.
  apply (proj1 (loadConfig_spec Sample.host Sample.fs (lit "/p"))).
  left. vm_compute. reflexivity.
Defined.

(** ** Tree scanner *)

(** Settles the test [currentDepth >= maxDepth] from the context. *)
Ltac depth_test b :=
  match goal with
  | |- context [(?c >=? ?m)%Z] =>
      replace (c >=? m)%Z with b
        by (symmetry; rewrite Z.geb_leb;
            first [apply Z.leb_le; lia | apply Z.leb_gt; lia])
  end.

Section ScannerFacts.
Import FileSystemAnalyzer Spec.
Context (host : Host) (fs : FileSystem).

Lemma scan_loop (child : jsstring → outcome DirectoryNode.t) (entries : list jsstring) :
  Forall (fun entry => child entry ≠ OutOfFuel) entries →
  ∀ children,
    fold_left (fun children entry =>
        match children with
        | Ok children =>
            if skipped entry then Ok children
            else match child entry with
                 | Ok childNode => Ok (children ++ [childNode])
                 | Throw => Ok children
                 | OutOfFuel => OutOfFuel
                 end
        | _ => children
        end) entries (Ok children)
    = Ok (children ++ kept_children child entries).
Proof.
  induction 1 as [|entry entries Hentry _ IH]; intros children.
  - simpl. now rewrite app_nil_r.
  - cbn [fold_left]. unfold kept_children. cbn [omap list_omap].
    destruct (skipped entry); [apply IH|].
    destruct (child entry) as [node| |]; [| apply IH | congruence].
    rewrite IH. unfold kept_children. now rewrite <- app_assoc.
Qed.

(** One unfolding of the scan of a directory that is expanded. *)
Lemma scan_expand (fuel : nat) (rootPath : jsstring) (maxDepth currentDepth : Z)
    (stats : Stats.t) (entries : list jsstring) :
  statSync fs rootPath = Some stats → Stats.isFile stats = false →
  (currentDepth < maxDepth)%Z → readdirSync fs rootPath = Some entries →
  Forall (fun entry =>
            scan host fs fuel (join host rootPath entry) maxDepth (currentDepth + 1)
            ≠ OutOfFuel) entries →
  scan host fs (S fuel) rootPath maxDepth currentDepth
  = Ok (Node (basename host rootPath) directory
          (kept_children
             (fun entry => scan host fs fuel (join host rootPath entry) maxDepth
                                (currentDepth + 1)) entries)
          rootPath).
Proof.
  intros Hstat Hdir Hdepth Hread Hfuel. cbn [scan].
  rewrite Hstat, Hdir, Hread.
  depth_test false.
  rewrite (scan_loop (fun entry => scan host fs fuel (join host rootPath entry) maxDepth
                                        (currentDepth + 1)) entries Hfuel []).
  reflexivity.
Qed.

(** The fuel of [scanDirectoryStructure] is never exhausted. *)
Lemma scan_total (n : nat) :
  ∀ rootPath maxDepth currentDepth,
    Z.to_nat (maxDepth - currentDepth) = n →
    scan host fs (S n) rootPath maxDepth currentDepth ≠ OutOfFuel.
Proof.
  induction n as [|n IH]; intros rootPath maxDepth currentDepth Hn.
  - cbn [scan]. destruct (statSync fs rootPath) as [stats|]; [|discriminate].
    destruct (Stats.isFile stats); [discriminate|].
    depth_test true.
    discriminate.
  - destruct (statSync fs rootPath) as [stats|] eqn:Hstat;
      [|cbn [scan]; rewrite Hstat; discriminate].
    destruct (Stats.isFile stats) eqn:Hfile;
      [cbn [scan]; rewrite Hstat, Hfile; discriminate|].
    destruct (readdirSync fs rootPath) as [entries|] eqn:Hread.
    + rewrite (scan_expand (S n) rootPath maxDepth currentDepth stats entries
                 Hstat Hfile ltac:(lia) Hread); [discriminate|].
      apply List.Forall_forall. intros entry _. apply IH. lia.
    + cbn [scan]. rewrite Hstat, Hfile, Hread.
      destruct (currentDepth >=? maxDepth)%Z; discriminate.
Qed.

Lemma scanDirectoryStructure_total (rootPath : jsstring) (maxDepth currentDepth : Z) :
  scanDirectoryStructure host fs rootPath maxDepth currentDepth ≠ OutOfFuel.
Proof. unfold scanDirectoryStructure. now apply scan_total. Qed.

Lemma scanDirectoryStructure_expand (rootPath : jsstring) (maxDepth currentDepth : Z)
    (stats : Stats.t) (entries : list jsstring) :
  statSync fs rootPath = Some stats → Stats.isFile stats = false →
  (currentDepth < maxDepth)%Z → readdirSync fs rootPath = Some entries →
  scanDirectoryStructure host fs rootPath maxDepth currentDepth
  = Ok (Node (basename host rootPath) directory
          (kept_children
             (fun entry => scanDirectoryStructure host fs (join host rootPath entry)
                             maxDepth (currentDepth + 1)) entries)
          rootPath).
Proof.
  intros Hstat Hdir Hdepth Hread. unfold scanDirectoryStructure.
  assert (Hfuel : Z.to_nat (maxDepth - currentDepth)
                  = S (Z.to_nat (maxDepth - (currentDepth + 1)))) by lia.
  rewrite <- Hfuel.
  apply (scan_expand _ _ _ _ stats); try assumption.
  apply List.Forall_forall. intros entry _. rewrite Hfuel. now apply scan_total.
Qed.

Lemma scanDirectoryStructure_throws (rootPath : jsstring) (maxDepth currentDepth : Z) :
  scanDirectoryStructure host fs rootPath maxDepth currentDepth = Throw
  ↔ statSync fs rootPath = None.
Proof.
  destruct (statSync fs rootPath) as [stats|] eqn:Hstat.
  - split; [|discriminate]. intros Hthrow. exfalso. revert Hthrow.
    destruct (Stats.isFile stats) eqn:Hfile;
      [unfold scanDirectoryStructure; cbn [scan]; rewrite Hstat, Hfile; discriminate|].
    destruct (Z_lt_ge_dec currentDepth maxDepth) as [Hlt|Hge].
    + destruct (readdirSync fs rootPath) as [entries|] eqn:Hread.
      * rewrite (scanDirectoryStructure_expand _ _ _ stats entries) by assumption.
        discriminate.
      * unfold scanDirectoryStructure; cbn [scan]. rewrite Hstat, Hfile, Hread.
        destruct (currentDepth >=? maxDepth)%Z; discriminate.
    + unfold scanDirectoryStructure; cbn [scan]. rewrite Hstat, Hfile.
      depth_test true.
      discriminate.
  - unfold scanDirectoryStructure; cbn [scan]. rewrite Hstat. tauto.
Qed.

(** C6. A path that names a file scans to a leaf: type [file], no children,
    whatever [maxDepth] and [currentDepth] are. A directory reached with
    [currentDepth >= maxDepth] scans to a node of type [directory] with no
    children: the node is there, its entries are not read. *)
Theorem scan_leaf_and_cutoff (rootPath : jsstring) (maxDepth currentDepth : Z)
    (stats : Stats.t) :
  statSync fs rootPath = Some stats →
  (Stats.isFile stats = true →
   scanDirectoryStructure host fs rootPath maxDepth currentDepth
   = Ok (Node (basename host rootPath) file [] rootPath))
  ∧ (Stats.isFile stats = false → (currentDepth >= maxDepth)%Z →
     scanDirectoryStructure host fs rootPath maxDepth currentDepth
     = Ok (Node (basename host rootPath) directory [] rootPath)).
Proof.
  intros Hstat. unfold scanDirectoryStructure. cbn [scan]. rewrite Hstat. split.
  - intros ->. reflexivity.
  - intros -> Hdepth.
    depth_test true.
    reflexivity.
Qed.

Lemma skipped_iff (entry : jsstring) :
  skipped entry = true
  ↔ ((∃ rest, entry = lit "." ++ rest) ∧ entry ≠ lit ".gitignore")
    ∨ entry = lit "node_modules" ∨ entry = lit "dist".
Proof.
  unfold skipped. rewrite !orb_true_iff, andb_true_iff, negb_true_iff.
  rewrite !bool_decide_eq_true, bool_decide_eq_false.
  assert (Hdot : startsWith (lit ".") entry = true ↔ ∃ rest, entry = lit "." ++ rest).
  { destruct entry as [|c rest]; cbn.
    - split; [discriminate | intros [? [=]]].
    - rewrite andb_true_r, N.eqb_eq. split.
      + intros <-. now exists rest.
      + now intros [? [= <- _]]. }
  rewrite Hdot. tauto.
Qed.

(** C7. The children of an expanded directory are, in listing order, the
    nodes of those entries that are not skipped and whose own scan returns
    a node. Skipped are the entries that start with a dot, [.gitignore]
    excepted, and [node_modules] and [dist]. An entry whose scan raises
    contributes no child and does not stop the scan of the directory, which
    returns a node whatever its entries do. *)
Theorem scan_children_spec (rootPath : jsstring) (maxDepth currentDepth : Z)
    (stats : Stats.t) (entries : list jsstring) :
  statSync fs rootPath = Some stats → Stats.isFile stats = false →
  (currentDepth < maxDepth)%Z → readdirSync fs rootPath = Some entries →
  let child := fun entry =>
    scanDirectoryStructure host fs (join host rootPath entry) maxDepth
                           (currentDepth + 1) in
  ∃ children,
    scanDirectoryStructure host fs rootPath maxDepth currentDepth
    = Ok (Node (basename host rootPath) directory children rootPath)
    ∧ children = kept_children child entries
    ∧ (∀ node, node ∈ children ↔
         ∃ entry, entry ∈ entries ∧ skipped entry = false ∧ child entry = Ok node)
    ∧ (∀ entry, child entry = Throw ↔ statSync fs (join host rootPath entry) = None)
    ∧ (∀ entry, child entry ≠ OutOfFuel)
    ∧ (∀ entry, skipped entry = true
         ↔ ((∃ rest, entry = lit "." ++ rest) ∧ entry ≠ lit ".gitignore")
           ∨ entry = lit "node_modules" ∨ entry = lit "dist")
    ∧ skipped (lit ".gitignore") = false.
Proof.
  intros Hstat Hdir Hdepth Hread child.
  exists (kept_children child entries).
  split; [now apply (scanDirectoryStructure_expand _ _ _ stats)|].
  split; [reflexivity|]. split; [|split; [|split; [|split]]].
  - intros node. unfold kept_children. rewrite list_elem_of_omap.
    split; intros (entry & Hin & Hentry); exists entry.
    + destruct (skipped entry); [discriminate|].
      destruct (child entry); [|discriminate..]. injection Hentry as ->. auto.
    + destruct Hentry as (-> & ->). auto.
  - intros entry. apply scanDirectoryStructure_throws.
  - intros entry. apply scanDirectoryStructure_total.
  - apply skipped_iff.
  - reflexivity.
Qed.

End ScannerFacts.

Lemma scan_leaf_and_cutoff_witness :
  FileSystemAnalyzer.scanDirectoryStructure Sample.host Sample.fs (lit "/p/.gitignore") 0 7
  = Ok (Node (lit ".gitignore") file [] (lit "/p/.gitignore"))
  ∧ FileSystemAnalyzer.scanDirectoryStructure Sample.host Sample.fs (lit "/p/src") 1 1
    = Ok (Node (lit "src") directory [] (lit "/p/src")).
Proof.
  split.
  - apply (proj1 (scan_leaf_and_cutoff Sample.host Sample.fs (lit "/p/.gitignore") 0 7
                    Sample.a_file eq_refl)).
    reflexivity.
  - apply (proj2 (scan_leaf_and_cutoff Sample.host Sample.fs (lit "/p/src") 1 1
                    Sample.a_directory eq_refl)); [reflexivity | lia].
Defined.

Lemma scan_children_spec_witness :
  ∃ children,
    FileSystemAnalyzer.scanDirectoryStructure Sample.host Sample.fs (lit "/p") 1 0
    = Ok (Node (lit "p") directory children (lit "/p"))
    ∧ children
      = [Node (lit ".gitignore") file [] (lit "/p/.gitignore");
         Node (lit "requirements.txt") file [] (lit "/p/requirements.txt");
         Node (lit "src") directory [] (lit "/p/src")].
Proof.
  destruct (scan_children_spec Sample.host Sample.fs (lit "/p") 1 0 Sample.a_directory
              [lit ".git"; lit ".gitignore"; lit "dist"; lit "ghost";
               lit "node_modules"; lit "requirements.txt"; lit "src"]
              eq_refl eq_refl ltac:(lia) eq_refl)
    as (children & Hscan & Hkept & _).
  exists children. split; [exact Hscan|]. rewrite Hkept. vm_compute. reflexivity.
Defined.

(** ** Language detector *)

Section LanguageFacts.
Import FileSystemAnalyzer Spec.
Context (host : Host).

Lemma tally_extensions (files : list jsstring) :
  tally host files = fold_left bump (extensions host files) [].
Proof.
  unfold tally, extensions. generalize (@nil (jsstring * nat)) as counts.
  induction files as [|f files IH]; intros counts; [reflexivity|].
  cbn [fold_left map List.filter]. rewrite IH.
  destruct (negb (bool_decide (toLowerCase host (extname host f) = []))); reflexivity.
Qed.

Lemma occurrences_snoc (k e : jsstring) (done : list jsstring) :
  occurrences k (done ++ [e])
  = (occurrences k done + if bool_decide (e = k) then 1 else 0)%nat.
Proof.
  unfold occurrences. rewrite List.filter_app, length_app. cbn [List.filter].
  now destruct (bool_decide (e = k)).
Qed.

Lemma occurrences_pos (k : jsstring) (l : list jsstring) :
  k ∈ l ↔ (0 < occurrences k l)%nat.
Proof.
  unfold occurrences. induction l as [|x l IH]; cbn [List.filter].
  - rewrite elem_of_nil. simpl. lia.
  - rewrite elem_of_cons. case_bool_decide as Hx; cbn [length].
    + subst. intuition lia.
    + rewrite <- IH. intuition congruence.
Qed.

Lemma add_first_loop (l seen : list jsstring) :
  NoDup seen →
  NoDup (fold_left add_first l seen)
  ∧ (∃ more, fold_left add_first l seen = seen ++ more)
  ∧ ∀ x, x ∈ fold_left add_first l seen ↔ x ∈ seen ∨ x ∈ l.
Proof.
  revert seen. induction l as [|y l IH]; intros seen Hnd; cbn [fold_left].
  - split; [exact Hnd|]. split; [exists []; now rewrite app_nil_r|].
    intros x. rewrite elem_of_nil. tauto.
  - assert (Hnd' : NoDup (add_first seen y)).
    { unfold add_first. case_bool_decide; [exact Hnd|].
      apply NoDup_app. repeat split; [exact Hnd | | apply NoDup_singleton].
      intros x Hx Hy. apply list_elem_of_singleton in Hy. congruence. }
    destruct (IH _ Hnd') as (H1 & (more & H2) & H3).
    split; [exact H1|]. split.
    + rewrite H2. unfold add_first. case_bool_decide; [now exists more|].
      exists ([y] ++ more). now rewrite app_assoc.
    + intros x. rewrite H3, elem_of_cons. unfold add_first.
      case_bool_decide as Hy.
      * intuition (subst; auto).
      * rewrite elem_of_app, list_elem_of_singleton. tauto.
Qed.

Lemma firsts_NoDup (l : list jsstring) : NoDup (firsts l).
Proof. apply add_first_loop, NoDup_nil_2. Qed.

Lemma firsts_elem (l : list jsstring) (x : jsstring) : x ∈ firsts l ↔ x ∈ l.
Proof.
  unfold firsts. destruct (add_first_loop l [] (NoDup_nil_2)) as (_ & _ & H).
  rewrite H, elem_of_nil. tauto.
Qed.

Lemma firsts_snoc (l : list jsstring) (x : jsstring) :
  firsts (l ++ [x]) = add_first (firsts l) x.
Proof. unfold firsts. now rewrite fold_left_app. Qed.

Lemma obj_get_map (g : jsstring → nat) (ks : list jsstring) (k : jsstring) :
  obj_get k (map (fun k => (k, g k)) ks)
  = if bool_decide (k ∈ ks) then Some (g k) else None.
Proof.
  induction ks as [|k' ks IH]; cbn [map obj_get]; [reflexivity|].
  destruct (decide (k' = k)) as [->|Hk].
  - rewrite !bool_decide_true; [reflexivity | apply elem_of_cons; now left | reflexivity].
  - rewrite (bool_decide_false (k' = k)) by exact Hk. rewrite IH.
    rewrite (bool_decide_ext (k ∈ ks) (k ∈ k' :: ks)); [reflexivity|].
    rewrite elem_of_cons. intuition congruence.
Qed.

Lemma obj_set_absent (g : jsstring → nat) (ks : list jsstring) (k : jsstring) (v : nat) :
  k ∉ ks →
  obj_set k v (map (fun k => (k, g k)) ks) = map (fun k => (k, g k)) ks ++ [(k, v)].
Proof.
  induction ks as [|k' ks IH]; intros Hk; cbn [map obj_set app]; [reflexivity|].
  rewrite not_elem_of_cons in Hk. destruct Hk as [Hne Hk].
  rewrite bool_decide_false by congruence. now rewrite IH.
Qed.

Lemma obj_set_present (g : jsstring → nat) (ks : list jsstring) (k : jsstring) (v : nat) :
  NoDup ks → k ∈ ks →
  obj_set k v (map (fun k => (k, g k)) ks)
  = map (fun k' => (k', if bool_decide (k = k') then v else g k')) ks.
Proof.
  induction 1 as [|k' ks Hk' Hnd IH]; intros Hk; [now apply elem_of_nil in Hk|].
  cbn [map obj_set]. destruct (decide (k' = k)) as [->|Hne].
  - rewrite !bool_decide_true by reflexivity. f_equal.
    apply map_ext_in. intros x Hx. apply list_elem_of_In in Hx.
    rewrite bool_decide_false; [reflexivity | congruence].
  - rewrite (bool_decide_false (k' = k)) by exact Hne.
    rewrite (bool_decide_false (k = k')) by congruence. f_equal. apply IH.
    apply elem_of_cons in Hk as [?|?]; [congruence | assumption].
Qed.

(** After the first loop, [extensionCounts] lists the distinct extensions
    in order of first occurrence, each with its number of occurrences. *)
Lemma tally_counts (files : list jsstring) :
  tally host files
  = map (fun ext => (ext, occurrences ext (extensions host files)))
        (firsts (extensions host files)).
Proof.
  rewrite tally_extensions. generalize (extensions host files) as exts.
  induction exts as [|e done IH] using rev_ind; [reflexivity|].
  rewrite fold_left_app. cbn [fold_left]. rewrite IH, firsts_snoc.
  unfold bump, add_first. rewrite obj_get_map.
  case_bool_decide as He.
  - assert (Hpos : (0 < occurrences e done)%nat)
      by now apply occurrences_pos, firsts_elem.
    destruct (occurrences e done =? 0)%nat eqn:Hz; [apply Nat.eqb_eq in Hz; lia|].
    rewrite obj_set_present by (auto using firsts_NoDup).
    apply map_ext. intros k. rewrite occurrences_snoc.
    case_bool_decide; subst; f_equal; lia.
  - rewrite obj_set_absent by exact He. rewrite map_app. cbn [map].
    rewrite occurrences_snoc, bool_decide_true by reflexivity.
    assert (Hz : occurrences e done = 0%nat).
    { destruct (occurrences e done) eqn:Ho; [reflexivity|].
      exfalso. apply He, firsts_elem, occurrences_pos. lia. }
    rewrite Hz. f_equal. apply map_ext_in. intros k Hk. apply list_elem_of_In in Hk.
    rewrite occurrences_snoc, bool_decide_false; [now rewrite Nat.add_0_r|].
    intros ->. contradiction.
Qed.

(** The second loop keeps the first entry whose count is maximal. *)
Lemma primary_loop (entries : list (jsstring * nat)) :
  ∀ maxCount primaryExt,
    let result := fold_left (fun '(maxCount, primaryExt) '(ext, count) =>
                               if (maxCount <? count)%nat then (count, ext)
                               else (maxCount, primaryExt))
                            entries (maxCount, primaryExt) in
    (result = (maxCount, primaryExt) ∧ Forall (fun e => e.2 ≤ maxCount)%nat entries)
    ∨ ((maxCount < result.1)%nat
       ∧ ∃ before after,
           entries = before ++ (result.2, result.1) :: after
           ∧ Forall (fun e => e.2 < result.1)%nat before
           ∧ Forall (fun e => e.2 ≤ result.1)%nat after).
Proof.
  induction entries as [|[ext count] entries IH]; intros maxCount primaryExt.
  - left. split; [reflexivity | constructor].
  - cbn [fold_left]. cbv zeta.
    destruct (Nat.ltb_spec maxCount count) as [Hlt|Hge].
    + specialize (IH count ext). cbv zeta in IH.
      destruct IH as [[Heq Hall] | (Hgt & before & after & Hsplit & Hb & Ha)].
      * right. rewrite Heq. cbn [fst snd]. split; [exact Hlt|].
        exists [], entries. repeat split; [constructor | exact Hall].
      * right. split; [lia|]. exists ((ext, count) :: before), after.
        rewrite Hsplit at 1. repeat split; [|exact Ha].
        constructor; [exact Hgt | exact Hb].
    + specialize (IH maxCount primaryExt). cbv zeta in IH.
      destruct IH as [[Heq Hall] | (Hgt & before & after & Hsplit & Hb & Ha)].
      * left. split; [exact Heq|]. constructor; [exact Hge | exact Hall].
      * right. split; [exact Hgt|]. exists ((ext, count) :: before), after.
        rewrite Hsplit at 1. repeat split; [|exact Ha].
        constructor; [exact (Nat.le_lt_trans _ _ _ Hge Hgt) | exact Hb].
Qed.

Lemma NoDup_split_unique (x : jsstring) (l1 l2 l1' l2' : list jsstring) :
  NoDup (l1 ++ x :: l2) → l1 ++ x :: l2 = l1' ++ x :: l2' → l1 = l1'.
Proof.
  revert l1'. induction l1 as [|a l1 IH]; intros l1' Hnd Heq.
  - destruct l1' as [|b l1']; [reflexivity|]. exfalso.
    cbn in Heq. injection Heq as <- ->. apply NoDup_cons in Hnd as [Hx _].
    apply Hx, elem_of_app. right. apply elem_of_cons. now left.
  - destruct l1' as [|b l1'].
    + exfalso. cbn in Heq. injection Heq as -> <-. apply NoDup_cons in Hnd as [Hx _].
      apply Hx, elem_of_app. right. apply elem_of_cons. now left.
    + cbn in Heq. injection Heq as <- Heq. f_equal.
      apply IH; [|exact Heq]. now apply NoDup_cons in Hnd as [_ ?].
Qed.

Lemma firsts_split (before after : list jsstring) (p : jsstring) :
  p ∉ before → ∃ more, firsts (before ++ p :: after) = firsts before ++ p :: more.
Proof.
  intros Hp. unfold firsts. rewrite fold_left_app. cbn [fold_left].
  fold (firsts before). unfold add_first at 2.
  assert (Hp' : p ∉ firsts before) by (rewrite firsts_elem; exact Hp).
  rewrite (bool_decide_false _ Hp').
  destruct (add_first_loop after (firsts before ++ [p])) as (_ & (more & Hmore) & _).
  { apply NoDup_app. repeat split; [apply firsts_NoDup | | apply NoDup_singleton].
    intros x Hx Hx'. apply list_elem_of_singleton in Hx'. subst.
    contradiction. }
  exists more. rewrite Hmore. now rewrite <- app_assoc.
Qed.

(** The entry the second loop selects, read on the sequence of
    extensions: it splits the sequence at its first occurrence, every
    extension before it occurs less often, none occurs more often. *)
Lemma primary_first (exts : list jsstring) (B A : list (jsstring * nat))
    (p : jsstring) (m : nat) :
  map (fun ext => (ext, occurrences ext exts)) (firsts exts) = B ++ (p, m) :: A →
  Forall (fun e => e.2 < m)%nat B → Forall (fun e => e.2 ≤ m)%nat A →
  m = occurrences p exts
  ∧ ∃ before after,
      exts = before ++ p :: after
      ∧ Forall (fun e => occurrences e exts < m)%nat before
      ∧ Forall (fun e => occurrences e exts ≤ m)%nat after.
Proof.
  intros Hmap HB HA.
  apply map_eq_app in Hmap as (K1 & K & Hfirsts & HK1 & HK).
  destruct K as [|q K2]; [discriminate|]. cbn [map] in HK.
  injection HK as -> Hm HK2. subst m B A. split; [reflexivity|].
  assert (Hp : p ∈ exts).
  { apply firsts_elem. rewrite Hfirsts. apply elem_of_app. right.
    apply elem_of_cons. now left. }
  apply list_elem_of_split_l in Hp as (before & after & Hexts & Hnotin).
  exists before, after. split; [exact Hexts|].
  destruct (firsts_split before after p Hnotin) as (more & Hmore).
  rewrite <- Hexts in Hmore.
  assert (HK1 : K1 = firsts before).
  { apply (NoDup_split_unique p K1 K2 (firsts before) more).
    - rewrite <- Hfirsts. apply firsts_NoDup.
    - now rewrite <- Hfirsts. }
  rewrite Forall_map in HB, HA. cbn [snd] in HB, HA.
  split; apply List.Forall_forall; intros e He; apply list_elem_of_In in He.
  - rewrite List.Forall_forall in HB. apply HB, list_elem_of_In.
    rewrite HK1. now apply firsts_elem.
  - assert (He' : e ∈ firsts exts).
    { apply firsts_elem. rewrite Hexts. apply elem_of_app. right.
      apply elem_of_cons. now right. }
    rewrite Hfirsts in He'. apply elem_of_app in He' as [He'|He'].
    + rewrite List.Forall_forall in HB. apply Nat.lt_le_incl, HB, list_elem_of_In, He'.
    + apply elem_of_cons in He' as [->|He']; [lia|].
      rewrite List.Forall_forall in HA. apply HA, list_elem_of_In, He'.
Qed.

Lemma languageMap_get_elem (k v : jsstring) (m : list (jsstring * jsstring)) :
  languageMap_get k m = Some v → (k, v) ∈ m.
Proof.
  induction m as [|[k' v'] m IH]; cbn [languageMap_get]; [discriminate|].
  case_bool_decide as Hk.
  - intros [= ->]. subst. apply elem_of_cons. now left.
  - intros H. apply elem_of_cons. right. now apply IH.
Qed.

Lemma label_of_cases (ext : jsstring) :
  (languageMap_get ext languageMap = None ∧ label_of ext = lit "Unknown")
  ∨ (∃ label, languageMap_get ext languageMap = Some label ∧ label_of ext = label
              ∧ label ≠ [] ∧ label ∈ map snd languageMap).
Proof.
  unfold label_of. destruct (languageMap_get ext languageMap) as [label|] eqn:Hget.
  - right. exists label. apply languageMap_get_elem in Hget.
    split; [reflexivity|]. split; [reflexivity|]. split.
    + unfold languageMap in Hget.
      repeat (apply elem_of_cons in Hget as [[= -> ->]|Hget]; [discriminate|]).
      now apply elem_of_nil in Hget.
    + apply list_elem_of_In, in_map_iff. exists (ext, label).
      split; [reflexivity | now apply list_elem_of_In].
  - left. split; reflexivity.
Qed.

Lemma detectLanguage_label (files : list jsstring) :
  detectLanguage host files = label_of (primary (tally host files)).2.
Proof.
  unfold detectLanguage. destruct (primary (tally host files)) as [maxCount primaryExt].
  cbn [snd]. destruct (label_of_cases primaryExt) as [[Hget ->] | (label & Hget & -> & Hne & _)];
    rewrite Hget; [reflexivity|]. now rewrite bool_decide_false.
Qed.

(** C4. [detectLanguage] counts the non-empty lower-cased extensions of the
    file names, recognised or not. With no such extension the result is
    [Unknown]. Otherwise the result is the label of the extension [ext]
    selected as follows: every extension met before the first occurrence
    of [ext] occurs strictly less often than [ext], and no extension
    occurs more often (so among the most frequent ones the first
    encountered wins). The labels are: [.ts] TypeScript, [.js] JavaScript,
    [.py] Python, [.rs] Rust, [.go] Go, [.java] Java, [.cpp] C++, [.c] C,
    [.rb] Ruby, [.php] PHP, and [Unknown] for every other extension. In
    particular the result is [Unknown] when no extension is recognised; it
    is never the empty string; and it depends on the sequence of file
    names alone. *)
Theorem detectLanguage_spec (files : list jsstring) :
  let exts := extensions host files in
  (exts = [] → detectLanguage host files = lit "Unknown")
  ∧ (exts ≠ [] →
       ∃ before ext after,
         exts = before ++ ext :: after
         ∧ Forall (fun e => occurrences e exts < occurrences ext exts)%nat before
         ∧ Forall (fun e => occurrences e exts ≤ occurrences ext exts)%nat after
         ∧ detectLanguage host files = label_of ext)
  ∧ map label_of [lit ".ts"; lit ".js"; lit ".py"; lit ".rs"; lit ".go";
                  lit ".java"; lit ".cpp"; lit ".c"; lit ".rb"; lit ".php"]
    = [lit "TypeScript"; lit "JavaScript"; lit "Python"; lit "Rust"; lit "Go";
       lit "Java"; lit "C++"; lit "C"; lit "Ruby"; lit "PHP"]
  ∧ (∀ ext, ext ∉ [lit ".ts"; lit ".js"; lit ".py"; lit ".rs"; lit ".go";
                   lit ".java"; lit ".cpp"; lit ".c"; lit ".rb"; lit ".php"] →
            label_of ext = lit "Unknown")
  ∧ (Forall (fun e => e ∉ [lit ".ts"; lit ".js"; lit ".py"; lit ".rs"; lit ".go";
                           lit ".java"; lit ".cpp"; lit ".c"; lit ".rb"; lit ".php"])
            exts →
       detectLanguage host files = lit "Unknown")
  ∧ (Forall (fun e => languageMap_get e languageMap = None) exts →
       detectLanguage host files = lit "Unknown")
  ∧ detectLanguage host files
    ∈ [lit "Unknown"; lit "TypeScript"; lit "JavaScript"; lit "Python"; lit "Rust";
       lit "Go"; lit "Java"; lit "C++"; lit "C"; lit "Ruby"; lit "PHP"]
  ∧ detectLanguage host files ∈ lit "Unknown" :: map snd languageMap
  ∧ detectLanguage host files ≠ []
  ∧ (∀ files', files' = files → detectLanguage host files' = detectLanguage host files).
Proof.
  cbv zeta.
  assert (Hother : ∀ ext,
            ext ∉ [lit ".ts"; lit ".js"; lit ".py"; lit ".rs"; lit ".go";
                   lit ".java"; lit ".cpp"; lit ".c"; lit ".rb"; lit ".php"] →
            languageMap_get ext languageMap = None).
  { intros ext Hext. rewrite !not_elem_of_cons in Hext.
    unfold languageMap. cbn [languageMap_get].
    repeat (rewrite (bool_decide_false (_ = ext)) by (intros <-; tauto)).
    reflexivity. }
  assert (Hnil : extensions host files = [] → detectLanguage host files = lit "Unknown").
  { intros Hexts. rewrite detectLanguage_label, tally_counts, Hexts. reflexivity. }
  assert (Hsel : extensions host files ≠ [] →
    ∃ before ext after,
      extensions host files = before ++ ext :: after
      ∧ Forall (fun e => occurrences e (extensions host files)
                         < occurrences ext (extensions host files))%nat before
      ∧ Forall (fun e => occurrences e (extensions host files)
                         ≤ occurrences ext (extensions host files))%nat after
      ∧ detectLanguage host files = label_of ext).
  { intros Hexts. rewrite detectLanguage_label, tally_counts.
    set (exts := extensions host files) in *.
    set (entries := map (fun ext => (ext, occurrences ext exts)) (firsts exts)).
    destruct (primary_loop entries 0 []) as [[_ Hall] | (_ & B & A & Hsplit & HB & HA)].
    - exfalso.
      assert (Hin : ∃ e, e ∈ firsts exts).
      { destruct exts as [|e exts']; [congruence|]. exists e.
        apply firsts_elem, elem_of_cons. now left. }
      destruct Hin as [e Hin].
      assert (Hpos : (0 < occurrences e exts)%nat)
        by (apply occurrences_pos, firsts_elem, Hin).
      unfold entries in Hall. rewrite Forall_map in Hall. cbn [snd] in Hall.
      rewrite List.Forall_forall in Hall.
      apply list_elem_of_In, Hall in Hin. lia.
    - fold (primary entries) in Hsplit, HB, HA.
      destruct (primary_first exts B A _ _ Hsplit HB HA)
        as (Hm & before & after & Hexts' & Hb & Ha).
      exists before, (primary entries).2, after. rewrite <- Hm.
      repeat split; assumption. }
  split; [exact Hnil|]. split; [exact Hsel|].
  assert (Hlabels : detectLanguage host files ∈ lit "Unknown" :: map snd languageMap
                    ∧ detectLanguage host files ≠ []).
  { rewrite detectLanguage_label.
    destruct (label_of_cases (primary (tally host files)).2)
      as [[_ ->] | (label & _ & -> & Hne & Hin)].
    - split; [apply elem_of_cons; now left | discriminate].
    - split; [apply elem_of_cons; now right | exact Hne]. }
  assert (Hnone : Forall (fun e => languageMap_get e languageMap = None)
                         (extensions host files) →
                  detectLanguage host files = lit "Unknown").
  { intros Hnone.
    destruct (extensions host files) as [|e exts'] eqn:Hexts; [now apply Hnil|].
    destruct Hsel as (before & ext & after & Hsplit & _ & _ & ->); [discriminate|].
    rewrite List.Forall_forall in Hnone.
    destruct (label_of_cases ext) as [[_ ->] | (label & Hget & _)]; [reflexivity|].
    rewrite Hnone in Hget; [discriminate|].
    rewrite Hsplit. apply in_elt. }
  split; [reflexivity|].
  split; [intros ext Hext; unfold label_of; now rewrite (Hother ext Hext)|].
  split; [intros Hexts; apply Hnone; revert Hexts; apply List.Forall_impl, Hother|].
  split; [exact Hnone|].
  split; [exact (proj1 Hlabels)|].
  split; [apply Hlabels | split; [apply Hlabels | now intros ? ->]].
Qed.

End LanguageFacts.

Lemma detectLanguage_spec_witness :
  FileSystemAnalyzer.detectLanguage Sample.host
    [lit "README.md"; lit "a.PY"; lit "b.ts"; lit "Makefile"; lit "c.py"; lit "d.ts"]
  = lit "Python"
  ∧ FileSystemAnalyzer.detectLanguage Sample.host [lit "README.md"; lit "Makefile"]
    = lit "Unknown"
  ∧ ∃ before ext after,
      [lit ".md"; lit ".py"; lit ".ts"; lit ".py"; lit ".ts"] = before ++ ext :: after
      ∧ FileSystemAnalyzer.detectLanguage Sample.host
          [lit "README.md"; lit "a.PY"; lit "b.ts"; lit "Makefile"; lit "c.py"; lit "d.ts"]
        = Spec.label_of ext.
Proof.
  split; [vm_compute; reflexivity|]. split.
  - apply (proj1 (proj2 (proj2 (proj2 (proj2 (detectLanguage_spec Sample.host
             [lit "README.md"; lit "Makefile"])))))).
    constructor; [|constructor].
    vm_compute. intros Hin.
    repeat (apply elem_of_cons in Hin as [Hin|Hin]; [discriminate Hin|]).
    now apply elem_of_nil in Hin.
  - destruct (proj1 (proj2 (detectLanguage_spec Sample.host
                [lit "README.md"; lit "a.PY"; lit "b.ts"; lit "Makefile"; lit "c.py";
                 lit "d.ts"])))
      as (before & ext & after & Hsplit & _ & _ & Hlabel).
    + vm_compute. discriminate.
    + exists before, ext, after. split; [|exact Hlabel].
      rewrite <- Hsplit. vm_compute. reflexivity.
Defined.

(** ** Manifest detector *)

Section ManifestFacts.
Import FileSystemAnalyzer Spec.
Context (host : Host) (fs : FileSystem).

Lemma trimStart_nil (s : jsstring) : trimStart s = [] ↔ forallb is_white s = true.
Proof.
  induction s as [|c s IH]; cbn [trimStart forallb]; [tauto|].
  destruct (is_white c); cbn [andb]; [exact IH|]. split; discriminate.
Qed.

Lemma trimStart_white_suffix (s : jsstring) :
  forallb is_white (trimStart s) = true → trimStart s = [].
Proof.
  induction s as [|c s IH]; cbn [trimStart]; [reflexivity|].
  destruct (is_white c) eqn:Hc; [exact IH|]. cbn [forallb]. rewrite Hc. discriminate.
Qed.

Lemma forallb_rev (p : N → bool) (s : jsstring) : forallb p (rev s) = forallb p s.
Proof.
  induction s as [|c s IH]; [reflexivity|]. cbn [rev forallb].
  rewrite forallb_app, IH. cbn [forallb]. rewrite andb_true_r. apply andb_comm.
Qed.

Lemma trim_nil (s : jsstring) : trim s = [] ↔ non_blank s = false.
Proof.
  unfold trim, trimEnd, non_blank.
  assert (Hnb : existsb (fun c => negb (is_white c)) s = false ↔ forallb is_white s = true).
  { induction s as [|c s IH]; cbn [existsb forallb]; [tauto|].
    destruct (is_white c); cbn [negb orb andb]; [exact IH | split; discriminate]. }
  rewrite Hnb, <- trimStart_nil. split.
  - intros H. apply (f_equal (@rev N)) in H. rewrite rev_involutive in H. cbn in H.
    apply trimStart_nil in H. rewrite forallb_rev in H.
    now apply trimStart_white_suffix.
  - intros ->. reflexivity.
Qed.

Lemma kept_line (line : jsstring) :
  negb (bool_decide (trim line = [])) && negb (startsWith (lit "#") line)
  = non_blank line && negb (startsWith (lit "#") line).
Proof.
  f_equal. destruct (non_blank line) eqn:Hnb.
  - rewrite bool_decide_false; [reflexivity|]. rewrite trim_nil. congruence.
  - rewrite bool_decide_true; [reflexivity|]. now apply trim_nil.
Qed.

Lemma findDependencyManifests_parts (rootPath : jsstring) :
  findDependencyManifests host fs rootPath
  = option_list (found fs (join host rootPath (lit "package.json"))
                          (readPackageJson host fs rootPath))
    ++ option_list (found fs (join host rootPath (lit "requirements.txt"))
                             (readRequirements host fs rootPath))
    ++ option_list (found fs (join host rootPath (lit "Cargo.toml"))
                             (readCargo host fs rootPath)).
Proof.
  unfold findDependencyManifests, probe, found. cbv zeta.
  destruct (existsSync fs (join host rootPath (lit "package.json")));
    [destruct (readPackageJson _ _ _ _)|];
  (destruct (existsSync fs (join host rootPath (lit "requirements.txt")));
    [destruct (readRequirements _ _ _ _)|]);
  (destruct (existsSync fs (join host rootPath (lit "Cargo.toml")));
    [destruct (readCargo _ _ _ _)|]); reflexivity.
Qed.

Lemma readPackageJson_type (rootPath p : jsstring) (m : DependencyManifest.t) :
  readPackageJson host fs rootPath p = Some m →
  DependencyManifest.type m = npm
  ∧ ∃ name description,
      DependencyManifest.projectName m = or_else name (VStr (basename host rootPath))
      ∧ DependencyManifest.description m = or_else description (VStr []).
Proof.
  unfold readPackageJson. intros H.
  destruct (readFileSync fs p) as [raw|]; [|discriminate].
  cbn [mbind option_bind] in H.
  destruct (JSON_parse host raw) as [content|]; [|discriminate].
  cbn [mbind option_bind] in H.
  destruct (get content (lit "name")) as [name|]; [|discriminate].
  destruct (get content (lit "description")) as [description|]; [|discriminate].
  destruct (get content (lit "dependencies")) as [dependencies|]; [|discriminate].
  cbn [mbind option_bind] in H.
  destruct (Object_keys (or_else dependencies (VObj []))) as [keys|]; [|discriminate].
  injection H as <-. cbn. eauto.
Qed.

Lemma readRequirements_record (rootPath p content : jsstring) :
  readFileSync fs p = Some content →
  readRequirements host fs rootPath p
  = Some (DependencyManifest.Build pip p (VStr (basename host rootPath)) (VStr [])
            (List.filter (fun line => non_blank line && negb (startsWith (lit "#") line))
                         (split_lines content))).
Proof.
  intros Hread. unfold readRequirements. rewrite Hread. cbn. do 2 f_equal.
  apply List.filter_ext. intros line. apply kept_line.
Qed.

Lemma readRequirements_type (rootPath p : jsstring) (m : DependencyManifest.t) :
  readRequirements host fs rootPath p = Some m →
  DependencyManifest.type m = pip
  ∧ DependencyManifest.projectName m = VStr (basename host rootPath)
  ∧ DependencyManifest.description m = VStr [].
Proof.
  unfold readRequirements. destruct (readFileSync fs p); [|discriminate].
  cbn. intros [= <-]. auto.
Qed.

Lemma match_here_nonempty (key s group : jsstring) :
  match_here key s = Some group → group ≠ [].
Proof.
  unfold match_here. destruct (startsWith key s); [|discriminate].
  destruct (trimStart _) as [|c s1]; [discriminate|].
  destruct (c =? 61); [|discriminate].
  destruct (trimStart s1) as [|c2 s2]; [discriminate|].
  destruct (c2 =? quote); [|discriminate].
  destruct (unquoted s2) as [[|a run] [|b rest]]; try discriminate.
  destruct (b =? quote); [|discriminate].
  intros [= <-]. discriminate.
Qed.

Lemma match_assignment_nonempty (key s group : jsstring) :
  match_assignment key s = Some group → group ≠ [].
Proof.
  induction s as [|c s IH]; cbn [match_assignment].
  - destruct (match_here key []) eqn:Hm; [|discriminate].
    intros [= <-]. eapply match_here_nonempty, Hm.
  - destruct (match_here key (c :: s)) eqn:Hm; [|exact IH].
    intros [= <-]. eapply match_here_nonempty, Hm.
Qed.

Lemma readCargo_type (rootPath p : jsstring) (m : DependencyManifest.t) :
  readCargo host fs rootPath p = Some m →
  DependencyManifest.type m = cargo
  ∧ (DependencyManifest.projectName m = VStr (basename host rootPath)
     ∨ truthy (DependencyManifest.projectName m) = true)
  ∧ ∃ text, DependencyManifest.description m = VStr text.
Proof.
  unfold readCargo. destruct (readFileSync fs p) as [content|]; [|discriminate].
  cbn [mbind option_bind]. intros H. apply (inj Some) in H. subst m.
  cbn [DependencyManifest.type DependencyManifest.projectName
       DependencyManifest.description].
  split; [reflexivity|]. split.
  - destruct (match_assignment (lit "name") content) as [group|] eqn:Hm; [|now left].
    right. apply match_assignment_nonempty in Hm. cbn [truthy].
    now rewrite bool_decide_false.
  - destruct (match_assignment (lit "description") content); eauto.
Qed.

Lemma found_elem (p : jsstring) (read : jsstring → option DependencyManifest.t)
    (m : DependencyManifest.t) :
  m ∈ option_list (found fs p read) → read p = Some m.
Proof.
  unfold found. destruct (existsSync fs p); [|intros H; now apply elem_of_nil in H].
  destruct (read p) as [m0|]; [|intros H; now apply elem_of_nil in H].
  cbn [option_list]. intros H. apply list_elem_of_singleton in H. now subst.
Qed.

(** C5, as the code has it. When [requirements.txt] exists and can be
    read, the result holds one pip record; its [projectName] is the
    directory base name, its [description] the empty string, and its
    [dependencies] are the lines of the file (its pieces between line
    feeds) that have a character other than white space and do not start
    with [#], each kept as it stands in the file: the lines are not
    trimmed. Trimming them gives the sequence the specification words. *)
Theorem pip_manifest_spec (rootPath content : jsstring) :
  let requirementsPath := join host rootPath (lit "requirements.txt") in
  existsSync fs requirementsPath = true →
  readFileSync fs requirementsPath = Some content →
  ∃ m, m ∈ findDependencyManifests host fs rootPath
       ∧ DependencyManifest.type m = pip
       ∧ DependencyManifest.filePath m = requirementsPath
       ∧ DependencyManifest.projectName m = VStr (basename host rootPath)
       ∧ DependencyManifest.description m = VStr []
       ∧ DependencyManifest.dependencies m
         = List.filter (fun line => non_blank line && negb (startsWith (lit "#") line))
                       (split_lines content)
       ∧ map trim (DependencyManifest.dependencies m) = trimmed_requirements content
       ∧ ∀ m', m' ∈ findDependencyManifests host fs rootPath →
               DependencyManifest.type m' = pip → m' = m.
Proof.
  cbv zeta. intros Hexists Hread.
  pose proof (readRequirements_record rootPath _ _ Hread) as Hfound.
  assert (Hrecord : found fs (join host rootPath (lit "requirements.txt"))
                      (readRequirements host fs rootPath) = Some _)
    by (unfold found; rewrite Hexists; exact Hfound).
  eexists. rewrite findDependencyManifests_parts, Hrecord.
  cbn [option_list].
  split; [apply elem_of_app; right; apply elem_of_app; left; apply elem_of_cons; now left|].
  cbn [DependencyManifest.type DependencyManifest.filePath DependencyManifest.projectName
       DependencyManifest.description DependencyManifest.dependencies].
  do 6 (split; [reflexivity|]).
  intros m' Hin Hpip.
  apply elem_of_app in Hin as [Hin | Hin]; [|apply elem_of_app in Hin as [Hin | Hin]].
  - exfalso. apply found_elem, readPackageJson_type in Hin as [Ht _]. congruence.
  - now apply list_elem_of_singleton in Hin.
  - exfalso. apply found_elem, readCargo_type in Hin as [Ht _]. congruence.
Qed.

End ManifestFacts.

Lemma pip_manifest_spec_witness :
  ∃ m, m ∈ FileSystemAnalyzer.findDependencyManifests Sample.host Sample.fs (lit "/p")
       ∧ DependencyManifest.type m = pip
       ∧ DependencyManifest.projectName m = VStr (lit "p")
       ∧ DependencyManifest.dependencies m = [lit "  flask  "; lit "requests==2.0"].
Proof.
  destruct (pip_manifest_spec Sample.host Sample.fs (lit "/p") Sample.requirements_text
              eq_refl eq_refl)
    as (m & Hin & Htype & _ & Hname & _ & Hdeps & _).
  exists m. split; [exact Hin|]. split; [exact Htype|]. split; [exact Hname|].
  rewrite Hdeps. vm_compute. reflexivity.
Defined.

(** C5, as worded: the dependencies would be the trimmed lines. On the
    sample project the file starts with the line [  flask  ], which the
    pip record keeps with its blanks. *)
Lemma pip_dependencies_untrimmed :
  ∃ m, FileSystemAnalyzer.findDependencyManifests Sample.host Sample.fs (lit "/p") = [m]
       ∧ DependencyManifest.type m = pip
       ∧ DependencyManifest.dependencies m = [lit "  flask  "; lit "requests==2.0"]
       ∧ Spec.trimmed_requirements Sample.requirements_text
         = [lit "flask"; lit "requests==2.0"]
       ∧ DependencyManifest.dependencies m
         ≠ Spec.trimmed_requirements Sample.requirements_text.
Proof.
  eexists. split; [vm_compute; reflexivity|].
  split; [reflexivity|]. split; [vm_compute; reflexivity|].
  split; [vm_compute; reflexivity|]. vm_compute. discriminate.
Qed.

(** ** Project analyzer *)

Section AnalyzerFacts.
Import FileSystemAnalyzer Spec.
Context (host : Host) (fs : FileSystem).

Lemma or_else_idem (a b : value) : or_else (or_else a b) b = or_else a b.
Proof.
  unfold or_else. destruct (truthy a) eqn:Ha; [now rewrite Ha|].
  now destruct (truthy b).
Qed.

Lemma or_else_same (b : value) : or_else b b = b.
Proof. unfold or_else. now destruct (truthy b). Qed.

Lemma or_else_truthy_l (a b : value) : truthy a = true → or_else a b = a.
Proof. unfold or_else. now intros ->. Qed.

Lemma or_else_text (text : jsstring) : or_else (VStr text) (VStr []) = VStr text.
Proof.
  unfold or_else. cbn [truthy]. case_bool_decide; [now subst | reflexivity].
Qed.

Lemma found_some (p : jsstring) (read : jsstring → option DependencyManifest.t)
    (m : DependencyManifest.t) :
  found fs p read = Some m → read p = Some m.
Proof. unfold found. destruct (existsSync fs p); [auto | discriminate]. Qed.

Lemma head_parts (a b c : option DependencyManifest.t) :
  head (option_list a ++ option_list b ++ option_list c) = first_found a b c.
Proof. destruct a, b, c; reflexivity. Qed.

Lemma analyzeProject_fields (rootPath : jsstring) (md : ProjectMetadata.t) :
  analyzeProject host fs rootPath = Ok md →
  let dependencies := findDependencyManifests host fs rootPath in
  ProjectMetadata.dependencies md = dependencies
  ∧ ProjectMetadata.name md
    = or_else (from_option DependencyManifest.projectName VUndefined (head dependencies))
              (VStr (basename host rootPath))
  ∧ ProjectMetadata.description md
    = or_else (from_option DependencyManifest.description VUndefined (head dependencies))
              (VStr []).
Proof.
  unfold analyzeProject.
  destruct (scanDirectoryStructure host fs rootPath 3 0); [|discriminate..].
  cbv zeta. intros H. assert (Hmd : ∀ x y : ProjectMetadata.t, Ok x = Ok y → x = y)
    by (intros x y [=]; assumption).
  apply Hmd in H. subst md. repeat split.
Qed.

(** C1. [analyzeProject] returns metadata whenever the root can be
    inspected. Its manifests are the records found by the npm, pip and
    cargo probes, in this order. When there is at least one, [name] and
    [description] are the [projectName] and [description] of the first;
    otherwise they are the directory base name and the empty string. *)
Theorem analyzeProject_name_spec (rootPath : jsstring) :
  let found_npm := found fs (join host rootPath (lit "package.json"))
                         (readPackageJson host fs rootPath) in
  let found_pip := found fs (join host rootPath (lit "requirements.txt"))
                         (readRequirements host fs rootPath) in
  let found_cargo := found fs (join host rootPath (lit "Cargo.toml"))
                           (readCargo host fs rootPath) in
  analyzeProject host fs rootPath ≠ OutOfFuel
  ∧ (analyzeProject host fs rootPath = Throw ↔ statSync fs rootPath = None)
  ∧ ∀ md, analyzeProject host fs rootPath = Ok md →
      ProjectMetadata.dependencies md
      = option_list found_npm ++ option_list found_pip ++ option_list found_cargo
      ∧ (∀ m, found_npm = Some m → DependencyManifest.type m = npm)
      ∧ (∀ m, found_pip = Some m → DependencyManifest.type m = pip)
      ∧ (∀ m, found_cargo = Some m → DependencyManifest.type m = cargo)
      ∧ match first_found found_npm found_pip found_cargo with
        | Some m =>
            ProjectMetadata.name md = DependencyManifest.projectName m
            ∧ ProjectMetadata.description md = DependencyManifest.description m
        | None =>
            ProjectMetadata.name md = VStr (basename host rootPath)
            ∧ ProjectMetadata.description md = VStr []
        end.
Proof.
  cbv zeta.
  split; [|split].
  - unfold analyzeProject.
    pose proof (scanDirectoryStructure_total host fs rootPath 3 0) as Htot.
    destruct (scanDirectoryStructure host fs rootPath 3 0); [discriminate.. | congruence].
  - rewrite <- (scanDirectoryStructure_throws host fs rootPath 3 0).
    unfold analyzeProject.
    destruct (scanDirectoryStructure host fs rootPath 3 0); split; congruence.
  - intros md Hmd. apply analyzeProject_fields in Hmd as (Hdeps & Hname & Hdesc).
    rewrite findDependencyManifests_parts in Hdeps, Hname, Hdesc.
    rewrite head_parts in Hname, Hdesc.
    split; [exact Hdeps|].
    split; [intros m Hm; now apply found_some, readPackageJson_type in Hm|].
    split; [intros m Hm; now apply found_some, readRequirements_type in Hm|].
    split; [intros m Hm; now apply found_some, readCargo_type in Hm|].
    rewrite Hname, Hdesc. unfold first_found.
    destruct (found fs _ (readPackageJson host fs rootPath)) as [m|] eqn:Ha.
    { apply found_some, readPackageJson_type in Ha as (_ & name & description & Hn & Hd).
      cbn [from_option]. rewrite Hn, Hd. now rewrite !or_else_idem. }
    destruct (found fs _ (readRequirements host fs rootPath)) as [m|] eqn:Hb.
    { apply found_some, readRequirements_type in Hb as (_ & Hn & Hd).
      cbn [from_option]. rewrite Hn, Hd. now rewrite !or_else_same. }
    destruct (found fs _ (readCargo host fs rootPath)) as [m|] eqn:Hc.
    { apply found_some, readCargo_type in Hc as (_ & Hn & text & Hd).
      cbn [from_option]. rewrite Hd, or_else_text. split; [|reflexivity].
      destruct Hn as [-> | Hn]; [apply or_else_same | now apply or_else_truthy_l]. }
    cbn [from_option]. split; reflexivity.
Qed.

End AnalyzerFacts.

Lemma analyzeProject_name_spec_witness :
  ∃ md, FileSystemAnalyzer.analyzeProject Sample.host Sample.npm_fs (lit "/q") = Ok md
        ∧ ProjectMetadata.name md = VStr (lit "demo")
        ∧ ProjectMetadata.description md = VStr [].
Proof.
  eexists. split; [vm_compute; reflexivity|].
  pose proof (proj2 (proj2 (analyzeProject_name_spec Sample.host Sample.npm_fs (lit "/q")))
                _ eq_refl) as (_ & _ & _ & _ & H).
  exact H.
Defined.

(** * Further properties *)

(** ** Trees produced by the scanner *)

Section ScannedTrees.
Import FileSystemAnalyzer Spec.
Context (host : Host) (fs : FileSystem).

(** The three ways a scan returns a node. *)
Lemma scan_cases (rootPath : jsstring) (maxDepth currentDepth : Z) (t : DirectoryNode.t) :
  scanDirectoryStructure host fs rootPath maxDepth currentDepth = Ok t →
  ∃ stats,
    statSync fs rootPath = Some stats
    ∧ ((Stats.isFile stats = true ∧ t = Node (basename host rootPath) file [] rootPath)
       ∨ (Stats.isFile stats = false
          ∧ ((currentDepth >= maxDepth)%Z ∨ readdirSync fs rootPath = None)
          ∧ t = Node (basename host rootPath) directory [] rootPath)
       ∨ (Stats.isFile stats = false ∧ (currentDepth < maxDepth)%Z
          ∧ ∃ entries,
              readdirSync fs rootPath = Some entries
              ∧ t = Node (basename host rootPath) directory
                      (kept_children
                         (fun entry => scanDirectoryStructure host fs
                                         (join host rootPath entry) maxDepth
                                         (currentDepth + 1)) entries)
                      rootPath)).
Proof.
  intros Hscan.
  destruct (statSync fs rootPath) as [stats|] eqn:Hstat.
  2:{ apply (scanDirectoryStructure_throws host fs rootPath maxDepth currentDepth) in Hstat.
      congruence. }
  exists stats. split; [reflexivity|].
  destruct (Stats.isFile stats) eqn:Hfile.
  - left. split; [reflexivity|].
    unfold scanDirectoryStructure in Hscan. cbn [scan] in Hscan.
    rewrite Hstat, Hfile in Hscan. congruence.
  - right. destruct (Z_lt_ge_dec currentDepth maxDepth) as [Hlt|Hge].
    + destruct (readdirSync fs rootPath) as [entries|] eqn:Hread.
      * right. split; [reflexivity|]. split; [exact Hlt|]. exists entries.
        split; [reflexivity|].
        rewrite (scanDirectoryStructure_expand host fs _ _ _ stats entries) in Hscan
          by assumption.
        congruence.
      * left. split; [reflexivity|]. split; [now right|].
        unfold scanDirectoryStructure in Hscan. cbn [scan] in Hscan.
        rewrite Hstat, Hfile, Hread in Hscan.
        destruct (currentDepth >=? maxDepth)%Z; congruence.
    + left. split; [reflexivity|]. split; [now left|].
      unfold scanDirectoryStructure in Hscan. cbn [scan] in Hscan.
      rewrite Hstat, Hfile in Hscan. revert Hscan. depth_test true. congruence.
Qed.

Lemma kept_children_elem (child : jsstring → outcome DirectoryNode.t)
    (entries : list jsstring) (c : DirectoryNode.t) :
  c ∈ kept_children child entries →
  ∃ entry, entry ∈ entries ∧ skipped entry = false ∧ child entry = Ok c.
Proof.
  unfold kept_children. rewrite list_elem_of_omap. intros (entry & Hin & Hentry).
  exists entry. destruct (skipped entry); [discriminate|].
  destruct (child entry); [|discriminate..]. injection Hentry as ->. auto.
Qed.

Lemma height_children (name path : jsstring) (type : NodeType)
    (children : list DirectoryNode.t) (k : nat) :
  Forall (fun c => height c ≤ k)%nat children →
  (height (Node name type children path) ≤ S k)%nat.
Proof.
  cbn [height]. induction 1 as [|c cs Hc _ IH]; cbn [fold_right]; lia.
Qed.

Lemma Forall_flat_map {A B} (P : B → Prop) (f : A → list B) (l : list A) :
  Forall (fun a => Forall P (f a)) l → Forall P (flat_map f l).
Proof.
  induction 1 as [|a l Ha _ IH]; cbn [flat_map]; [constructor|].
  apply Forall_app. auto.
Qed.

(** What a scan returns, node by node. *)
Lemma scan_tree_invariant (n : nat) :
  ∀ rootPath maxDepth currentDepth t,
    Z.to_nat (maxDepth - currentDepth) = n →
    scanDirectoryStructure host fs rootPath maxDepth currentDepth = Ok t →
    DirectoryNode.path t = rootPath
    ∧ (height t ≤ n)%nat
    ∧ Forall (fun x => agrees_with_stat host fs x
                       ∧ (DirectoryNode.type x = file → DirectoryNode.children x = [])
                       ∧ children_listed host fs x)
             (all_nodes t).
Proof.
  induction n as [|n IH]; intros rootPath maxDepth currentDepth t Hn Hscan;
    apply scan_cases in Hscan
      as (stats & Hstat & [(Hfile & ->) | [(Hfile & _ & ->) | (Hfile & Hlt & entries & Hread & ->)]]);
    try lia.
  1,2,3,4:
    (split; [reflexivity|]; split; [cbn; lia|];
     cbn [all_nodes flat_map]; constructor; [|constructor];
     split; [split; [reflexivity|]; exists stats; split; [exact Hstat|];
             cbn [DirectoryNode.type]; rewrite Hfile; split; congruence|];
     split; [reflexivity | constructor]).
  set (child := fun entry => scanDirectoryStructure host fs (join host rootPath entry)
                               maxDepth (currentDepth + 1)).
  assert (Hkids : Forall (fun c =>
            ∃ entry, entry ∈ entries ∧ skipped entry = false
                     ∧ DirectoryNode.path c = join host rootPath entry
                     ∧ (height c ≤ n)%nat
                     ∧ Forall (fun x => agrees_with_stat host fs x
                                 ∧ (DirectoryNode.type x = file → DirectoryNode.children x = [])
                                 ∧ children_listed host fs x) (all_nodes c))
            (kept_children child entries)).
  { apply List.Forall_forall. intros c Hc. apply list_elem_of_In in Hc.
    apply kept_children_elem in Hc as (entry & Hin & Hskip & Hc).
    apply IH in Hc as (Hp & Hh & Hall); [|lia]. exists entry. auto. }
  split; [reflexivity|]. split.
  - apply height_children. eapply Forall_impl; [exact Hkids|].
    intros c (_ & _ & _ & _ & Hh & _). exact Hh.
  - cbn [all_nodes]. constructor.
    + split; [split; [reflexivity|]; exists stats; split; [exact Hstat|];
              cbn [DirectoryNode.type]; rewrite Hfile; split; congruence|].
      split; [discriminate|]. unfold children_listed.
      cbn [DirectoryNode.children DirectoryNode.path].
      eapply Forall_impl; [exact Hkids|].
      intros c (entry & Hin & Hskip & Hp & _). exists entries, entry. auto.
    + apply Forall_flat_map. eapply Forall_impl; [exact Hkids|].
      intros c (_ & _ & _ & _ & _ & Hall). exact Hall.
Qed.

(** X1. A scan that returns gives a node whose [path] is the path that was
    scanned, whose [name] is its base name, and whose [type] is [file]
    exactly when [statSync] reports a file. *)
Theorem scan_root_identity (rootPath : jsstring) (maxDepth currentDepth : Z)
    (t : DirectoryNode.t) :
  scanDirectoryStructure host fs rootPath maxDepth currentDepth = Ok t →
  DirectoryNode.path t = rootPath
  ∧ DirectoryNode.name t = basename host rootPath
  ∧ ∃ stats, statSync fs rootPath = Some stats
             ∧ (DirectoryNode.type t = file ↔ Stats.isFile stats = true)
             ∧ (DirectoryNode.type t = directory ↔ Stats.isFile stats = false).
Proof.
  intros Hscan.
  destruct (scan_tree_invariant _ _ _ _ _ eq_refl Hscan) as (Hp & _ & Hall).
  cbn [all_nodes] in Hall. destruct t as [name type children path].
  apply Forall_cons in Hall as [((Hname & stats & Hstat & Htype) & _) _].
  cbn [DirectoryNode.path DirectoryNode.name DirectoryNode.type] in *. subst path.
  split; [reflexivity|]. split; [exact Hname|]. exists stats.
  split; [exact Hstat|]. split; [exact Htype|].
  destruct type, (Stats.isFile stats); intuition congruence.
Qed.

(** X2. In a tree returned by the scanner, at every level, a node of type
    [file] has no children. *)
Theorem scan_files_are_leaves (rootPath : jsstring) (maxDepth currentDepth : Z)
    (t : DirectoryNode.t) :
  scanDirectoryStructure host fs rootPath maxDepth currentDepth = Ok t →
  Forall (fun x => DirectoryNode.type x = file → DirectoryNode.children x = [])
         (all_nodes t).
Proof.
  intros Hscan.
  destruct (scan_tree_invariant _ _ _ _ _ eq_refl Hscan) as (_ & _ & Hall).
  eapply Forall_impl; [exact Hall|]. intros x (_ & Hleaf & _). exact Hleaf.
Qed.

(** X3. A tree returned by the scanner has at most [maxDepth - currentDepth]
    levels below its root, and none when that difference is not positive. *)
Theorem scan_height_bound (rootPath : jsstring) (maxDepth currentDepth : Z)
    (t : DirectoryNode.t) :
  scanDirectoryStructure host fs rootPath maxDepth currentDepth = Ok t →
  (height t ≤ Z.to_nat (maxDepth - currentDepth))%nat
  ∧ ((maxDepth ≤ currentDepth)%Z → DirectoryNode.children t = []).
Proof.
  intros Hscan.
  destruct (scan_tree_invariant _ _ _ _ _ eq_refl Hscan) as (_ & Hh & _).
  split; [exact Hh|]. intros Hle.
  apply scan_cases in Hscan
    as (stats & _ & [(_ & ->) | [(_ & _ & ->) | (_ & Hlt & _)]]);
    [reflexivity | reflexivity | lia].
Qed.

(** X4. Every node of a returned tree, at every level, carries the base
    name of its path and the type that [statSync] reports for that path. *)
Theorem scan_nodes_agree_with_stat (rootPath : jsstring) (maxDepth currentDepth : Z)
    (t : DirectoryNode.t) :
  scanDirectoryStructure host fs rootPath maxDepth currentDepth = Ok t →
  Forall (agrees_with_stat host fs) (all_nodes t).
Proof.
  intros Hscan.
  destruct (scan_tree_invariant _ _ _ _ _ eq_refl Hscan) as (_ & _ & Hall).
  eapply Forall_impl; [exact Hall|]. intros x (Hx & _). exact Hx.
Qed.

(** X5. At every level of a returned tree, each child stands for an entry
    of its parent's listing that is not skipped, and its path is the
    parent's path joined with that entry: no node stems from a dot entry
    other than [.gitignore], from [node_modules] or from [dist]. *)
Theorem scan_children_listed (rootPath : jsstring) (maxDepth currentDepth : Z)
    (t : DirectoryNode.t) :
  scanDirectoryStructure host fs rootPath maxDepth currentDepth = Ok t →
  Forall (children_listed host fs) (all_nodes t).
Proof.
  intros Hscan.
  destruct (scan_tree_invariant _ _ _ _ _ eq_refl Hscan) as (_ & _ & Hall).
  eapply Forall_impl; [exact Hall|]. intros x (_ & _ & Hx). exact Hx.
Qed.

(** X6. The scan raises exactly when [statSync] raises on the scanned
    path. A directory that can be inspected but not listed is returned as
    a directory node without children. *)
Theorem scan_failure_modes (rootPath : jsstring) (maxDepth currentDepth : Z) :
  (scanDirectoryStructure host fs rootPath maxDepth currentDepth = Throw
   ↔ statSync fs rootPath = None)
  ∧ (∀ stats, statSync fs rootPath = Some stats → Stats.isFile stats = false →
       readdirSync fs rootPath = None →
       scanDirectoryStructure host fs rootPath maxDepth currentDepth
       = Ok (Node (basename host rootPath) directory [] rootPath)).
Proof.
  split; [apply scanDirectoryStructure_throws|].
  intros stats Hstat Hfile Hread.
  unfold scanDirectoryStructure. cbn [scan]. rewrite Hstat, Hfile, Hread.
  now destruct (currentDepth >=? maxDepth)%Z.
Qed.

End ScannedTrees.

Lemma scan_p_tree :
  FileSystemAnalyzer.scanDirectoryStructure Sample.host Sample.fs (lit "/p") 3 0
  = Ok Sample.p_tree.
Proof. vm_compute. reflexivity. Qed.

Lemma scan_root_identity_witness :
  DirectoryNode.path Sample.p_tree = lit "/p"
  ∧ DirectoryNode.name Sample.p_tree = lit "p".
Proof.
  destruct (scan_root_identity Sample.host Sample.fs (lit "/p") 3 0 Sample.p_tree
              scan_p_tree) as (Hpath & Hname & _).
  split; [exact Hpath | exact Hname].
Defined.

Lemma scan_files_are_leaves_witness :
  Forall (fun x => DirectoryNode.type x = file → DirectoryNode.children x = [])
         (Spec.all_nodes Sample.p_tree).
Proof.
  exact (scan_files_are_leaves Sample.host Sample.fs (lit "/p") 3 0 Sample.p_tree
           scan_p_tree).
Defined.

Lemma scan_height_bound_witness : (Spec.height Sample.p_tree ≤ 3)%nat.
Proof.
  exact (proj1 (scan_height_bound Sample.host Sample.fs (lit "/p") 3 0 Sample.p_tree
                  scan_p_tree)).
Defined.

Lemma scan_nodes_agree_with_stat_witness :
  Forall (Spec.agrees_with_stat Sample.host Sample.fs) (Spec.all_nodes Sample.p_tree).
Proof.
  exact (scan_nodes_agree_with_stat Sample.host Sample.fs (lit "/p") 3 0 Sample.p_tree
           scan_p_tree).
Defined.

Lemma scan_children_listed_witness :
  Forall (Spec.children_listed Sample.host Sample.fs) (Spec.all_nodes Sample.p_tree).
Proof.
  exact (scan_children_listed Sample.host Sample.fs (lit "/p") 3 0 Sample.p_tree
           scan_p_tree).
Defined.

Lemma scan_failure_modes_witness :
  FileSystemAnalyzer.scanDirectoryStructure Sample.host Sample.locked_fs
    (lit "/r/locked") 3 1
  = Ok (Node (lit "locked") directory [] (lit "/r/locked")).
Proof.
  apply (proj2 (scan_failure_modes Sample.host Sample.locked_fs (lit "/r/locked") 3 1)
           Sample.a_directory); reflexivity.
Defined.

(** ** Walks over a tree *)

Section Walks.
Import FileSystemAnalyzer Spec.
Context (host : Host).

Lemma nodes_with_depth_shift (node : DirectoryNode.t) :
  ∀ d d', map snd (nodes_with_depth node d) = map snd (nodes_with_depth node d').
Proof.
  induction node as [name type children path IH] using DirectoryNode_ind'.
  intros d d'. cbn [nodes_with_depth map]. f_equal.
  case_bool_decide; [|reflexivity].
  induction IH as [|c cs Hc _ IHcs]; [reflexivity|].
  cbn [flat_map]. rewrite !map_app. f_equal; [apply Hc | exact IHcs].
Qed.

Lemma reachable_unfold (name path : jsstring) (type : NodeType)
    (children : list DirectoryNode.t) :
  reachable (Node name type children path)
  = Node name type children path
    :: (if bool_decide (type = directory) then flat_map reachable children else []).
Proof.
  unfold reachable. cbn [nodes_with_depth map]. f_equal.
  case_bool_decide; [|reflexivity].
  induction children as [|c cs IH]; [reflexivity|].
  cbn [flat_map]. rewrite map_app, IH. f_equal. apply nodes_with_depth_shift.
Qed.

Lemma collect_loop (children : list DirectoryNode.t) (files : list jsstring) :
  fold_left (fun files child => files ++ collectFiles child) children files
  = files ++ flat_map collectFiles children.
Proof.
  revert files. induction children as [|c cs IH]; intros files; cbn [fold_left flat_map].
  - now rewrite app_nil_r.
  - rewrite IH. now rewrite app_assoc.
Qed.

Lemma map_filter_flat_map {A B} (g : B → jsstring) (p : B → bool) (f : A → list B)
    (l : list A) :
  map g (List.filter p (flat_map f l))
  = flat_map (fun a => map g (List.filter p (f a))) l.
Proof.
  induction l as [|a l IH]; [reflexivity|].
  cbn [flat_map]. now rewrite List.filter_app, map_app, IH.
Qed.

(** [collectFiles] lists the files a walk through directories meets. *)
Lemma collectFiles_reachable (node : DirectoryNode.t) :
  collectFiles node
  = map DirectoryNode.path
        (List.filter (fun n => bool_decide (DirectoryNode.type n = file))
                     (reachable node)).
Proof.
  induction node as [name type children path IH] using DirectoryNode_ind'.
  rewrite reachable_unfold. cbn [collectFiles List.filter DirectoryNode.type].
  destruct type.
  - rewrite !bool_decide_true by reflexivity.
    rewrite bool_decide_false by discriminate. reflexivity.
  - rewrite !bool_decide_false by discriminate.
    rewrite bool_decide_true by reflexivity.
    rewrite collect_loop, map_filter_flat_map. cbn [app].
    induction IH as [|c cs Hc _ IHcs]; [reflexivity|].
    cbn [flat_map]. now rewrite Hc, IHcs.
Qed.

Lemma classify_loop (children : list DirectoryNode.t) (result : Classification.t)
    (S T C : DirectoryNode.t → list jsstring) :
  Forall (fun c => ∀ r, classify host c r
                        = Classification.Build (Classification.source r ++ S c)
                                               (Classification.test r ++ T c)
                                               (Classification.config r ++ C c))
         children →
  fold_left (fun result child => classify host child result) children result
  = Classification.Build (Classification.source result ++ flat_map S children)
                         (Classification.test result ++ flat_map T children)
                         (Classification.config result ++ flat_map C children).
Proof.
  intros Hall. revert result.
  induction Hall as [|c cs Hc _ IH]; intros result; cbn [fold_left flat_map].
  - destruct result. cbn. now rewrite !app_nil_r.
  - rewrite IH, Hc. cbn. now rewrite !app_assoc.
Qed.

Lemma patterns_disjoint (k : jsstring) :
  (k ∈ sourcePatterns → (k ∉ testPatterns) ∧ (k ∉ configPatterns))
  ∧ (k ∈ testPatterns → k ∉ configPatterns).
Proof.
  unfold sourcePatterns, testPatterns, configPatterns.
  split; intros Hk;
    repeat (apply elem_of_cons in Hk as [->|Hk];
            [repeat split; intros H;
             repeat (apply elem_of_cons in H as [H|H]; [discriminate H|]);
             now apply elem_of_nil in H|]);
    now apply elem_of_nil in Hk.
Qed.

Lemma named_in_head (patterns : list jsstring) (name path : jsstring)
    (type : NodeType) (children : list DirectoryNode.t) :
  named_in host patterns (Node name type children path)
  = bool_decide (type = directory) && bool_decide (toLowerCase host name ∈ patterns).
Proof. reflexivity. Qed.

Ltac classify_finish IH :=
  cbn [map DirectoryNode.path];
  rewrite (classify_loop _ _ _ _ _ IH), !map_filter_flat_map;
  cbn [Classification.source Classification.test Classification.config];
  rewrite <- ?app_assoc; reflexivity.

Lemma classify_walk (node : DirectoryNode.t) :
  ∀ r, classify host node r
       = Classification.Build
           (Classification.source r
            ++ map DirectoryNode.path
                   (List.filter (named_in host sourcePatterns) (reachable node)))
           (Classification.test r
            ++ map DirectoryNode.path
                   (List.filter (named_in host testPatterns) (reachable node)))
           (Classification.config r
            ++ map DirectoryNode.path
                   (List.filter (named_in host configPatterns) (reachable node))).
Proof.
  induction node as [name type children path IH] using DirectoryNode_ind'.
  intros r. rewrite reachable_unfold. cbn [classify List.filter].
  rewrite !named_in_head.
  destruct type.
  - rewrite !bool_decide_false by discriminate. cbn [andb app map List.filter].
    destruct r. cbn. now rewrite !app_nil_r.
  - rewrite !(bool_decide_true (directory = directory)) by reflexivity. cbn [andb].
    pose proof (patterns_disjoint (toLowerCase host name)) as [Hs Ht].
    destruct (decide (toLowerCase host name ∈ sourcePatterns)) as [Hin|Hout].
    + destruct (Hs Hin) as [Hnt Hnc].
      rewrite !(bool_decide_true _ Hin), !(bool_decide_false _ Hnt),
        !(bool_decide_false _ Hnc).
      classify_finish IH.
    + rewrite !(bool_decide_false _ Hout).
      destruct (decide (toLowerCase host name ∈ testPatterns)) as [Hin|Hout'].
      * rewrite !(bool_decide_true _ Hin), !(bool_decide_false _ (Ht Hin)).
        classify_finish IH.
      * rewrite !(bool_decide_false _ Hout').
        destruct (decide (toLowerCase host name ∈ configPatterns)) as [Hin|Hout''].
        -- rewrite !(bool_decide_true _ Hin).
           classify_finish IH.
        -- rewrite !(bool_decide_false _ Hout'').
           classify_finish IH.
Qed.

(** X7. Each bucket of [classifyDirectories] holds, in pre-order, the paths
    of the directories met by a walk through directories whose lower-cased
    name is in the bucket's list. The three lists share no name, so a
    directory enters at most one bucket; files enter none. *)
Theorem classifyDirectories_walk (node : DirectoryNode.t) :
  Classification.source (classifyDirectories host node)
  = map DirectoryNode.path (List.filter (named_in host sourcePatterns) (reachable node))
  ∧ Classification.test (classifyDirectories host node)
    = map DirectoryNode.path (List.filter (named_in host testPatterns) (reachable node))
  ∧ Classification.config (classifyDirectories host node)
    = map DirectoryNode.path (List.filter (named_in host configPatterns) (reachable node))
  ∧ ∀ n, ((if named_in host sourcePatterns n then 1 else 0)
          + (if named_in host testPatterns n then 1 else 0)
          + (if named_in host configPatterns n then 1 else 0) ≤ 1)%nat.
Proof.
  unfold classifyDirectories. rewrite classify_walk. cbn.
  repeat (split; [reflexivity|]).
  intros n. unfold named_in.
  pose proof (patterns_disjoint (toLowerCase host (DirectoryNode.name n))) as [Hs Ht].
  destruct (bool_decide (DirectoryNode.type n = directory)); cbn [andb]; [|cbn; lia].
  repeat case_bool_decide; cbn; try lia; exfalso; tauto.
Qed.

Lemma Forall_flat_map_inv {A B} (P : B → Prop) (f : A → list B) (l : list A) :
  Forall P (flat_map f l) → Forall (fun a => Forall P (f a)) l.
Proof.
  induction l as [|a l IH]; cbn [flat_map]; [constructor|].
  intros H. apply Forall_app in H as [Ha Hl]. constructor; auto.
Qed.

(** When files are leaves, a walk through directories meets every node. *)
Lemma reachable_all_nodes (node : DirectoryNode.t) :
  Forall (fun x => DirectoryNode.type x = file → DirectoryNode.children x = [])
         (all_nodes node) →
  reachable node = all_nodes node.
Proof.
  induction node as [name type children path IH] using DirectoryNode_ind'.
  rewrite reachable_unfold. cbn [all_nodes]. intros Hall.
  apply Forall_cons in Hall as [Hroot Hrest]. f_equal.
  destruct type.
  - rewrite bool_decide_false by discriminate.
    cbn in Hroot. now rewrite (Hroot eq_refl).
  - rewrite bool_decide_true by reflexivity.
    apply Forall_flat_map_inv in Hrest. clear Hroot.
    induction IH as [|c cs Hc _ IHcs]; [reflexivity|].
    apply Forall_cons in Hrest as [Hc' Hcs']. cbn [flat_map].
    now rewrite (Hc Hc'), (IHcs Hcs').
Qed.

End Walks.

Section ScannedFiles.
Import FileSystemAnalyzer Spec.
Context (host : Host) (fs : FileSystem).

(** X8. On a tree returned by the scanner, [collectFiles] returns the path
    of every node of type [file] of the tree, in pre-order, and each of
    these paths is one that [statSync] reports as a file. *)
Theorem collectFiles_scanned (rootPath : jsstring) (maxDepth currentDepth : Z)
    (t : DirectoryNode.t) :
  scanDirectoryStructure host fs rootPath maxDepth currentDepth = Ok t →
  collectFiles t
  = map DirectoryNode.path
        (List.filter (fun n => bool_decide (DirectoryNode.type n = file)) (all_nodes t))
  ∧ Forall (fun p => ∃ stats, statSync fs p = Some stats ∧ Stats.isFile stats = true)
           (collectFiles t).
Proof.
  intros Hscan.
  destruct (scan_tree_invariant host fs _ _ _ _ _ eq_refl Hscan) as (_ & _ & Hall).
  assert (Hwalk : collectFiles t
                  = map DirectoryNode.path
                      (List.filter (fun n => bool_decide (DirectoryNode.type n = file))
                                   (all_nodes t))).
  { rewrite collectFiles_reachable, reachable_all_nodes; [reflexivity|].
    eapply Forall_impl; [exact Hall|]. intros x (_ & Hleaf & _). exact Hleaf. }
  split; [exact Hwalk|]. rewrite Hwalk.
  apply List.Forall_forall. intros p Hp.
  apply in_map_iff in Hp as (x & <- & Hx).
  apply List.filter_In in Hx as [Hx Hfile]. apply bool_decide_eq_true in Hfile.
  rewrite List.Forall_forall in Hall.
  destruct (Hall x Hx) as ((_ & stats & Hstat & Htype) & _).
  exists stats. split; [exact Hstat | now apply Htype].
Qed.

End ScannedFiles.

Lemma collectFiles_scanned_witness :
  FileSystemAnalyzer.collectFiles Sample.p_tree
  = [lit "/p/.gitignore"; lit "/p/requirements.txt"; lit "/p/src/a.ts";
     lit "/p/src/b.ts"; lit "/p/src/c.py"].
Proof.
  rewrite (proj1 (collectFiles_scanned Sample.host Sample.fs (lit "/p") 3 0
                    Sample.p_tree scan_p_tree)).
  vm_compute. reflexivity.
Defined.

(** ** Manifest probes *)

Section ProbeFacts.
Import FileSystemAnalyzer Spec.
Context (host : Host) (fs : FileSystem).

Lemma Object_keys_or_else (v : value) :
  ∃ keys, Object_keys (or_else v (VObj [])) = Some keys.
Proof.
  unfold or_else. destruct v as [| |b|x|s|items|props]; cbn [truthy]; eauto.
  - destruct b; cbn; eauto.
  - destruct x; cbn; eauto.
  - destruct (negb _); cbn; eauto.
Qed.

(** What the npm probe stores for a [package.json] that parses to an
    object. *)
Lemma readPackageJson_object (rootPath p raw : jsstring)
    (props : list (jsstring * value)) :
  readFileSync fs p = Some raw → JSON_parse host raw = Some (VObj props) →
  readPackageJson host fs rootPath p
  = Some (DependencyManifest.Build npm p
            (or_else (default VUndefined (assoc (lit "name") props))
                     (VStr (basename host rootPath)))
            (or_else (default VUndefined (assoc (lit "description") props)) (VStr []))
            (default []
               (Object_keys (or_else (default VUndefined (assoc (lit "dependencies") props))
                                     (VObj []))))).
Proof.
  intros Hread Hparse. unfold readPackageJson. rewrite Hread.
  cbn [mbind option_bind]. rewrite Hparse. cbn [mbind option_bind get].
  destruct (Object_keys_or_else (default VUndefined (assoc (lit "dependencies") props)))
    as [keys Hkeys].
  rewrite Hkeys. reflexivity.
Qed.

Lemma readPackageJson_fails (rootPath p : jsstring) :
  readFileSync fs p = None
  ∨ (∃ raw, readFileSync fs p = Some raw
            ∧ (JSON_parse host raw = None ∨ JSON_parse host raw = Some VNull)) →
  readPackageJson host fs rootPath p = None.
Proof.
  unfold readPackageJson. intros [Hread | (raw & Hread & [Hparse | Hparse])];
    rewrite Hread; cbn [mbind option_bind]; [reflexivity | |];
    rewrite Hparse; reflexivity.
Qed.

Lemma found_type (p : jsstring) (read : jsstring → option DependencyManifest.t)
    (ty : ManifestType) :
  (∀ m, read p = Some m → DependencyManifest.type m = ty) →
  map DependencyManifest.type (option_list (found fs p read)) = [ty]
  ∨ found fs p read = None.
Proof.
  intros Hty. destruct (found fs p read) as [m|] eqn:Hm; [left | now right].
  apply found_some in Hm. cbn. now rewrite (Hty m Hm).
Qed.

(** X9. The manifests are returned in the order npm, pip, cargo, with at
    most one record of each kind: there are never more than three, and
    none has the type [other]. *)
Theorem findDependencyManifests_shape (rootPath : jsstring) :
  map DependencyManifest.type (findDependencyManifests host fs rootPath)
    `sublist_of` [npm; pip; cargo]
  ∧ (length (findDependencyManifests host fs rootPath) ≤ 3)%nat
  ∧ Forall (fun m => DependencyManifest.type m ≠ other)
           (findDependencyManifests host fs rootPath).
Proof.
  assert (Hsub : map DependencyManifest.type (findDependencyManifests host fs rootPath)
                   `sublist_of` [npm; pip; cargo]).
  { rewrite findDependencyManifests_parts, !map_app.
    destruct (found_type (join host rootPath (lit "package.json"))
                (readPackageJson host fs rootPath) npm
                ltac:(intros m Hm; now apply readPackageJson_type in Hm)) as [-> | ->];
    destruct (found_type (join host rootPath (lit "requirements.txt"))
                (readRequirements host fs rootPath) pip
                ltac:(intros m Hm; now apply readRequirements_type in Hm)) as [-> | ->];
    destruct (found_type (join host rootPath (lit "Cargo.toml"))
                (readCargo host fs rootPath) cargo
                ltac:(intros m Hm; now apply readCargo_type in Hm)) as [-> | ->];
    cbn;
    repeat first [apply sublist_nil | apply sublist_skip | apply sublist_cons]. }
  split; [exact Hsub|]. split.
  - apply sublist_length in Hsub. now rewrite length_map in Hsub.
  - apply List.Forall_forall. intros m Hm Hother.
    assert (Hin : other ∈ [npm; pip; cargo]).
    { eapply elem_of_sublist; [|exact Hsub]. rewrite <- Hother.
      apply list_elem_of_In, in_map, Hm. }
    repeat (apply elem_of_cons in Hin as [Hin|Hin]; [discriminate|]).
    now apply elem_of_nil in Hin.
Qed.

(** X10. A [package.json] that is absent, cannot be read, does not parse,
    or holds the JSON value [null] leaves no npm record: the result is what
    the pip and cargo probes find. *)
Theorem npm_manifest_omitted (rootPath : jsstring) :
  let packageJsonPath := join host rootPath (lit "package.json") in
  existsSync fs packageJsonPath = false
  ∨ readFileSync fs packageJsonPath = None
  ∨ (∃ raw, readFileSync fs packageJsonPath = Some raw
            ∧ (JSON_parse host raw = None ∨ JSON_parse host raw = Some VNull)) →
  findDependencyManifests host fs rootPath
  = option_list (found fs (join host rootPath (lit "requirements.txt"))
                          (readRequirements host fs rootPath))
    ++ option_list (found fs (join host rootPath (lit "Cargo.toml"))
                             (readCargo host fs rootPath))
  ∧ Forall (fun m => DependencyManifest.type m ≠ npm)
           (findDependencyManifests host fs rootPath).
Proof.
  cbv zeta. intros Hbad.
  assert (Hnone : found fs (join host rootPath (lit "package.json"))
                    (readPackageJson host fs rootPath) = None).
  { unfold found. destruct Hbad as [-> | Hbad]; [reflexivity|].
    rewrite readPackageJson_fails by exact Hbad. now destruct (existsSync fs _). }
  rewrite findDependencyManifests_parts, Hnone.
  change (option_list (@None DependencyManifest.t)) with (@nil DependencyManifest.t).
  cbn [app]. split; [reflexivity|]. apply Forall_app. split.
  - destruct (found fs _ (readRequirements host fs rootPath)) as [m|] eqn:Hm;
      constructor; [|constructor].
    apply found_some, readRequirements_type in Hm as [-> _]. discriminate.
  - destruct (found fs _ (readCargo host fs rootPath)) as [m|] eqn:Hm;
      constructor; [|constructor].
    apply found_some, readCargo_type in Hm as [-> _]. discriminate.
Qed.

(** X11. A [package.json] that parses to an object gives the first record
    of the result: an npm record whose [projectName] is the declared [name]
    when that is a non-empty string and the directory base name when no
    name is declared, whose [description] is the declared one or the empty
    string, and whose [dependencies] are the keys of the declared
    dependency object, none when there is no such object. *)
Theorem npm_manifest_fields (rootPath raw : jsstring) (props : list (jsstring * value)) :
  let packageJsonPath := join host rootPath (lit "package.json") in
  existsSync fs packageJsonPath = true →
  readFileSync fs packageJsonPath = Some raw →
  JSON_parse host raw = Some (VObj props) →
  ∃ m rest,
    findDependencyManifests host fs rootPath = m :: rest
    ∧ DependencyManifest.type m = npm
    ∧ DependencyManifest.filePath m = packageJsonPath
    ∧ (∀ name, assoc (lit "name") props = Some (VStr name) → name ≠ [] →
         DependencyManifest.projectName m = VStr name)
    ∧ (assoc (lit "name") props = None ∨ assoc (lit "name") props = Some (VStr []) →
         DependencyManifest.projectName m = VStr (basename host rootPath))
    ∧ (∀ text, assoc (lit "description") props = Some (VStr text) →
         DependencyManifest.description m = VStr text)
    ∧ (assoc (lit "description") props = None →
         DependencyManifest.description m = VStr [])
    ∧ (∀ deps, assoc (lit "dependencies") props = Some (VObj deps) →
         DependencyManifest.dependencies m = map fst deps)
    ∧ (assoc (lit "dependencies") props = None →
         DependencyManifest.dependencies m = []).
Proof.
  cbv zeta. intros Hexists Hread Hparse.
  pose proof (readPackageJson_object rootPath _ _ _ Hread Hparse) as Hrecord.
  assert (Hfound : found fs (join host rootPath (lit "package.json"))
                     (readPackageJson host fs rootPath) = Some _)
    by (unfold found; rewrite Hexists; exact Hrecord).
  eexists _, _. rewrite findDependencyManifests_parts, Hfound.
  change (option_list (Some ?x)) with [x]. cbn [app].
  split; [reflexivity|].
  cbn [DependencyManifest.type DependencyManifest.filePath DependencyManifest.projectName
       DependencyManifest.description DependencyManifest.dependencies].
  split; [reflexivity|]. split; [reflexivity|].
  split; [intros name -> Hne; cbn [from_option id]; apply or_else_truthy_l;
          cbn [truthy]; now rewrite bool_decide_false|].
  split; [intros [-> | ->]; reflexivity|].
  split; [intros text ->; cbn [from_option id]; apply or_else_text|].
  split; [intros ->; reflexivity|].
  split; [intros deps ->; reflexivity | intros ->; reflexivity].
Qed.

Lemma startsWith_split (p s : jsstring) :
  startsWith p s = true ↔ s = p ++ drop (length p) s.
Proof.
  revert s. induction p as [|a p IH]; intros s; cbn [startsWith length drop app].
  - rewrite drop_0. tauto.
  - destruct s as [|b s]; [split; discriminate|].
    rewrite andb_true_iff, N.eqb_eq, IH. cbn [drop]. split.
    + intros [-> H]. now rewrite <- H.
    + intros [= -> H]. auto.
Qed.

Lemma unquoted_split (s : jsstring) :
  s = (unquoted s).1 ++ (unquoted s).2
  ∧ (quote ∉ (unquoted s).1)
  ∧ ((unquoted s).2 = [] ∨ ∃ rest, (unquoted s).2 = quote :: rest).
Proof.
  induction s as [|c s (Hs & Hq & Hrest)]; cbn [unquoted].
  - split; [reflexivity|]. split; [apply not_elem_of_nil | now left].
  - destruct (N.eqb_spec c quote) as [->|Hc]; cbn [fst snd app].
    + split; [reflexivity|]. split; [apply not_elem_of_nil | right; eauto].
    + destruct (unquoted s) as [run rest]. cbn [fst snd app] in *.
      split; [now rewrite <- Hs|]. split; [|exact Hrest].
      rewrite not_elem_of_cons. auto.
Qed.

Lemma unquoted_run (run rest : jsstring) :
  quote ∉ run → unquoted (run ++ quote :: rest) = (run, quote :: rest).
Proof.
  induction run as [|c run IH]; intros Hq; cbn [app unquoted].
  - now rewrite N.eqb_refl.
  - rewrite not_elem_of_cons in Hq. destruct Hq as [Hc Hq].
    destruct (N.eqb_spec c quote) as [->|_]; [congruence|]. now rewrite IH.
Qed.

Lemma trimStart_white (white rest : jsstring) (c : N) :
  forallb is_white white = true → is_white c = false →
  trimStart (white ++ c :: rest) = c :: rest.
Proof.
  induction white as [|a white IH]; cbn [forallb app trimStart]; intros Hw Hc.
  - now rewrite Hc.
  - apply andb_true_iff in Hw as [-> Hw]. auto.
Qed.

(** What a match at the start of [s] consumes. *)
Lemma match_here_sound (key s group : jsstring) :
  match_here key s = Some group →
  group ≠ [] ∧ (quote ∉ group)
  ∧ ∃ white1 white2 rest,
      s = key ++ white1 ++ 61 :: white2 ++ quote :: group ++ quote :: rest
      ∧ forallb is_white white1 = true ∧ forallb is_white white2 = true.
Proof.
  unfold match_here. destruct (startsWith key s) eqn:Hkey; [|discriminate].
  apply startsWith_split in Hkey.
  destruct (trimStart_split (drop (length key) s)) as (white1 & H1 & Hw1).
  destruct (trimStart (drop (length key) s)) as [|c s1]; [discriminate|].
  destruct (N.eqb_spec c 61) as [->|_]; [|discriminate].
  destruct (trimStart_split s1) as (white2 & H2 & Hw2).
  destruct (trimStart s1) as [|c2 s2]; [discriminate|].
  destruct (N.eqb_spec c2 quote) as [->|_]; [|discriminate].
  pose proof (unquoted_split s2) as (Hs2 & Hq & _).
  destruct (unquoted s2) as [[|a run] [|b rest]]; try discriminate.
  destruct (N.eqb_spec b quote) as [->|_]; [|discriminate].
  intros [= <-]. cbn [fst snd] in *. split; [discriminate|]. split; [exact Hq|].
  exists white1, white2, rest. split; [|auto].
  rewrite Hkey at 1. rewrite H1, H2, Hs2. reflexivity.
Qed.

Lemma match_here_complete (key white1 white2 group rest : jsstring) :
  forallb is_white white1 = true → forallb is_white white2 = true →
  group ≠ [] → quote ∉ group →
  match_here key (key ++ white1 ++ 61 :: white2 ++ quote :: group ++ quote :: rest)
  = Some group.
Proof.
  intros Hw1 Hw2 Hne Hq. unfold match_here.
  assert (Hstart : startsWith key (key ++ white1 ++ 61 :: white2 ++ quote :: group
                                   ++ quote :: rest) = true).
  { apply startsWith_split. now rewrite drop_app_length. }
  rewrite Hstart, drop_app_length.
  rewrite (trimStart_white white1 _ 61 Hw1 eq_refl). cbn [N.eqb Pos.eqb].
  rewrite (trimStart_white white2 _ quote Hw2 eq_refl). cbn [N.eqb Pos.eqb quote].
  change 34 with quote. rewrite (unquoted_run group rest Hq).
  destruct group as [|c run]; [congruence|]. now rewrite N.eqb_refl.
Qed.

Lemma match_assignment_skip (k0 : N) (key pre s : jsstring) :
  k0 ∉ pre → match_assignment (k0 :: key) (pre ++ s) = match_assignment (k0 :: key) s.
Proof.
  induction pre as [|c pre IH]; intros Hpre; [reflexivity|].
  rewrite not_elem_of_cons in Hpre. destruct Hpre as [Hc Hpre].
  cbn [app match_assignment]. unfold match_here at 1. cbn [startsWith].
  destruct (N.eqb_spec k0 c) as [->|_]; [congruence|]. cbn [andb]. exact (IH Hpre).
Qed.

Lemma readCargo_record (rootPath p content : jsstring) :
  readFileSync fs p = Some content →
  readCargo host fs rootPath p
  = Some (DependencyManifest.Build cargo p
            (match match_assignment (lit "name") content with
             | Some group => VStr group
             | None => VStr (basename host rootPath)
             end)
            (match match_assignment (lit "description") content with
             | Some group => VStr group
             | None => VStr []
             end)
            []).
Proof. intros Hread. unfold readCargo. now rewrite Hread. Qed.

(** X12. A capture of the patterns of the cargo probe is never empty and
    holds no double quote; in the content it stands between two double
    quotes, after the key, optional white space, an equals sign and
    optional white space. *)
Theorem match_assignment_sound (key s group : jsstring) :
  match_assignment key s = Some group →
  group ≠ [] ∧ (quote ∉ group)
  ∧ ∃ before white1 white2 rest,
      s = before ++ key ++ white1 ++ 61 :: white2 ++ quote :: group ++ quote :: rest
      ∧ forallb is_white white1 = true ∧ forallb is_white white2 = true.
Proof.
  induction s as [|c s IH]; cbn [match_assignment].
  - destruct (match_here key []) as [g|] eqn:Hm; [|discriminate]. intros [= <-].
    apply match_here_sound in Hm as (Hne & Hq & w1 & w2 & rest & Hs & Hw).
    split; [exact Hne|]. split; [exact Hq|]. exists [], w1, w2, rest. auto.
  - destruct (match_here key (c :: s)) as [g|] eqn:Hm.
    + intros [= <-].
      apply match_here_sound in Hm as (Hne & Hq & w1 & w2 & rest & Hs & Hw).
      split; [exact Hne|]. split; [exact Hq|]. exists [], w1, w2, rest. auto.
    + intros Hrec. apply IH in Hrec as (Hne & Hq & before & w1 & w2 & rest & Hs & Hw).
      split; [exact Hne|]. split; [exact Hq|].
      exists (c :: before), w1, w2, rest. cbn [app]. now rewrite <- Hs.
Qed.

(** X13. When [Cargo.toml] can be read, the last record of the result is a
    cargo record without dependencies. If the content has, after a prefix
    free of the letter [n], the text [name], optional white space, [=],
    optional white space and a non-empty quoted value, that value is the
    [projectName]; if the content has no [n] at all, the [projectName] is
    the directory base name. *)
Theorem cargo_manifest_name (rootPath content : jsstring) :
  let cargoPath := join host rootPath (lit "Cargo.toml") in
  existsSync fs cargoPath = true → readFileSync fs cargoPath = Some content →
  ∃ front m,
    findDependencyManifests host fs rootPath = front ++ [m]
    ∧ DependencyManifest.type m = cargo
    ∧ DependencyManifest.filePath m = cargoPath
    ∧ DependencyManifest.dependencies m = []
    ∧ (∀ before white1 white2 value rest,
         content = before ++ lit "name" ++ white1 ++ 61 :: white2
                   ++ quote :: value ++ quote :: rest →
         110 ∉ before → forallb is_white white1 = true →
         forallb is_white white2 = true → value ≠ [] → quote ∉ value →
         DependencyManifest.projectName m = VStr value)
    ∧ (110 ∉ content →
         DependencyManifest.projectName m = VStr (basename host rootPath)).
Proof.
  cbv zeta. intros Hexists Hread.
  pose proof (readCargo_record rootPath _ _ Hread) as Hcargo.
  assert (Hrecord : found fs (join host rootPath (lit "Cargo.toml"))
                      (readCargo host fs rootPath) = Some _)
    by (unfold found; rewrite Hexists; exact Hcargo).
  eexists _, _. rewrite findDependencyManifests_parts, Hrecord, app_assoc.
  change (option_list (Some ?x)) with [x].
  split; [reflexivity|].
  cbn [DependencyManifest.type DependencyManifest.filePath DependencyManifest.projectName
       DependencyManifest.dependencies].
  do 3 (split; [reflexivity|]). split.
  - intros before w1 w2 value rest -> Hn Hw1 Hw2 Hne Hq.
    change (lit "name") with (110 :: lit "ame").
    rewrite (match_assignment_skip 110 (lit "ame") before _ Hn).
    change (110 :: lit "ame") with (lit "name").
    assert (Hm : match_assignment (lit "name")
                   (lit "name" ++ w1 ++ 61 :: w2 ++ quote :: value ++ quote :: rest)
                 = Some value).
    { pose proof (match_here_complete (lit "name") w1 w2 value rest Hw1 Hw2 Hne Hq) as Hh.
      destruct (lit "name" ++ w1 ++ 61 :: w2 ++ quote :: value ++ quote :: rest);
        cbn [match_assignment]; now rewrite Hh. }
    now rewrite Hm.
  - intros Hn.
    assert (Hm : match_assignment (lit "name") content = None).
    { change (lit "name") with (110 :: lit "ame").
      rewrite <- (app_nil_r content), (match_assignment_skip 110 _ content [] Hn).
      reflexivity. }
    now rewrite Hm.
Qed.

End ProbeFacts.

Lemma npm_manifest_omitted_witness :
  Forall (fun m => DependencyManifest.type m ≠ npm)
         (FileSystemAnalyzer.findDependencyManifests Sample.host Sample.fs (lit "/p")).
Proof.
  apply (proj2 (npm_manifest_omitted Sample.host Sample.fs (lit "/p")
                  (or_introl eq_refl))).
Defined.

Lemma npm_manifest_fields_witness :
  ∃ m rest,
    FileSystemAnalyzer.findDependencyManifests Sample.host Sample.npm_fs (lit "/q")
    = m :: rest
    ∧ DependencyManifest.projectName m = VStr (lit "demo")
    ∧ DependencyManifest.dependencies m = [].
Proof.
  destruct (npm_manifest_fields Sample.host Sample.npm_fs (lit "/q") Sample.package_text
              [(lit "name", VStr (lit "demo"))] eq_refl eq_refl eq_refl)
    as (m & rest & Hlist & _ & _ & Hname & _ & _ & _ & _ & Hdeps).
  exists m, rest. split; [exact Hlist|]. split.
  - apply (Hname (lit "demo")); [reflexivity | discriminate].
  - apply Hdeps. reflexivity.
Defined.

Lemma match_assignment_sound_witness :
  lit "demo" ≠ [] ∧ (quote ∉ lit "demo").
Proof.
  destruct (match_assignment_sound (lit "name") Sample.cargo_text (lit "demo") eq_refl)
    as (Hne & Hq & _).
  split; [exact Hne | exact Hq].
Defined.

Lemma cargo_manifest_name_witness :
  ∃ front m,
    FileSystemAnalyzer.findDependencyManifests Sample.host Sample.cargo_fs (lit "/c")
    = front ++ [m]
    ∧ DependencyManifest.projectName m = VStr (lit "demo").
Proof.
  destruct (cargo_manifest_name Sample.host Sample.cargo_fs (lit "/c") Sample.cargo_text
              eq_refl eq_refl)
    as (front & m & Hlist & _ & _ & _ & Hname & _).
  exists front, m. split; [exact Hlist|].
  apply (Hname (lit "[package]\n") (lit " ") (lit " ") (lit "demo")
               (lit "\nversion = " ++ [quote] ++ lit "0.1.0" ++ [quote] ++ lit "\n")).
  - reflexivity.
  - vm_compute. intros H. repeat (apply elem_of_cons in H as [H|H]; [discriminate H|]).
    now apply elem_of_nil in H.
  - reflexivity.
  - reflexivity.
  - discriminate.
  - vm_compute. intros H. repeat (apply elem_of_cons in H as [H|H]; [discriminate H|]).
    now apply elem_of_nil in H.
Defined.

(** ** Metadata *)

Section MetadataFacts.
Import FileSystemAnalyzer Spec.
Context (host : Host) (fs : FileSystem).

Lemma analyzeProject_unfold (rootPath : jsstring) (md : ProjectMetadata.t) :
  analyzeProject host fs rootPath = Ok md →
  ∃ structure,
    scanDirectoryStructure host fs rootPath 3 0 = Ok structure
    ∧ ProjectMetadata.structure md = structure
    ∧ ProjectMetadata.language md = detectLanguage host (collectFiles structure)
    ∧ ProjectMetadata.dependencies md = findDependencyManifests host fs rootPath
    ∧ ProjectMetadata.scripts md
      = match List.find (fun d => bool_decide (DependencyManifest.type d = npm))
                        (findDependencyManifests host fs rootPath) with
        | Some m =>
            reread host fs (DependencyManifest.filePath m)
                   (fun content =>
                      scripts ← get content (lit "scripts");
                      Some (or_else scripts (VObj [])))
                   (VObj [])
        | None => VObj []
        end
    ∧ ProjectMetadata.entryPoint md
      = match List.find (fun d => bool_decide (DependencyManifest.type d = npm))
                        (findDependencyManifests host fs rootPath) with
        | Some m =>
            reread host fs (DependencyManifest.filePath m)
                   (fun content =>
                      main ← get content (lit "main");
                      if truthy main then Some main
                      else bin ← get content (lit "bin");
                           Some (or_else bin VNull))
                   VNull
        | None => VNull
        end.
Proof.
  unfold analyzeProject.
  destruct (scanDirectoryStructure host fs rootPath 3 0) as [structure| |];
    [|discriminate..].
  cbv zeta. intros H.
  assert (Hmd : ∀ x y : ProjectMetadata.t, Ok x = Ok y → x = y)
    by (intros x y [=]; assumption).
  apply Hmd in H. subst md. exists structure. repeat split.
Qed.

Lemma find_npm (rootPath : jsstring) :
  List.find (fun d => bool_decide (DependencyManifest.type d = npm))
            (findDependencyManifests host fs rootPath)
  = found fs (join host rootPath (lit "package.json")) (readPackageJson host fs rootPath).
Proof.
  rewrite findDependencyManifests_parts.
  destruct (found fs _ (readPackageJson host fs rootPath)) as [m|] eqn:Ha.
  - apply found_some, readPackageJson_type in Ha as [Ht _].
    change (option_list (Some m)) with [m]. cbn [app List.find].
    now rewrite bool_decide_true.
  - change (option_list (@None DependencyManifest.t)) with (@nil DependencyManifest.t).
    cbn [app].
    destruct (found fs _ (readRequirements host fs rootPath)) as [m|] eqn:Hb.
    + apply found_some, readRequirements_type in Hb as [Ht _].
      change (option_list (Some m)) with [m]. cbn [app List.find].
      rewrite bool_decide_false by congruence.
      destruct (found fs _ (readCargo host fs rootPath)) as [m'|] eqn:Hc; [|reflexivity].
      apply found_some, readCargo_type in Hc as [Ht' _].
      change (option_list (Some m')) with [m']. cbn [List.find].
      now rewrite bool_decide_false by congruence.
    + change (option_list (@None DependencyManifest.t)) with (@nil DependencyManifest.t).
      cbn [app].
      destruct (found fs _ (readCargo host fs rootPath)) as [m'|] eqn:Hc; [|reflexivity].
      apply found_some, readCargo_type in Hc as [Ht' _].
      change (option_list (Some m')) with [m']. cbn [List.find].
      now rewrite bool_decide_false by congruence.
Qed.

(** X14. [scripts] and [entryPoint] come from [package.json] alone. Without
    an npm record they are the empty object and [null], whatever the other
    manifests hold. When [package.json] parses to an object, [scripts] is
    its [scripts] value, or the empty object when that is missing or
    falsy, and [entryPoint] is its [main] when truthy, else its [bin] when
    truthy, else [null]. *)
Theorem analyzeProject_npm_fields (rootPath : jsstring) (md : ProjectMetadata.t) :
  let packageJsonPath := join host rootPath (lit "package.json") in
  analyzeProject host fs rootPath = Ok md →
  (found fs packageJsonPath (readPackageJson host fs rootPath) = None →
     ProjectMetadata.scripts md = VObj [] ∧ ProjectMetadata.entryPoint md = VNull)
  ∧ (∀ raw props,
       existsSync fs packageJsonPath = true →
       readFileSync fs packageJsonPath = Some raw →
       JSON_parse host raw = Some (VObj props) →
       let main := default VUndefined (assoc (lit "main") props) in
       let bin := default VUndefined (assoc (lit "bin") props) in
       ProjectMetadata.scripts md
       = or_else (default VUndefined (assoc (lit "scripts") props)) (VObj [])
       ∧ ProjectMetadata.entryPoint md
         = if truthy main then main else if truthy bin then bin else VNull).
Proof.
  cbv zeta. intros Hmd.
  apply analyzeProject_unfold in Hmd as (t & _ & _ & _ & _ & Hscripts & Hentry).
  rewrite find_npm in Hscripts, Hentry. split.
  - intros Hnone. rewrite Hnone in Hscripts, Hentry. auto.
  - intros raw props Hexists Hread Hparse.
    pose proof (readPackageJson_object host fs rootPath _ _ _ Hread Hparse) as Hrecord.
    assert (Hfound : found fs (join host rootPath (lit "package.json"))
                       (readPackageJson host fs rootPath) = Some _)
      by (unfold found; rewrite Hexists; exact Hrecord).
    rewrite Hfound in Hscripts, Hentry.
    cbn [DependencyManifest.filePath] in Hscripts, Hentry.
    unfold reread in Hscripts, Hentry. rewrite Hread in Hscripts, Hentry.
    cbn [mbind option_bind] in Hscripts, Hentry.
    rewrite Hparse in Hscripts, Hentry.
    cbn [mbind option_bind get] in Hscripts, Hentry.
    split; [exact Hscripts|]. rewrite Hentry.
    destruct (truthy (default VUndefined (assoc (lit "main") props))); [reflexivity|].
    unfold or_else. reflexivity.
Qed.

(** X15. The metadata hangs together: [structure] is the scan of the root
    with depth 3, so its path is the root and it has at most three levels;
    [language] is what [detectLanguage] answers on the files collected
    from that structure, and is not empty; [dependencies] are the
    manifests of the root. *)
Theorem analyzeProject_consistent (rootPath : jsstring) (md : ProjectMetadata.t) :
  analyzeProject host fs rootPath = Ok md →
  scanDirectoryStructure host fs rootPath 3 0 = Ok (ProjectMetadata.structure md)
  ∧ DirectoryNode.path (ProjectMetadata.structure md) = rootPath
  ∧ (height (ProjectMetadata.structure md) ≤ 3)%nat
  ∧ ProjectMetadata.language md
    = detectLanguage host (collectFiles (ProjectMetadata.structure md))
  ∧ ProjectMetadata.language md ≠ []
  ∧ ProjectMetadata.dependencies md = findDependencyManifests host fs rootPath.
Proof.
  intros Hmd.
  apply analyzeProject_unfold in Hmd as (t & Hscan & -> & Hlang & Hdeps & _).
  destruct (scan_tree_invariant host fs _ _ _ _ _ eq_refl Hscan) as (Hp & Hh & _).
  split; [exact Hscan|]. split; [exact Hp|]. split; [exact Hh|].
  split; [exact Hlang|]. split; [|exact Hdeps].
  rewrite Hlang, detectLanguage_label.
  destruct (label_of_cases (primary (tally host (collectFiles t))).2)
    as [[_ ->] | (label & _ & -> & Hne & _)]; [discriminate | exact Hne].
Qed.

End MetadataFacts.

Lemma analyze_q :
  ∃ md, FileSystemAnalyzer.analyzeProject Sample.host Sample.npm_fs (lit "/q") = Ok md.
Proof. eexists. vm_compute. reflexivity. Defined.

Lemma analyzeProject_npm_fields_witness :
  ∃ md, FileSystemAnalyzer.analyzeProject Sample.host Sample.npm_fs (lit "/q") = Ok md
        ∧ ProjectMetadata.scripts md = VObj []
        ∧ ProjectMetadata.entryPoint md = VNull.
Proof.
  destruct analyze_q as [md Hmd]. exists md. split; [exact Hmd|].
  destruct (proj2 (analyzeProject_npm_fields Sample.host Sample.npm_fs (lit "/q") md Hmd)
              Sample.package_text [(lit "name", VStr (lit "demo"))]
              eq_refl eq_refl eq_refl) as [Hscripts Hentry].
  split; [exact Hscripts | exact Hentry].
Defined.

Lemma analyzeProject_consistent_witness :
  ∃ md, FileSystemAnalyzer.analyzeProject Sample.host Sample.npm_fs (lit "/q") = Ok md
        ∧ DirectoryNode.path (ProjectMetadata.structure md) = lit "/q"
        ∧ ProjectMetadata.language md ≠ [].
Proof.
  destruct analyze_q as [md Hmd]. exists md. split; [exact Hmd|].
  destruct (analyzeProject_consistent Sample.host Sample.npm_fs (lit "/q") md Hmd)
    as (_ & Hpath & _ & _ & Hlang & _).
  split; [exact Hpath | exact Hlang].
Defined.

(** ** Dominant extensions *)

Section DominantFacts.
Import FileSystemAnalyzer Spec.
Context (host : Host).

(** The extension whose label is returned. *)
Lemma detectLanguage_selected (files : list jsstring) :
  extensions host files ≠ [] →
  ∃ ext, ext ∈ extensions host files
         ∧ Forall (fun e => occurrences e (extensions host files)
                            ≤ occurrences ext (extensions host files))%nat
                  (extensions host files)
         ∧ detectLanguage host files = label_of ext.
Proof.
  intros Hexts. rewrite detectLanguage_label, tally_counts.
  set (exts := extensions host files) in *.
  set (entries := map (fun ext => (ext, occurrences ext exts)) (firsts exts)).
  destruct (primary_loop entries 0 []) as [[_ Hall] | (_ & B & A & Hsplit & HB & HA)].
  - exfalso.
    assert (Hin : ∃ e, e ∈ firsts exts).
    { destruct exts as [|e exts']; [congruence|]. exists e.
      apply firsts_elem, elem_of_cons. now left. }
    destruct Hin as [e Hin].
    assert (Hpos : (0 < occurrences e exts)%nat)
      by (apply occurrences_pos, firsts_elem, Hin).
    unfold entries in Hall. rewrite Forall_map in Hall. cbn [snd] in Hall.
    rewrite List.Forall_forall in Hall.
    apply list_elem_of_In, Hall in Hin. lia.
  - fold (primary entries) in Hsplit, HB, HA.
    destruct (primary_first exts B A _ _ Hsplit HB HA)
      as (Hm & before & after & Hexts' & Hb & Ha).
    exists (primary entries).2. rewrite <- Hm. split; [|split; [|reflexivity]].
    + rewrite Hexts'. apply elem_of_app. right. apply elem_of_cons. now left.
    + apply List.Forall_forall. intros e He.
      rewrite List.Forall_forall in Hb, Ha.
      assert (He' : In e (before ++ (primary entries).2 :: after))
        by (rewrite <- Hexts'; exact He).
      apply in_app_or in He' as [He' | [<- | He']];
        [apply Nat.lt_le_incl, Hb, He' | lia | apply Ha, He'].
Qed.

Lemma filter_Permutation {A} (p : A → bool) (l l' : list A) :
  Permutation l l' → Permutation (List.filter p l) (List.filter p l').
Proof.
  induction 1 as [|x l l' _ IH|x y l|l l' l'' _ IH1 _ IH2]; cbn [List.filter].
  - constructor.
  - destruct (p x); [now constructor | exact IH].
  - destruct (p x), (p y); try reflexivity. constructor.
  - etransitivity; eassumption.
Qed.

Lemma extensions_Permutation (files files' : list jsstring) :
  Permutation files files' →
  Permutation (extensions host files) (extensions host files').
Proof. intros H. unfold extensions. now apply filter_Permutation, Permutation_map. Qed.

Lemma occurrences_Permutation (e : jsstring) (l l' : list jsstring) :
  Permutation l l' → occurrences e l = occurrences e l'.
Proof. intros H. unfold occurrences. now apply Permutation_length, filter_Permutation. Qed.

(** X16. When one extension occurs strictly more often than every other
    one, the result is its label, whatever the order of the file names:
    the order only decides between extensions that tie. *)
Theorem detectLanguage_dominant (files : list jsstring) (ext : jsstring) :
  ext ∈ extensions host files →
  (∀ e, e ∈ extensions host files → e ≠ ext →
        (occurrences e (extensions host files)
         < occurrences ext (extensions host files))%nat) →
  detectLanguage host files = label_of ext
  ∧ ∀ files', Permutation files files' → detectLanguage host files' = label_of ext.
Proof.
  assert (Hone : ∀ fs', ext ∈ extensions host fs' →
            (∀ e, e ∈ extensions host fs' → e ≠ ext →
                  (occurrences e (extensions host fs')
                   < occurrences ext (extensions host fs'))%nat) →
            detectLanguage host fs' = label_of ext).
  { intros fs' Hin Hdom.
    destruct (detectLanguage_selected fs') as (sel & Hsel & Hmax & ->).
    { intros Hnil. rewrite Hnil in Hin. now apply elem_of_nil in Hin. }
    destruct (decide (sel = ext)) as [->|Hne]; [reflexivity|].
    exfalso. specialize (Hdom sel Hsel Hne).
    rewrite List.Forall_forall in Hmax.
    apply list_elem_of_In, Hmax in Hin. lia. }
  intros Hin Hdom. split; [now apply Hone|].
  intros files' Hperm. pose proof (extensions_Permutation _ _ Hperm) as Hexts.
  apply Hone.
  - now rewrite <- Hexts.
  - intros e He Hne.
    rewrite <- !(occurrences_Permutation _ _ _ Hexts). apply Hdom; [|exact Hne].
    now rewrite Hexts.
Qed.

End DominantFacts.

Lemma detectLanguage_dominant_witness :
  FileSystemAnalyzer.detectLanguage Sample.host
    [lit "a.py"; lit "b.ts"; lit "README.md"; lit "c.ts"]
  = lit "TypeScript".
Proof.
  apply (proj1 (detectLanguage_dominant Sample.host
                  [lit "a.py"; lit "b.ts"; lit "README.md"; lit "c.ts"] (lit ".ts")
                  ltac:(vm_compute; apply elem_of_cons; right;
                        apply elem_of_cons; left; reflexivity)
                  ltac:(vm_compute; intros e He Hne;
                        repeat (apply elem_of_cons in He as [->|He];
                                [try congruence; vm_compute; lia|]);
                        now apply elem_of_nil in He))).
Defined.

(** ** Formatter *)

Section FormatterFacts.
Import MarkdownFormatter Spec.

Lemma leading_hashes (n : nat) (rest : jsstring) :
  leading 35 (repeat (lit "#") n ++ 32 :: rest) = n.
Proof. induction n as [|n IH]; [reflexivity|]. cbn. cbn in IH. now rewrite IH. Qed.

(** X17. A heading of a negative level raises; a heading of level
    [level >= 0] is [level] number signs, a space, the text and a line
    feed, so that it starts with exactly [level] number signs even when
    the text itself starts with one. *)
Theorem formatHeading_hashes (text : jsstring) (level : Z) :
  ((level < 0)%Z → formatHeading text level = None)
  ∧ ((0 ≤ level)%Z →
     ∃ heading,
       formatHeading text level = Some heading
       ∧ heading = repeat (lit "#") (Z.to_nat level) ++ lit " " ++ text ++ lit "\n"
       ∧ leading 35 heading = Z.to_nat level).
Proof.
  unfold formatHeading. split; intros Hlevel.
  - now rewrite (proj2 (Z.ltb_lt level 0) Hlevel).
  - rewrite (proj2 (Z.ltb_ge level 0) Hlevel). eexists. split; [reflexivity|].
    split; [reflexivity|]. apply (leading_hashes (Z.to_nat level) (text ++ lit "\n")).
Qed.

Lemma split_lines_line (line rest : jsstring) :
  10 ∉ line → split_lines (line ++ 10 :: rest) = line :: split_lines rest.
Proof.
  induction line as [|c line IH]; intros Hnl; cbn [app split_lines].
  - reflexivity.
  - rewrite not_elem_of_cons in Hnl. destruct Hnl as [Hc Hnl].
    destruct (N.eqb_spec c 10) as [->|_]; [congruence|]. now rewrite IH.
Qed.

Lemma split_lines_joinWith (lines : list jsstring) :
  Forall (fun line => 10 ∉ line) lines → lines ≠ [] →
  split_lines (joinWith (lit "\n") lines ++ lit "\n") = lines ++ [[]].
Proof.
  change (lit "\n") with [10].
  induction 1 as [|line lines Hline Hlines IH]; intros Hne; [congruence|].
  destruct lines as [|next lines].
  - cbn [joinWith app]. now rewrite (split_lines_line line [] Hline).
  - change (joinWith [10] (line :: next :: lines))
      with (line ++ 10 :: joinWith [10] (next :: lines)).
    rewrite <- app_assoc. cbn [app].
    rewrite (split_lines_line line _ Hline), IH by discriminate. reflexivity.
Qed.

(** X18. The list of no item is a lone line feed. For at least one item,
    none holding a line feed, the text splits at line feeds into one line
    per item, the item behind a dash and a space, and a last empty line:
    the items can be read back from the text. *)
Theorem formatList_lines (items : list jsstring) :
  formatList [] = lit "\n"
  ∧ (items ≠ [] → Forall (fun item => 10 ∉ item) items →
     split_lines (formatList items) = map (fun item => lit "- " ++ item) items ++ [[]]).
Proof.
  split; [reflexivity|]. intros Hne Hitems. unfold formatList.
  apply split_lines_joinWith.
  - apply Forall_map. eapply Forall_impl; [exact Hitems|].
    intros item Hitem. cbn. rewrite !not_elem_of_cons. repeat split; [discriminate..|].
    exact Hitem.
  - destruct items; [congruence | discriminate].
Qed.

Lemma format_loop (depth : nat) (children : list DirectoryNode.t) (result : jsstring) :
  fold_left (fun result child => result ++ formatTree child depth) children result
  = result ++ concat (map (fun child => formatTree child depth) children).
Proof.
  revert result. induction children as [|c cs IH]; intros result; simpl.
  - now rewrite app_nil_r.
  - rewrite IH. now rewrite <- app_assoc.
Qed.

Lemma height_child (name path : jsstring) (type : NodeType)
    (children : list DirectoryNode.t) :
  Forall (fun c => S (height c) ≤ height (Node name type children path))%nat children.
Proof.
  cbn [height]. induction children as [|c cs IH]; constructor; cbn [fold_right].
  - lia.
  - eapply Forall_impl; [exact IH|]. cbn. intros; lia.
Qed.

(** X19. The renderer of the generator and the unbounded renderer of the
    formatter give the same text whenever the bound is not reached, that
    is when [maxDepth] is at least the starting depth plus the height of
    the tree. *)
Theorem formatTree_agree (node : DirectoryNode.t) (maxDepth : Z) :
  ∀ depth, (Z.of_nat (depth + height node) ≤ maxDepth)%Z →
           ContentGenerator.formatTree node depth maxDepth = formatTree node depth.
Proof.
  induction node as [name type children path IH] using DirectoryNode_ind'.
  intros depth Hbound. cbn [ContentGenerator.formatTree formatTree].
  replace (Z.of_nat depth >? maxDepth)%Z with false
    by (symmetry; rewrite Z.gtb_ltb; apply Z.ltb_ge; lia).
  destruct (bool_decide (type = directory)); [|reflexivity].
  rewrite render_loop, format_loop. do 2 f_equal.
  apply map_ext_Forall.
  pose proof (height_child name path type children) as Hh.
  rewrite List.Forall_forall in IH, Hh. apply List.Forall_forall. intros c Hc.
  apply IH; [exact Hc|]. specialize (Hh c Hc). lia.
Qed.

(** X20. With [maxDepth <= 0] nothing is rendered: the structure section is
    the heading over an empty fenced block. *)
Theorem generateStructure_no_depth (tree : DirectoryNode.t) (maxDepth : Z) :
  (maxDepth ≤ 0)%Z →
  ContentGenerator.formatTree tree 0 maxDepth = []
  ∧ ContentGenerator.generateStructure tree maxDepth
    = lit "\n## Project Structure\n\n```\n```\n\n".
Proof.
  intros Hdepth.
  assert (Hnone : ContentGenerator.formatTree tree 0 maxDepth = []).
  { rewrite formatTree_lines, filter_none; [reflexivity|].
    apply List.Forall_forall. intros [d n] _. unfold visible. cbn [fst].
    destruct d; [reflexivity|]. apply andb_false_intro2, Z.leb_gt. lia. }
  split; [exact Hnone|]. unfold ContentGenerator.generateStructure. now rewrite Hnone.
Qed.

(** X21. The assembled document is never empty: it is a body followed by
    one line feed, and the body does not start with white space. So the
    document starts with white space only when it is a lone line feed, and
    that is the case exactly when the sections present under the six keys
    hold nothing but white space, as when none of them is present and
    non-empty. *)
Theorem assembleSections_shape (sections : gmap jsstring jsstring) :
  let present :=
    List.filter (fun text => negb (bool_decide (text = [])))
      (omap (fun key => sections !! key) order) in
  (∃ body, assembleSections sections = body ++ lit "\n"
           ∧ ∀ c rest, body = c :: rest → is_white c = false)
  ∧ assembleSections sections ≠ []
  ∧ (∀ c rest, assembleSections sections = c :: rest → is_white c = true →
       assembleSections sections = lit "\n")
  ∧ (assembleSections sections = lit "\n" ↔ non_blank (concat present) = false)
  ∧ (Forall (fun key => sections !! key = None ∨ sections !! key = Some []) order →
     assembleSections sections = lit "\n").
Proof.
  cbv zeta. unfold assembleSections. rewrite assemble_loop. cbn [app].
  set (text := concat (List.filter (fun text => negb (bool_decide (text = [])))
                         (omap (fun key => sections !! key) order))).
  assert (Hhead : ∀ c rest, trim text = c :: rest → is_white c = false).
  { destruct (trim_split text) as (_ & _ & _ & _ & _ & Hhead & _). exact Hhead. }
  split; [|split; [|split; [|split]]].
  - eexists. split; [reflexivity | exact Hhead].
  - intros H. now apply app_eq_nil in H as [_ H].
  - intros c rest Hdoc Hwhite. destruct (trim text) as [|c' body] eqn:Htrim.
    + reflexivity.
    + cbn [app] in Hdoc. apply (f_equal (hd 0)) in Hdoc. cbn [hd] in Hdoc. subst c'.
      rewrite (Hhead c body eq_refl) in Hwhite. discriminate.
  - rewrite <- trim_nil. split.
    + intros Hdoc. change (lit "\n") with ([] ++ lit "\n") in Hdoc at 2.
      now apply app_inv_tail in Hdoc.
    + now intros ->.
  - intros Habsent.
    assert (Hempty : text = []).
    { clear Hhead. subst text.
      induction Habsent as [|key keys Hkey _ IH]; [reflexivity|].
      cbn [omap list_omap]. destruct Hkey as [-> | ->]; [exact IH|].
      cbn [List.filter]. rewrite bool_decide_true by reflexivity. exact IH. }
    now rewrite Hempty.
Qed.

(** X22. Only the six keys of the fixed order are read: two mappings that
    agree on them assemble to the same document, whatever else they
    hold. *)
Theorem assembleSections_six_keys (sections sections' : gmap jsstring jsstring) :
  Forall (fun key => sections !! key = sections' !! key) order →
  assembleSections sections = assembleSections sections'.
Proof.
  intros Hagree. unfold assembleSections. rewrite !assemble_loop.
  assert (Hsame : omap (fun key => sections !! key) order
                  = omap (fun key => sections' !! key) order).
  { induction Hagree as [|key keys Hkey _ IH]; [reflexivity|].
    cbn [omap list_omap]. now rewrite Hkey, IH. }
  now rewrite Hsame.
Qed.

End FormatterFacts.

Lemma formatHeading_hashes_witness :
  ∃ heading, MarkdownFormatter.formatHeading (lit "#tag") 2 = Some heading
             ∧ Spec.leading 35 heading = 2%nat.
Proof.
  destruct (proj2 (formatHeading_hashes (lit "#tag") 2) ltac:(lia))
    as (heading & Hheading & _ & Hlead).
  exists heading. split; [exact Hheading | exact Hlead].
Defined.

Lemma formatList_lines_witness :
  split_lines (MarkdownFormatter.formatList [lit "one"; lit "two"])
  = [lit "- one"; lit "- two"; []].
Proof.
  apply (proj2 (formatList_lines [lit "one"; lit "two"])); [discriminate|].
  repeat constructor; vm_compute; intros H;
    repeat (apply elem_of_cons in H as [H|H]; [discriminate H|]);
    now apply elem_of_nil in H.
Defined.

Lemma formatTree_agree_witness :
  ContentGenerator.formatTree Spec.chain5 0 7 = MarkdownFormatter.formatTree Spec.chain5 0.
Proof. apply formatTree_agree. vm_compute. discriminate. Defined.

Lemma generateStructure_no_depth_witness :
  ContentGenerator.generateStructure Sample.p_tree 0
  = lit "\n## Project Structure\n\n```\n```\n\n".
Proof. apply (proj2 (generateStructure_no_depth Sample.p_tree 0 ltac:(lia))). Defined.

Lemma assembleSections_shape_witness :
  MarkdownFormatter.assembleSections (<[lit "title" := lit "  "]> ∅) = lit "\n"
  ∧ MarkdownFormatter.assembleSections (<[lit "license" := []]> ∅) = lit "\n".
Proof.
  split.
  - apply (proj1 (proj2 (proj2 (proj2
             (assembleSections_shape (<[lit "title" := lit "  "]> ∅)))))).
    vm_compute. reflexivity.
  - apply (proj2 (proj2 (proj2 (proj2
             (assembleSections_shape (<[lit "license" := []]> ∅)))))).
    repeat (constructor; [vm_compute; auto|]). constructor.
Defined.

Lemma assembleSections_six_keys_witness :
  MarkdownFormatter.assembleSections (<[lit "title" := lit "# t"]> ∅)
  = MarkdownFormatter.assembleSections
      (<[lit "badge" := lit "x"]> (<[lit "title" := lit "# t"]> ∅)).
Proof.
  apply assembleSections_six_keys.
  repeat (constructor; [vm_compute; reflexivity|]). constructor.
Defined.

(** ** Configuration options *)

Section OptionFacts.
Import ConfigurationLoader Spec.
Context (host : Host) (fs : FileSystem).

(** X23. A configuration file that parses to an object hands its options
    over unchanged: [excludeSections] and [customContent] when they are
    truthy, [maxDepth] and [includeHiddenFiles] when they are neither
    [null] nor missing, so that a [maxDepth] of 0 and an
    [includeHiddenFiles] of [false] are kept. An option that is missing
    takes its default while the others are kept. *)
Theorem loadConfig_options (rootPath raw : jsstring) (props : list (jsstring * value)) :
  let configPath := join host rootPath (lit ".readmerc.json") in
  existsSync fs configPath = true →
  readFileSync fs configPath = Some raw →
  JSON_parse host raw = Some (VObj props) →
  ∃ config,
    loadConfig host fs rootPath = Some config
    ∧ (∀ v, assoc (lit "excludeSections") props = Some v → truthy v = true →
            GeneratorConfig.excludeSections config = v)
    ∧ (∀ v, assoc (lit "customContent") props = Some v → truthy v = true →
            GeneratorConfig.customContent config = v)
    ∧ (∀ v, assoc (lit "maxDepth") props = Some v → defined v →
            GeneratorConfig.maxDepth config = v)
    ∧ (∀ v, assoc (lit "includeHiddenFiles") props = Some v → defined v →
            GeneratorConfig.includeHiddenFiles config = v)
    ∧ (assoc (lit "excludeSections") props = None →
         GeneratorConfig.excludeSections config = VArr [])
    ∧ (assoc (lit "customContent") props = None →
         GeneratorConfig.customContent config = VObj [])
    ∧ (assoc (lit "maxDepth") props = None →
         GeneratorConfig.maxDepth config = VNum three)
    ∧ (assoc (lit "includeHiddenFiles") props = None →
         GeneratorConfig.includeHiddenFiles config = VBool false).
Proof.
  cbv zeta. intros Hexists Hread Hparse.
  eexists. unfold loadConfig, readUserConfig. rewrite Hexists, Hread.
  cbn [mbind option_bind]. rewrite Hparse.
  cbn [mbind option_bind mergeWithDefaults get].
  split; [reflexivity|].
  cbn [GeneratorConfig.excludeSections GeneratorConfig.customContent
       GeneratorConfig.maxDepth GeneratorConfig.includeHiddenFiles].
  repeat split.
  - intros v -> Hv. now apply or_else_truthy_l.
  - intros v -> Hv. now apply or_else_truthy_l.
  - intros v -> [Hu Hn]. destruct v; cbn; congruence.
  - intros v -> [Hu Hn]. destruct v; cbn; congruence.
  - now intros ->.
  - now intros ->.
  - now intros ->.
  - now intros ->.
Qed.

(** X24. A configuration file that holds valid JSON other than an object
    ([null], a boolean, a number, a string or an array) gives the default
    configuration. *)
Theorem loadConfig_not_an_object (rootPath raw : jsstring) (v : value) :
  let configPath := join host rootPath (lit ".readmerc.json") in
  readFileSync fs configPath = Some raw →
  JSON_parse host raw = Some v →
  (∀ props, v ≠ VObj props) →
  loadConfig host fs rootPath
  = Some (GeneratorConfig.Build (VArr []) (VObj []) (VNum three) (VBool false)).
Proof.
  cbv zeta. intros Hread Hparse Hv. unfold loadConfig, readUserConfig.
  rewrite Hread. cbn [mbind option_bind]. rewrite Hparse. cbn [mbind option_bind].
  destruct (existsSync fs _); [|reflexivity].
  destruct v; try reflexivity. now destruct (Hv props).
Qed.

End OptionFacts.

Lemma loadConfig_options_witness :
  ∃ config,
    ConfigurationLoader.loadConfig Sample.config_host Sample.config_fs (lit "/k")
    = Some config
    ∧ GeneratorConfig.maxDepth config = VNum (S754_zero false)
    ∧ GeneratorConfig.includeHiddenFiles config = VBool false
    ∧ GeneratorConfig.excludeSections config = VArr [].
Proof.
  destruct (loadConfig_options Sample.config_host Sample.config_fs (lit "/k")
              Sample.config_text
              [(lit "maxDepth", VNum (S754_zero false));
               (lit "includeHiddenFiles", VBool false)]
              eq_refl eq_refl eq_refl)
    as (config & Hload & _ & _ & Hdepth & Hhidden & Hexclude & _).
  exists config. split; [exact Hload|]. split; [|split].
  - apply Hdepth; [reflexivity | split; discriminate].
  - apply Hhidden; [reflexivity | split; discriminate].
  - apply Hexclude. reflexivity.
Defined.

Lemma loadConfig_not_an_object_witness :
  ConfigurationLoader.loadConfig Sample.config_host Sample.null_fs (lit "/k")
  = Some (GeneratorConfig.Build (VArr []) (VObj []) (VNum ConfigurationLoader.three)
                                (VBool false)).
Proof.
  apply (loadConfig_not_an_object Sample.config_host Sample.null_fs (lit "/k")
           (lit "null") VNull eq_refl eq_refl).
  discriminate.
Defined.

(** ** Exclusion and override *)

Section MergeFacts.
Import ConfigurationLoader MarkdownFormatter Spec.

(** X25. Exclusion only removes: the result is a sub-mapping of its input,
    and it never holds the key [__proto__], which the copying loop cannot
    write. Two exclusions in a row are the exclusion of both lists
    together, and excluding the same keys again changes nothing. Excluding
    nothing, or only keys the mapping does not hold, gives the input
    without its [__proto__] key: the input itself when it has none. *)
Theorem applySectionExclusion_algebra (sections : gmap jsstring jsstring)
    (excluded excluded' : list jsstring) :
  applySectionExclusion sections excluded ⊆ sections
  ∧ applySectionExclusion sections excluded !! lit "__proto__" = None
  ∧ applySectionExclusion (applySectionExclusion sections excluded) excluded'
    = applySectionExclusion sections (excluded ++ excluded')
  ∧ applySectionExclusion (applySectionExclusion sections excluded) excluded
    = applySectionExclusion sections excluded
  ∧ applySectionExclusion sections [] = delete (lit "__proto__") sections
  ∧ (Forall (fun key => sections !! key = None) excluded →
     applySectionExclusion sections excluded = delete (lit "__proto__") sections)
  ∧ (Forall (fun key => sections !! key = None) (lit "__proto__" :: excluded) →
     applySectionExclusion sections excluded = sections).
Proof.
  assert (Habsent : ∀ excluded, Forall (fun key => sections !! key = None) excluded →
            applySectionExclusion sections excluded = delete (lit "__proto__") sections).
  { intros keys Hkeys. apply map_eq. intros key. rewrite applySectionExclusion_lookup.
    destruct (decide (key = lit "__proto__")) as [->|Hne].
    - rewrite lookup_delete_eq.
      now destruct (bool_decide (lit "__proto__" ∈ keys)).
    - rewrite lookup_delete_ne by congruence. rewrite (bool_decide_false _ Hne).
      destruct (decide (key ∈ keys)) as [Hkey|Hkey].
      + rewrite (bool_decide_true _ Hkey). rewrite List.Forall_forall in Hkeys.
        symmetry. apply Hkeys. now apply list_elem_of_In.
      + now rewrite (bool_decide_false _ Hkey). }
  split; [|split; [|split; [|split; [|split; [|split]]]]].
  - apply map_subseteq_spec. intros key text.
    rewrite applySectionExclusion_lookup. now repeat case_bool_decide.
  - rewrite applySectionExclusion_lookup.
    destruct (bool_decide (lit "__proto__" ∈ excluded)); [reflexivity|].
    now rewrite (bool_decide_true (lit "__proto__" = lit "__proto__")).
  - apply map_eq. intros key. rewrite !applySectionExclusion_lookup.
    destruct (decide (key ∈ excluded)) as [Hkey|Hkey];
      destruct (decide (key ∈ excluded')) as [Hkey'|Hkey'].
    + rewrite (bool_decide_true _ Hkey'), (bool_decide_true (key ∈ excluded ++ excluded'))
        by (apply elem_of_app; now left).
      reflexivity.
    + rewrite (bool_decide_false _ Hkey'), (bool_decide_true _ Hkey),
        (bool_decide_true (key ∈ excluded ++ excluded'))
        by (apply elem_of_app; now left).
      now destruct (bool_decide (key = lit "__proto__")).
    + rewrite (bool_decide_true _ Hkey'), (bool_decide_true (key ∈ excluded ++ excluded'))
        by (apply elem_of_app; now right).
      reflexivity.
    + rewrite (bool_decide_false _ Hkey'), (bool_decide_false _ Hkey),
        (bool_decide_false (key ∈ excluded ++ excluded'))
        by (rewrite elem_of_app; tauto).
      now destruct (bool_decide (key = lit "__proto__")).
  - apply map_eq. intros key. rewrite !applySectionExclusion_lookup.
    destruct (bool_decide (key ∈ excluded)); [reflexivity|].
    now destruct (bool_decide (key = lit "__proto__")).
  - apply Habsent. constructor.
  - apply Habsent.
  - intros Hkeys. apply Forall_cons in Hkeys as [Hproto Hkeys].
    rewrite (Habsent _ Hkeys). now apply delete_id.
Qed.

(** X26. Override never removes a key; with no custom content, or with
    custom content whose values are all empty, it changes nothing; applied
    twice with the same custom content it gives what it gives once. *)
Theorem applyCustomContent_algebra (sections customContent : gmap jsstring jsstring) :
  dom sections ⊆ dom (applyCustomContent sections customContent)
  ∧ applyCustomContent sections ∅ = sections
  ∧ ((∀ key text, customContent !! key = Some text → text = []) →
     applyCustomContent sections customContent = sections)
  ∧ applyCustomContent (applyCustomContent sections customContent) customContent
    = applyCustomContent sections customContent.
Proof.
  split; [|split; [|split]].
  - intros key. rewrite !elem_of_dom, applyCustomContent_lookup.
    intros Hkey. destruct (customContent !! key) as [text|]; [|exact Hkey].
    destruct (bool_decide (text = [])); [exact Hkey|].
    destruct (bool_decide (key = lit "__proto__")); [|eauto].
    destruct Hkey as [old ->]. cbn. eauto.
  - apply map_eq. intros key. rewrite applyCustomContent_lookup.
    now rewrite lookup_empty.
  - intros Hempty. apply map_eq. intros key. rewrite applyCustomContent_lookup.
    destruct (customContent !! key) as [text|] eqn:Hkey; [|reflexivity].
    now rewrite (Hempty key text Hkey), (bool_decide_true ([] = [])).
  - apply map_eq. intros key. rewrite !applyCustomContent_lookup.
    destruct (customContent !! key) as [text|]; [|reflexivity].
    destruct (bool_decide (text = [])); [reflexivity|].
    destruct (bool_decide (key = lit "__proto__")); [|reflexivity].
    now destruct (sections !! key).
Qed.

(** X27. The order of the two steps matters. Override first and exclusion
    second leaves no excluded key in the mapping; the two orders give the
    same mapping exactly when no excluded key other than [__proto__] has
    non-empty custom content. (The key [__proto__] never makes a
    difference: neither order leaves it in the mapping.) *)
Theorem exclusion_override_order (sections : gmap jsstring jsstring)
    (excluded : list jsstring) (customContent : gmap jsstring jsstring) :
  (∀ key, key ∈ excluded →
     applySectionExclusion (applyCustomContent sections customContent) excluded !! key
     = None)
  ∧ applySectionExclusion (applyCustomContent sections customContent) excluded
      !! lit "__proto__"
    = configureSections sections excluded customContent !! lit "__proto__"
  ∧ (applySectionExclusion (applyCustomContent sections customContent) excluded
     = configureSections sections excluded customContent
     ↔ ∀ key, key ∈ excluded → key ≠ lit "__proto__" →
              customContent !! key = None ∨ customContent !! key = Some []).
Proof.
  assert (Hproto : applySectionExclusion (applyCustomContent sections customContent)
                     excluded !! lit "__proto__"
                   = configureSections sections excluded customContent !! lit "__proto__").
  { rewrite applySectionExclusion_lookup, configureSections_lookup.
    rewrite !(bool_decide_true (lit "__proto__" = lit "__proto__")) by reflexivity.
    now destruct (bool_decide (lit "__proto__" ∈ excluded)). }
  split; [|split; [exact Hproto|]].
  - intros key Hkey. rewrite applySectionExclusion_lookup.
    now rewrite (bool_decide_true _ Hkey).
  - split.
    + intros Hsame key Hkey Hne.
      apply (f_equal (fun m : gmap jsstring jsstring => m !! key)) in Hsame.
      rewrite applySectionExclusion_lookup, configureSections_lookup in Hsame.
      rewrite (bool_decide_true _ Hkey), (bool_decide_false _ Hne) in Hsame.
      destruct (customContent !! key) as [text|]; [|now left].
      right. destruct (decide (text = [])) as [->|Htext]; [reflexivity|].
      rewrite (bool_decide_false _ Htext) in Hsame. discriminate.
    + intros Hcustom. apply map_eq. intros key.
      destruct (decide (key = lit "__proto__")) as [->|Hne]; [exact Hproto|].
      rewrite applySectionExclusion_lookup, configureSections_lookup,
        applyCustomContent_lookup, applySectionExclusion_lookup.
      rewrite !(bool_decide_false _ Hne).
      destruct (decide (key ∈ excluded)) as [Hkey|Hkey].
      * rewrite !(bool_decide_true _ Hkey).
        destruct (Hcustom key Hkey Hne) as [-> | ->]; [reflexivity|].
        now rewrite (bool_decide_true ([] = [])).
      * rewrite !(bool_decide_false _ Hkey). reflexivity.
Qed.

(** X28. The text generated for an excluded section has no effect on the
    document: whatever the mapping holds under an excluded key, the
    configured mapping and the assembled document are the same. *)
Theorem excluded_text_unused (sections : gmap jsstring jsstring)
    (excluded : list jsstring) (customContent : gmap jsstring jsstring)
    (key text : jsstring) :
  key ∈ excluded →
  configureSections (<[key := text]> sections) excluded customContent
  = configureSections sections excluded customContent
  ∧ assembleSections (configureSections (<[key := text]> sections) excluded customContent)
    = assembleSections (configureSections sections excluded customContent)
  ∧ configureSections (delete key sections) excluded customContent
    = configureSections sections excluded customContent.
Proof.
  intros Hkey.
  assert (Hexcluded : ∀ sections' : gmap jsstring jsstring,
            (∀ k, k ≠ key → sections' !! k = sections !! k) →
            configureSections sections' excluded customContent
            = configureSections sections excluded customContent).
  { intros sections' Hsame. apply map_eq. intros k.
    rewrite !configureSections_lookup, !applySectionExclusion_lookup.
    destruct (decide (k = key)) as [->|Hne].
    - now rewrite !(bool_decide_true _ Hkey).
    - now rewrite (Hsame k Hne). }
  assert (Hins : configureSections (<[key := text]> sections) excluded customContent
                 = configureSections sections excluded customContent).
  { apply Hexcluded. intros k Hne. now rewrite lookup_insert_ne. }
  split; [exact Hins|]. split; [now rewrite Hins|].
  apply Hexcluded. intros k Hne. now rewrite lookup_delete_ne.
Qed.

End MergeFacts.

Lemma applySectionExclusion_algebra_witness :
  ConfigurationLoader.applySectionExclusion
    (<[lit "title" := lit "# t"]> ∅) [lit "usage"; lit "license"]
  = <[lit "title" := lit "# t"]> ∅.
Proof.
  apply (proj2 (proj2 (proj2 (proj2 (proj2 (proj2
           (applySectionExclusion_algebra (<[lit "title" := lit "# t"]> ∅)
              [lit "usage"; lit "license"] []))))))).
  repeat (constructor; [vm_compute; reflexivity|]). constructor.
Defined.

Lemma applyCustomContent_algebra_witness :
  ConfigurationLoader.applyCustomContent
    (<[lit "title" := lit "# t"]> ∅) (<[lit "title" := []]> ∅)
  = <[lit "title" := lit "# t"]> ∅.
Proof.
  apply (proj1 (proj2 (proj2
           (applyCustomContent_algebra (<[lit "title" := lit "# t"]> ∅)
              (<[lit "title" := []]> ∅))))).
  intros key text Hlookup.
  destruct (decide (key = lit "title")) as [->|Hne].
  - rewrite lookup_insert_eq in Hlookup. congruence.
  - rewrite lookup_insert_ne, lookup_empty in Hlookup by congruence. discriminate.
Defined.

Lemma exclusion_override_order_witness :
  ConfigurationLoader.applySectionExclusion
    (ConfigurationLoader.applyCustomContent
       (<[lit "usage" := lit "u"]> ∅) (<[lit "usage" := lit "mine"]> ∅))
    [lit "usage"] !! lit "usage"
  = None.
Proof.
  apply (proj1 (exclusion_override_order (<[lit "usage" := lit "u"]> ∅) [lit "usage"]
                  (<[lit "usage" := lit "mine"]> ∅))).
  apply elem_of_cons. now left.
Defined.

Lemma excluded_text_unused_witness :
  ConfigurationLoader.configureSections
    (<[lit "usage" := lit "generated"]> ∅) [lit "usage"] ∅
  = ConfigurationLoader.configureSections ∅ [lit "usage"] ∅.
Proof.
  apply (proj1 (excluded_text_unused ∅ [lit "usage"] ∅ (lit "usage") (lit "generated")
                  ltac:(apply elem_of_cons; now left))).
Defined.

(** ** Section generators *)

Section GeneratorFacts.
Import ContentGenerator Spec.
Context (Number_toString : spec_float → jsstring).

Lemma usage_loop_typed (scripts : list (jsstring * jsstring)) (content : jsstring) :
  fold_left (fun content '(name, command) =>
               content ← content;
               command ← toString Number_toString command;
               Some (content ++ (lit "- `npm run " ++ name ++ lit "`: "
                                 ++ command ++ lit "\n")))
            (map (fun script => (script.1, VStr script.2)) scripts) (Some content)
  = Some (content ++ concat (map usage_line scripts)).
Proof.
  revert content. induction scripts as [|[name command] scripts IH]; intros content.
  - cbn. now rewrite app_nil_r.
  - cbn [map fold_left fst snd mbind option_bind toString]. rewrite IH.
    cbn [map concat]. unfold usage_line at 2. cbn [fst snd].
    now rewrite <- !app_assoc.
Qed.

Lemma usage_loop_prefix (entries : list (jsstring * value)) (content out : jsstring) :
  fold_left (fun content '(name, command) =>
               content ← content;
               command ← toString Number_toString command;
               Some (content ++ (lit "- `npm run " ++ name ++ lit "`: "
                                 ++ command ++ lit "\n")))
            entries (Some content)
  = Some out →
  ∃ more, out = content ++ more.
Proof.
  revert content. induction entries as [|[name command] entries IH]; intros content.
  - cbn. intros [= <-]. exists []. now rewrite app_nil_r.
  - cbn [fold_left mbind option_bind].
    destruct (toString Number_toString command) as [text|].
    + intros H. apply IH in H as [more ->]. eexists. now rewrite <- app_assoc.
    + intros H. exfalso. revert H. clear.
      induction entries as [|[n c] entries IH]; cbn [fold_left mbind option_bind];
        [discriminate | exact IH].
Qed.

(** X29. The description section is empty exactly when the description is
    falsy; a non-empty description text is wrapped between two line
    feeds. *)
Theorem generateDescription_spec (metadata : ProjectMetadata.t) :
  (truthy (ProjectMetadata.description metadata) = false →
   generateDescription Number_toString metadata = Some [])
  ∧ (∀ text, ProjectMetadata.description metadata = VStr text → text ≠ [] →
       generateDescription Number_toString metadata = Some (lit "\n" ++ text ++ lit "\n"))
  ∧ (∀ out, generateDescription Number_toString metadata = Some out →
       (out = [] ↔ truthy (ProjectMetadata.description metadata) = false)).
Proof.
  unfold generateDescription. split; [|split].
  - now intros ->.
  - intros text -> Hne. cbn [truthy]. now rewrite bool_decide_false.
  - intros out. destruct (truthy (ProjectMetadata.description metadata)); cbn [negb].
    + destruct (toString Number_toString _); [|discriminate].
      cbn. intros [= <-]. split; discriminate.
    + intros [= <-]. tauto.
Qed.

(** X30. Whenever the usage section is produced it starts with its
    heading. For a scripts object whose commands are strings and an entry
    point that is [null] or a string, it is produced and is the heading,
    then (when there are scripts) the list of one line per script in the
    order of the object, then (when the entry point is not empty) the
    command that runs it. With no script and no entry point it is the
    heading alone, and every script has its line in the section. *)
Theorem generateUsage_spec (metadata : ProjectMetadata.t) :
  (∀ out, generateUsage Number_toString metadata = Some out →
          ∃ more, out = lit "\n## Usage\n\n" ++ more)
  ∧ ∀ scripts entryPoint,
      ProjectMetadata.scripts metadata = scripts_object scripts →
      (ProjectMetadata.entryPoint metadata = VStr entryPoint
       ∨ (ProjectMetadata.entryPoint metadata = VNull ∧ entryPoint = [])) →
      generateUsage Number_toString metadata
      = Some (lit "\n## Usage\n\n" ++ scripts_part scripts ++ entry_part entryPoint)
      ∧ (scripts = [] → entryPoint = [] →
         generateUsage Number_toString metadata = Some (lit "\n## Usage\n\n"))
      ∧ (∀ script, script ∈ scripts →
           contains (usage_line script) (scripts_part scripts)).
Proof.
  split.
  - intros out. unfold generateUsage.
    destruct (Object_keys (ProjectMetadata.scripts metadata)) as [keys|]; [|discriminate].
    cbn [mbind option_bind].
    assert (Hentry : ∀ content,
      (∃ more, content = lit "\n## Usage\n\n" ++ more) →
      (if truthy (ProjectMetadata.entryPoint metadata)
       then entryPoint ← toString Number_toString (ProjectMetadata.entryPoint metadata);
            Some ((content ++ lit "Run the application:\n\n")
                  ++ (lit "```bash\nnode " ++ entryPoint ++ lit "\n```\n\n"))
       else Some content) = Some out →
      ∃ more, out = lit "\n## Usage\n\n" ++ more).
    { intros content [more ->].
      destruct (truthy (ProjectMetadata.entryPoint metadata)).
      - destruct (toString Number_toString _) as [text|]; [|discriminate].
        cbn. intros [= <-]. eexists. rewrite <- !app_assoc. reflexivity.
      - intros [= <-]. eauto. }
    destruct (0 <? length keys)%nat.
    + destruct (Object_entries (ProjectMetadata.scripts metadata)) as [entries|];
        [|discriminate].
      cbn [mbind option_bind].
      destruct (fold_left _ entries _) as [content|] eqn:Hloop; [|discriminate].
      apply usage_loop_prefix in Hloop as [more ->].
      cbn [mbind option_bind]. apply Hentry. eexists. rewrite <- !app_assoc. reflexivity.
    + cbn [mbind option_bind]. apply Hentry. exists []. now rewrite app_nil_r.
  - intros scripts entryPoint Hscripts Hentry.
    assert (Hout : generateUsage Number_toString metadata
                   = Some (lit "\n## Usage\n\n" ++ scripts_part scripts
                           ++ entry_part entryPoint)).
    { unfold generateUsage. rewrite Hscripts. unfold scripts_object.
      cbn [Object_keys Object_entries mbind option_bind].
      rewrite !length_map.
      assert (Hlist :
        (if (0 <? length scripts)%nat
         then content ←
                fold_left (fun content '(name, command) =>
                             content ← content;
                             command ← toString Number_toString command;
                             Some (content ++ (lit "- `npm run " ++ name ++ lit "`: "
                                               ++ command ++ lit "\n")))
                          (map (fun script => (script.1, VStr script.2)) scripts)
                          (Some (lit "\n## Usage\n\n" ++ lit "Available scripts:\n\n"));
              Some (content ++ lit "\n")
         else Some (lit "\n## Usage\n\n"))
        = Some (lit "\n## Usage\n\n" ++ scripts_part scripts)).
      { destruct scripts as [|script scripts]; [reflexivity|].
        cbn [length Nat.ltb Nat.leb]. rewrite usage_loop_typed.
        cbn [mbind option_bind scripts_part]. now rewrite <- !app_assoc. }
      rewrite Hlist. cbn [mbind option_bind].
      destruct Hentry as [-> | [-> ->]].
      - cbn [truthy toString]. destruct entryPoint as [|c e].
        + rewrite bool_decide_true by reflexivity. cbn [negb entry_part].
          now rewrite !app_nil_r.
        + rewrite bool_decide_false by discriminate.
          cbn [negb mbind option_bind entry_part]. now rewrite <- !app_assoc.
      - cbn [truthy entry_part]. now rewrite !app_nil_r. }
    split; [exact Hout|]. split.
    + intros -> ->. rewrite Hout. reflexivity.
    + intros script Hin. apply list_elem_of_split in Hin as (l1 & l2 & ->).
      unfold scripts_part. destruct (l1 ++ script :: l2) eqn:Hl;
        [now destruct l1|]. rewrite <- Hl.
      rewrite map_app, concat_app. cbn [map concat].
      apply (contains_intro (lit "Available scripts:\n\n" ++ concat (map usage_line l1)) _
                            (concat (map usage_line l2) ++ lit "\n")).
      now rewrite <- !app_assoc.
Qed.

End GeneratorFacts.

Lemma generateDescription_spec_witness :
  ContentGenerator.generateDescription Sample.no_numbers Sample.metadata
  = Some (lit "\nA test\n").
Proof.
  apply (proj1 (proj2 (generateDescription_spec Sample.no_numbers Sample.metadata))
           (lit "A test")); [reflexivity | discriminate].
Defined.

Lemma generateUsage_spec_witness :
  ContentGenerator.generateUsage Sample.no_numbers Sample.metadata
  = Some (lit "\n## Usage\n\nAvailable scripts:\n\n- `npm run build`: tsc\n- `npm run test`: vitest\n\nRun the application:\n\n```bash\nnode dist/index.js\n```\n\n").
Proof.
  apply (proj1 (proj2 (generateUsage_spec Sample.no_numbers Sample.metadata)
                  [(lit "build", lit "tsc"); (lit "test", lit "vitest")]
                  (lit "dist/index.js") eq_refl (or_introl eq_refl))).
Defined.
